(** * pytorch_forecasting.data: the windowed time-series dataset

    A shallow embedding of [pytorch_forecasting/data.py]: the categorical
    encoder [NaNLabelEncoder], the constructor of [TimeSeriesDataSet] with
    the Python objects it shares and mutates, [construct_index],
    [_data_to_tensor], [__getitem__], [_collate_fn] and [from_dataset],
    followed by the properties of the specification that are settled on
    them and by further properties of the code.

    Conventions.
    - Python exceptions are values of [exn]; a call that may raise returns a
      [result].  Code that mutates shared Python objects runs in [Py], a
      state-and-exception monad over the object store [Heap].
    - Integers are [Z].  Floating-point numbers are the carrier [R] of a
      [FloatModel]: their arithmetic is a parameter of the development and
      is never interpreted.
    - pandas frames are maps from column names to typed columns, numpy and
      torch arrays are lists (of lists). *)

From Stdlib Require Import ZArith String List Lia Permutation Sorting.Sorted.
From stdpp Require Import base tactics option list strings gmap sorting.

Local Open Scope string_scope.
Local Open Scope Z_scope.
Local Open Scope list_scope.

(** ** Exceptions and results *)

Inductive exn :=
  | AssertionError (msg : string)
  | KeyError (key : string)
  | ValueError (msg : string)
  | IndexError
  | TypeError
  | AttributeError
  | RuntimeError.

Inductive result (A : Type) :=
  | Ok (a : A)
  | Raise (e : exn).
Arguments Ok {A} a.
Arguments Raise {A} e.

#[global] Instance result_ret : MRet result := λ A, Ok.
#[global] Instance result_bind : MBind result := λ A B f m,
  match m with Ok a => f a | Raise e => Raise e end.
#[global] Instance result_fmap : FMap result := λ A B f m,
  match m with Ok a => Ok (f a) | Raise e => Raise e end.

Definition is_Ok {A} (m : result A) : Prop := ∃ a, m = Ok a.

(** [assert cond, msg] *)
Definition py_assert (cond : bool) (msg : string) : result unit :=
  if cond then Ok tt else Raise (AssertionError msg).

(** Lookup of an optional value that raises when absent. *)
Definition or_raise {A} (e : exn) (o : option A) : result A :=
  match o with Some a => Ok a | None => Raise e end.

(** ** Python sequences *)

(** [l[k]] on a list, tuple or array, and [.iloc[k]]: a negative position
    counts from the end, a position out of range raises [IndexError]. *)
Definition iloc {A} (l : list A) (k : Z) : result A :=
  let n := Z.of_nat (length l) in
  if bool_decide (0 ≤ k < n) then or_raise IndexError (l !! Z.to_nat k)
  else if bool_decide (- n ≤ k < 0) then or_raise IndexError (l !! Z.to_nat (n + k))
  else Raise IndexError.

(** A slice bound as Python normalises it: negative bounds count from the
    end, and the result is clamped to [0 .. len]. *)
Definition slice_bound (n k : Z) : Z :=
  if bool_decide (k < 0) then Z.max 0 (n + k) else Z.min k n.

(** [l[lo:hi]] *)
Definition py_slice {A} (lo hi : Z) (l : list A) : list A :=
  let n := Z.of_nat (length l) in
  let a := slice_bound n lo in
  let b := slice_bound n hi in
  take (Z.to_nat (b - a)) (drop (Z.to_nat a) l).

(** [l[lo:]] and [l[:hi]] *)
Definition py_slice_from {A} (lo : Z) (l : list A) : list A :=
  drop (Z.to_nat (slice_bound (Z.of_nat (length l)) lo)) l.
Definition py_slice_to {A} (hi : Z) (l : list A) : list A :=
  take (Z.to_nat (slice_bound (Z.of_nat (length l)) hi)) l.

(** [list.index(x)]: the first position of [x], [ValueError] when absent. *)
Fixpoint index_of `{EqDecision A} (x : A) (l : list A) : option nat :=
  match l with
  | [] => None
  | y :: l' => if decide (x = y) then Some 0%nat else S <$> index_of x l'
  end.

Definition list_index `{EqDecision A} (x : A) (l : list A) : result Z :=
  or_raise (ValueError "is not in list") (Z.of_nat <$> index_of x l).

(** ** Floating-point numbers

    The numeric behaviour of numpy, torch and scikit-learn on floats is not
    part of this repository.  It enters the model as the operations below. *)

Class FloatModel := {
  R : Type;
  R_eq_dec :: EqDecision R;
  (** the order used by sorting and by [np.unique] *)
  R_le : R → R → Prop;
  R_le_dec :: RelDecision R_le;
  (** conversion of an integer ([to_numpy(dtype=np.float32)], literals) *)
  R_of_Z : Z → R;
  (** cast of a float to an integer ([to_numpy(np.long)]) *)
  R_to_Z : R → Z;
  (** one entry of [torch.arange(-e, d) / max_encoder_length] *)
  R_rel_time : Z → Z → R;
  (** the default [(0.2, 0.05)] of [randomize_length] *)
  R_default_concentrations : R * R;
  (** [MinMaxScaler(feature_range=(-1, 1)).fit] and [StandardScaler().fit]:
      the fitted parameters *)
  fit_minmax : list R → R * R;
  fit_standard : list R → R * R;
  (** [scaler.transform] on one value, from the fitted parameters *)
  transform_minmax : R * R → R → R;
  transform_standard : R * R → R → R;
}.

(** ** Columns *)

Section Model.
Context `{FM : FloatModel}.

(** A pandas column has a dtype: object (strings), integer or float. *)
Inductive column :=
  | StrCol (l : list string)
  | IntCol (l : list Z)
  | RealCol (l : list R).

(** One value of a column. [LNaN] is [np.nan], which occurs in the model
    only as the class that add-nan mode puts in front of a numeric
    vocabulary. *)
Inductive label :=
  | LStr (s : string)
  | LInt (z : Z)
  | LReal (r : R)
  | LNaN.

#[global] Instance label_eq_dec : EqDecision label.
Proof. solve_decision. Defined.

Definition labels_of (y : column) : list label :=
  match y with
  | StrCol l => LStr <$> l
  | IntCol l => LInt <$> l
  | RealCol l => LReal <$> l
  end.

Definition col_length (y : column) : nat := length (labels_of y).

(** ** NaNLabelEncoder (data.py, lines 16-58) *)

Definition string_le (s1 s2 : string) : Prop := String.leb s1 s2 = true.
#[global] Instance string_le_dec : RelDecision string_le.
Proof. intros s1 s2. unfold string_le. apply _. Defined.

(** [np.unique]: the distinct values, sorted. *)
Definition np_unique {A} `{EqDecision A} (le : A → A → Prop) `{!RelDecision le}
    (l : list A) : list A :=
  merge_sort le (remove_dups l).

(** [LabelEncoder.fit] of scikit-learn: [classes_ = np.unique(y)]. *)
Definition LabelEncoder_fit (y : column) : list label :=
  match y with
  | StrCol l => LStr <$> np_unique string_le l
  | IntCol l => LInt <$> np_unique Z.le l
  | RealCol l => LReal <$> np_unique R_le l
  end.

Record NaNLabelEncoder := {
  add_nan : bool;
  classes_ : list label;
}.

(** [y.dtype.kind in "bcif"]; the second disjunct of the source tests
    whether the column object is itself a dtype, see
    [isinstance_CategoricalDtype]. *)
Definition isinstance_CategoricalDtype (y : column) : bool := false.

Definition is_numeric (y : column) : bool :=
  match y with
  | StrCol _ => isinstance_CategoricalDtype y
  | IntCol _ | RealCol _ => true
  end.

(** [y.cat.add_categories("nan")] followed by [y.fillna("nan")]: the columns
    of the model hold no missing value, so that nothing is filled. *)
Definition fillna_nan (y : column) : column := y.

Definition encode_nans (y : column) : column :=
  if negb (is_numeric y) && isinstance_CategoricalDtype y then fillna_nan y else y.

(** [c not in [np.nan, "nan"]] for an element of [classes_]: a string is
    compared with ["nan"]; a number is equal to neither entry. *)
Definition is_nan_class (c : label) : bool :=
  bool_decide (c = LStr "nan").

Definition fit (add_nan_arg : bool) (y : column) : NaNLabelEncoder :=
  let classes := LabelEncoder_fit y in
  if add_nan_arg then
    let y' := encode_nans y in
    {| add_nan := true;
       classes_ := (if is_numeric y' then LNaN else LStr "nan")
                   :: filter (λ c, is_nan_class c = false) classes |}
  else {| add_nan := false; classes_ := classes |}.

(** [LabelEncoder.transform] of scikit-learn: the position of each value
    in [classes_]; a value that is not a class raises
    "y contains previously unseen labels". *)
Definition encode_label (classes : list label) (v : label) : result Z :=
  or_raise (ValueError "y contains previously unseen labels")
           (Z.of_nat <$> index_of v classes).

Definition LabelEncoder_transform (classes : list label) (y : column) : result (list Z) :=
  mapM (encode_label classes) (labels_of y).

Definition transform (enc : NaNLabelEncoder) (y : column) : result (list Z) :=
  let y := if add_nan enc then encode_nans y else y in
  LabelEncoder_transform (classes_ enc) y.

(** [LabelEncoder.inverse_transform]: [classes_[code]], a code outside
    [0 .. len(classes_) - 1] raises. *)
Definition decode_label (classes : list label) (c : Z) : result label :=
  if bool_decide (0 ≤ c) then
    or_raise (ValueError "y contains previously unseen labels") (classes !! Z.to_nat c)
  else Raise (ValueError "y contains previously unseen labels").

Definition inverse_transform (enc : NaNLabelEncoder) (codes : list Z) : result (list label) :=
  mapM (decode_label (classes_ enc)) codes.

(** An encoder object between its creation and [fit]: [classes_] is an
    attribute that [fit] sets and that [LabelEncoder.transform] requires
    ([check_is_fitted]; [NotFittedError] is a [ValueError]). *)
Record EncoderObject := {
  obj_add_nan : bool;
  obj_classes_ : option (list label);
}.

(** [NaNLabelEncoder(add_nan=...)] (lines 21-28) *)
Definition NaNLabelEncoder_new (add_nan_arg : bool) : EncoderObject :=
  {| obj_add_nan := add_nan_arg; obj_classes_ := None |}.

(** [fit_transform] (lines 30-34): the object after the call and what
    the call returns.  Without [add_nan] the method goes to
    [LabelEncoder.transform] at once. *)
Definition fit_transform (enc : EncoderObject) (y : column)
    : EncoderObject * result (list Z) :=
  if obj_add_nan enc then
    let fitted := fit true y in
    ({| obj_add_nan := true; obj_classes_ := Some (classes_ fitted) |}, transform fitted y)
  else
    (enc, match obj_classes_ enc with
          | Some classes => LabelEncoder_transform classes y
          | None => Raise (ValueError "This NaNLabelEncoder instance is not fitted yet")
          end).

(** ** construct_index (data.py, lines 249-302) *)

(** The part of the configuration that the index and the accessor read. *)
Record Lengths := {
  max_encoder_length : Z;
  min_encoder_length : Z;
  min_prediction_idx : Z;
  min_prediction_length : Z;
  max_prediction_length : Z;
}.

(** What [construct_index] reads of a row of the sorted table: its label in
    the frame's index, the number [g.ngroup()] of its group, which stands
    for its [group_ids] key in every [groupby], and [__time_idx__]. *)
Record TableRow := {
  t_label : Z;
  t_group : Z;
  t_time : Z;
}.

(** [__time_idx__] of the rows of one group, in table order. *)
Definition group_times (rows : list TableRow) (g : Z) : list Z :=
  t_time <$> filter (λ r, t_group r = g) rows.

(** [-g["__time_idx__"].diff(-1).fillna(-1).astype(int)]: the time of the
    next row of the same group minus the row's own time, and [1] on the
    last row of a group. *)
Fixpoint diff_to_next (rows : list TableRow) : list Z :=
  match rows with
  | [] => []
  | r :: rest =>
      match head (group_times rest (t_group r)) with
      | Some t' => - (t_time r - t')
      | None => - (-1)
      end :: diff_to_next rest
  end.

(** The frame [df_index] before [index_end] is assigned. *)
Record BaseRow := {
  b_label : Z;
  time_first : Z;
  time_last : Z;
  time_diff_to_next : Z;
  index_start : Z;
  time : Z;
  count : Z;
  group_id : Z;
}.

(** The columns of line 253-260 for the row [r] at position [i]: the
    first and the last time of its group ([transform("nth", 0)] and
    [transform("nth", -1)]), its position, its time, and [count]. *)
Definition base_row (rows : list TableRow) (i : nat) (r : TableRow) (d : Z) : BaseRow :=
  let first := default (t_time r) (head (group_times rows (t_group r))) in
  let last := default (t_time r) (last (group_times rows (t_group r))) in
  {| b_label := t_label r;
     time_first := first;
     time_last := last;
     time_diff_to_next := d;
     index_start := Z.of_nat i;
     time := t_time r;
     count := last - first + 1;
     group_id := t_group r |}.

Definition base_columns (rows : list TableRow) : list BaseRow :=
  imap (λ i '(r, d), base_row rows i r d) (zip rows (diff_to_next rows)).

(** [max_time]: the largest time a window starting at the row may reach,
    exclusive. *)
Definition max_time (cfg : Lengths) (b : BaseRow) : Z :=
  Z.min (time b + max_encoder_length cfg + max_prediction_length cfg)
        (count b + time_first b).

(** [df_index["count"].max()] *)
Definition count_max (df : list BaseRow) : Z :=
  foldr Z.max 0 (count <$> df).

(** One round of the loop of lines 271-277, on the frame paired with its
    current [index_end] column. *)
Definition walk_step (cfg : Lengths) (df : list BaseRow) (ends : list (BaseRow * Z))
    : result (list (BaseRow * Z)) :=
  mapM (λ '(b, e),
          at_end ← iloc df e;
          let new_end_time := time at_end + time_diff_to_next at_end in
          mret (b, if bool_decide (new_end_time + 1 > max_time cfg b) then e else e + 1))
       ends.

Fixpoint walk_loop (cfg : Lengths) (df : list BaseRow) (n : nat) (ends : list (BaseRow * Z))
    : result (list (BaseRow * Z)) :=
  match n with
  | O => Ok ends
  | S n' => ends' ← walk_step cfg df ends; walk_loop cfg df n' ends'
  end.

(** The iterative branch (lines 270-277). *)
Definition index_end_walk (cfg : Lengths) (df : list BaseRow) : result (list (BaseRow * Z)) :=
  walk_loop cfg df (Z.to_nat (count_max df)) ((λ b, (b, index_start b)) <$> df).

(** The arithmetic branch (line 280). *)
Definition index_end_direct (cfg : Lengths) (df : list BaseRow) : list (BaseRow * Z) :=
  (λ b, (b, index_start b + (max_time cfg b - time b - 1))) <$> df.

(** [(df_index["time_diff_to_next"] != 1).any()] *)
Definition any_gap (df : list BaseRow) : bool :=
  existsb (λ b, bool_decide (time_diff_to_next b ≠ 1)) df.

(** A row of the finished [df_index]. *)
Record IndexRow := {
  base : BaseRow;
  index_end : Z;
  sequence_length : Z;
}.

(** Line 283. *)
Definition add_sequence_length (df : list BaseRow) (ends : list (BaseRow * Z))
    : result (list IndexRow) :=
  mapM (λ '(b, e),
          at_end ← iloc df e;
          mret {| base := b; index_end := e; sequence_length := time at_end - time b + 1 |})
       ends.

(** [df_index] as it stands before the filter of lines 285-300. *)
Definition window_index (cfg : Lengths) (rows : list TableRow) : result (list IndexRow) :=
  let df := base_columns rows in
  ends ← (if any_gap df then index_end_walk cfg df else Ok (index_end_direct cfg df));
  add_sequence_length df ends.

(** The same frame with the iterative branch taken whatever the table. *)
Definition window_index_by_walk (cfg : Lengths) (rows : list TableRow) : result (list IndexRow) :=
  let df := base_columns rows in
  ends ← index_end_walk cfg df;
  add_sequence_length df ends.

(** The same frame with the arithmetic branch taken whatever the table. *)
Definition window_index_direct (cfg : Lengths) (rows : list TableRow) : result (list IndexRow) :=
  let df := base_columns rows in
  add_sequence_length df (index_end_direct cfg df).

(** The row filter of predict mode (lines 287-290). *)
Definition predict_eligible (cfg : Lengths) (x : IndexRow) : Prop :=
  time_last (base x) - time (base x) + 1 ≤ max_prediction_length cfg + max_encoder_length cfg
  ∧ min_prediction_length cfg + min_encoder_length cfg ≤ sequence_length x.

#[global] Instance predict_eligible_dec cfg x : Decision (predict_eligible cfg x).
Proof. unfold predict_eligible. apply _. Defined.

(** The row filter of training mode (lines 294-300). *)
Definition train_eligible (cfg : Lengths) (x : IndexRow) : Prop :=
  min_prediction_length cfg + min_encoder_length cfg ≤ sequence_length x
  ∧ min_prediction_idx cfg - 1 + min_prediction_length cfg ≤ sequence_length x + time (base x).

#[global] Instance train_eligible_dec cfg x : Decision (train_eligible cfg x).
Proof. unfold train_eligible. apply _. Defined.

(** [Series.idxmax()]: the label of the first row that holds the maximum. *)
Fixpoint first_max (best : IndexRow) (rest : list IndexRow) : IndexRow :=
  match rest with
  | [] => best
  | x :: rest' =>
      first_max (if bool_decide (sequence_length best < sequence_length x) then x else best) rest'
  end.

Definition idxmax (rows : list IndexRow) : option Z :=
  match rows with
  | [] => None
  | x :: rest => Some (b_label (base (first_max x rest)))
  end.

(** [df_index.groupby("group_id").sequence_length.idxmax()]: one label for
    every group that has a row, in the order of the group numbers. *)
Definition groupby_idxmax (df : list IndexRow) : list Z :=
  omap (λ g, idxmax (filter (λ x, group_id (base x) = g) df))
       (merge_sort Z.le (remove_dups ((λ x, group_id (base x)) <$> df))).

(** [df_index.loc[labels]]: for every label in turn the rows that carry
    it, [KeyError] when there is none. *)
Definition loc (df : list IndexRow) (labels : list Z) : result (list IndexRow) :=
  mjoin <$> mapM (λ l, match filter (λ x, b_label (base x) = l) df with
                        | [] => Raise (KeyError "label")
                        | found => Ok found
                        end) labels.

Definition construct_index (cfg : Lengths) (rows : list TableRow) (predict_mode : bool)
    : result (list IndexRow) :=
  df_index ← window_index cfg rows;
  if predict_mode then
    let df_index := filter (predict_eligible cfg) df_index in
    loc df_index (groupby_idxmax df_index)
  else
    Ok (filter (train_eligible cfg) df_index).

(** ** Data frames *)

(** A pandas [DataFrame]: the row labels of its index and its named
    columns. *)
Record DataFrame := {
  df_index : list Z;
  df_columns : gmap string column;
}.

(** [data[name]] *)
Definition get_column (data : DataFrame) (name : string) : result column :=
  or_raise (KeyError name) (df_columns data !! name).

(** [data[name] = values] *)
Definition set_column (data : DataFrame) (name : string) (values : column) : DataFrame :=
  {| df_index := df_index data; df_columns := <[name := values]> (df_columns data) |}.

(** The integer values of a column that holds time indices. The source
    documents [time_idx] as an integer column; another dtype is a
    [TypeError] of the model. *)
Definition int_values (y : column) : result (list Z) :=
  match y with
  | IntCol l => Ok l
  | _ => Raise TypeError
  end.

(** [to_numpy(np.long)] and [to_numpy(dtype=np.float32)] of one column *)
Definition to_long (y : column) : result (list Z) :=
  match y with
  | StrCol _ => Raise (ValueError "invalid literal for int()")
  | IntCol l => Ok l
  | RealCol l => Ok (R_to_Z <$> l)
  end.

Definition to_float (y : column) : result (list R) :=
  match y with
  | StrCol _ => Raise (ValueError "could not convert string to float")
  | IntCol l => Ok (R_of_Z <$> l)
  | RealCol l => Ok l
  end.

(** The order of values that [sort_values] and [groupby] use, extended to
    key tuples lexicographically. *)
Definition label_le (a b : label) : Prop :=
  match a, b with
  | LStr s1, LStr s2 => string_le s1 s2
  | LInt z1, LInt z2 => z1 ≤ z2
  | LReal r1, LReal r2 => R_le r1 r2
  | LNaN, _ => False
  | _, LNaN => True
  | LStr _, _ => True
  | LInt _, LStr _ => False
  | LInt _, LReal _ => True
  | LReal _, _ => False
  end.

#[global] Instance label_le_dec : RelDecision label_le.
Proof. intros [] []; cbn; apply _. Defined.

Fixpoint key_le (k1 k2 : list label) : Prop :=
  match k1, k2 with
  | [], _ => True
  | _ :: _, [] => False
  | a :: k1', b :: k2' => if decide (a = b) then key_le k1' k2' else label_le a b
  end.

#[global] Instance key_le_dec : RelDecision key_le.
Proof.
  intros k1. induction k1 as [|a k1 IH]; intros [|b k2]; cbn; try apply _.
  destruct (decide (a = b)); [apply IH|apply _].
Defined.

(** The rows of a list of columns: [rows_of n cols !! i] holds the [i]-th
    value of every column. *)
Definition rows_of {A} (n : nat) (cols : list (list A)) : list (list A) :=
  (λ i, omap (λ col, col !! i) cols) <$> seq 0 n.

(** The key tuples of the rows for a list of key columns. *)
Definition row_keys (data : DataFrame) (names : list string) : result (list (list label)) :=
  cols ← mapM (get_column data) names;
  mret (rows_of (length (df_index data)) (labels_of <$> cols)).

(** Rows [perm] of a column, in that order. *)
Definition take_rows {A} (perm : list nat) (l : list A) : list A :=
  omap (λ i, l !! i) perm.

Definition take_rows_column (perm : list nat) (y : column) : column :=
  match y with
  | StrCol l => StrCol (take_rows perm l)
  | IntCol l => IntCol (take_rows perm l)
  | RealCol l => RealCol (take_rows perm l)
  end.

Definition keyed_le (a b : nat * list label) : Prop := key_le a.2 b.2.
#[global] Instance keyed_le_dec : RelDecision keyed_le.
Proof. intros a b. unfold keyed_le. apply _. Defined.

(** [data.sort_values(names)]: a stable sort of the rows by their keys. *)
Definition sort_values (data : DataFrame) (names : list string) : result DataFrame :=
  keys ← row_keys data names;
  let perm :=
    (merge_sort keyed_le (zip (seq 0 (length keys)) keys)).*1 in
  mret {| df_index := take_rows perm (df_index data);
          df_columns := take_rows_column perm <$> df_columns data |}.

(** [data.groupby(names).ngroup()]: the rank of the key of each row among
    the sorted distinct keys. *)
Definition ngroup (data : DataFrame) (names : list string) : result (list Z) :=
  keys ← row_keys data names;
  let groups := np_unique key_le keys in
  mret ((λ k, Z.of_nat (default 0%nat (index_of k groups))) <$> keys).

(** What [construct_index] reads of the table. *)
Definition table_rows (data : DataFrame) (group_ids : list string) : result (list TableRow) :=
  groups ← ngroup data group_ids;
  time_column ← get_column data "__time_idx__";
  times ← int_values time_column;
  mret (zip_with (λ l '(g, t), {| t_label := l; t_group := g; t_time := t |})
                 (df_index data) (zip groups times)).

(** ** Shared Python objects *)

(** Scalers of scikit-learn with their fitted parameters. *)
Inductive Scaler :=
  | MinMaxScaler (params : R * R)
  | StandardScaler (params : R * R).

Definition scaler_transform (s : Scaler) (x : R) : R :=
  match s with
  | MinMaxScaler p => transform_minmax p x
  | StandardScaler p => transform_standard p x
  end.

(** [scaler.fit(data[[name]])] needs one row at least. *)
Definition fit_scaler (mk : R * R → Scaler) (fit_params : list R → R * R) (y : column)
    : result Scaler :=
  values ← to_float y;
  match values with
  | [] => Raise (ValueError "Found array with 0 sample(s)")
  | _ => Ok (mk (fit_params values))
  end.

(** The objects that a dataset holds by reference and that its constructor
    updates in place: the dictionary [categoricals_encoders], the
    dictionary [scalers], and the list [time_varying_known_reals].  An
    entry of a dictionary is a fitted transformer or [None]. *)
Record Heap := {
  encoder_dicts : gmap positive (gmap string (option NaNLabelEncoder));
  scaler_dicts : gmap positive (gmap string (option Scaler));
  string_lists : gmap positive (list string);
}.

(** Code that runs on the heap and may raise. *)
Definition Py (A : Type) : Type := Heap → Heap * result A.

#[global] Instance Py_ret : MRet Py := λ A a h, (h, Ok a).
#[global] Instance Py_bind : MBind Py := λ A B f m h,
  match m h with
  | (h', Ok a) => f a h'
  | (h', Raise e) => (h', Raise e)
  end.

Definition lift {A} (r : result A) : Py A := λ h, (h, r).

Definition read_encoders (a : positive) : Py (gmap string (option NaNLabelEncoder)) :=
  λ h, (h, or_raise TypeError (encoder_dicts h !! a)).
Definition read_scalers (a : positive) : Py (gmap string (option Scaler)) :=
  λ h, (h, or_raise TypeError (scaler_dicts h !! a)).
Definition read_list (a : positive) : Py (list string) :=
  λ h, (h, or_raise TypeError (string_lists h !! a)).

(** [d[name] = value] on the dictionary object at [a] *)
Definition store_encoder (a : positive) (name : string) (v : option NaNLabelEncoder) : Py unit :=
  λ h, match encoder_dicts h !! a with
       | Some d => ({| encoder_dicts := <[a := <[name := v]> d]> (encoder_dicts h);
                       scaler_dicts := scaler_dicts h;
                       string_lists := string_lists h |}, Ok tt)
       | None => (h, Raise TypeError)
       end.
Definition store_scaler (a : positive) (name : string) (v : option Scaler) : Py unit :=
  λ h, match scaler_dicts h !! a with
       | Some d => ({| encoder_dicts := encoder_dicts h;
                       scaler_dicts := <[a := <[name := v]> d]> (scaler_dicts h);
                       string_lists := string_lists h |}, Ok tt)
       | None => (h, Raise TypeError)
       end.
(** [l.append(x)] on the list object at [a] *)
Definition list_append (a : positive) (x : string) : Py unit :=
  λ h, match string_lists h !! a with
       | Some l => ({| encoder_dicts := encoder_dicts h;
                       scaler_dicts := scaler_dicts h;
                       string_lists := <[a := l ++ [x]]> (string_lists h) |}, Ok tt)
       | None => (h, Raise TypeError)
       end.

(** ** TimeSeriesDataSet.__init__ (data.py, lines 65-206) *)

(** The keyword arguments of the constructor, [data] apart.  The three
    arguments that the constructor updates in place are addresses of
    objects on the heap. *)
Record Kwargs := {
  time_idx : string;
  target : string;
  group_ids : list string;
  weight : option string;
  kw_max_encoder_length : Z;
  kw_min_encoder_length : Z;
  kw_min_prediction_idx : option Z;
  kw_min_prediction_length : Z;
  kw_max_prediction_length : Z;
  static_categoricals : list string;
  static_reals : list string;
  time_varying_known_categoricals : list string;
  time_varying_known_reals : positive;
  time_varying_unknown_categoricals : list string;
  time_varying_unknown_reals : list string;
  dropout_categoricals : list string;
  add_relative_time_idx : bool;
  constant_fill_strategy : list (string * label);
  categoricals_encoders : positive;
  scalers : positive;
  randomize_length : option (R * R);
  predict_mode : bool;
}.

(** A constructed dataset: the attributes that mirror the arguments,
    [min_prediction_idx] as resolved at line 146, and what the constructor
    computes.  [data_cont] and [data_cat] are the two tensors of
    [self.data]. *)
Record TimeSeriesDataSet := {
  attrs : Kwargs;
  ds_min_prediction_idx : Z;
  encoded_constant_fill_strategy : list (string * label);
  data_index : list IndexRow;
  data_cont : list (list R);
  data_cat : list (list Z);
}.

Definition lengths_of (kw : Kwargs) (min_prediction_idx_attr : Z) : Lengths :=
  {| max_encoder_length := kw_max_encoder_length kw;
     min_encoder_length := kw_min_encoder_length kw;
     min_prediction_idx := min_prediction_idx_attr;
     min_prediction_length := kw_min_prediction_length kw;
     max_prediction_length := kw_max_prediction_length kw |}.

Definition ds_lengths (ds : TimeSeriesDataSet) : Lengths :=
  lengths_of (attrs ds) (ds_min_prediction_idx ds).

(** The properties [categoricals] and [reals] (lines 219-225); the second
    reads the list object. *)
Definition categoricals (kw : Kwargs) : list string :=
  static_categoricals kw ++ time_varying_known_categoricals kw
  ++ time_varying_unknown_categoricals kw.

Definition reals (kw : Kwargs) : Py (list string) :=
  known ← read_list (time_varying_known_reals kw);
  mret (static_reals kw ++ known ++ time_varying_unknown_reals kw).

(** [data[self.time_idx].min()]; pandas answers NaN on an empty column,
    which the integer model does not hold: the model raises there. *)
Definition column_min (y : column) : result Z :=
  values ← int_values y;
  match values with
  | [] => Raise (ValueError "min() of an empty column")
  | t :: rest => Ok (foldr Z.min t rest)
  end.

(** Lines 161-167, for one name. *)
Definition encode_categorical (kw : Kwargs) (data : DataFrame) (name : string)
    : Py DataFrame :=
  encoders ← read_encoders (categoricals_encoders kw);
  _ ← (if bool_decide (name ∉ dom encoders) then
         y ← lift (get_column data name);
         store_encoder (categoricals_encoders kw) name
           (Some (fit (bool_decide (name ∈ dropout_categoricals kw)) y))
       else mret tt);
  encoders ← read_encoders (categoricals_encoders kw);
  entry ← lift (or_raise (KeyError name) (encoders !! name));
  match entry with
  | Some encoder =>
      y ← lift (get_column data name);
      codes ← lift (transform encoder y);
      mret (set_column data name (IntCol codes))
  | None => mret data
  end.

(** Lines 183-190, for one name. *)
Definition scale_real (kw : Kwargs) (data : DataFrame) (name : string) : Py DataFrame :=
  fitted ← read_scalers (scalers kw);
  _ ← (if bool_decide (name ∉ dom fitted) then
         y ← lift (get_column data name);
         scaler ← lift (if bool_decide (name = time_idx kw)
                        then fit_scaler MinMaxScaler fit_minmax y
                        else fit_scaler StandardScaler fit_standard y);
         store_scaler (scalers kw) name (Some scaler)
       else mret tt);
  fitted ← read_scalers (scalers kw);
  entry ← lift (or_raise (KeyError name) (fitted !! name));
  match entry with
  | Some scaler =>
      y ← lift (get_column data name);
      values ← lift (to_float y);
      mret (set_column data name (RealCol (scaler_transform scaler <$> values)))
  | None => mret data
  end.

(** A loop that threads the frame through the names. *)
Fixpoint for_each_name (body : DataFrame → string → Py DataFrame) (names : list string)
    (data : DataFrame) : Py DataFrame :=
  match names with
  | [] => mret data
  | name :: names' => data' ← body data name; for_each_name body names' data'
  end.

(** A constant of [constant_fill_strategy] as a one-element column. *)
Definition constant_column (v : label) : result column :=
  match v with
  | LStr s => Ok (StrCol [s])
  | LInt z => Ok (IntCol [z])
  | LReal r => Ok (RealCol [r])
  | LNaN => Raise (ValueError "Input contains NaN")
  end.

(** Lines 194-200, for one item. *)
Definition encode_constant (kw : Kwargs) (item : string * label) : Py (string * label) :=
  let '(name, value) := item in
  fitted ← read_scalers (scalers kw);
  encoders ← read_encoders (categoricals_encoders kw);
  match fitted !! name, encoders !! name with
  | Some entry, _ =>
      scaler ← lift (or_raise AttributeError entry);
      y ← lift (constant_column value);
      values ← lift (to_float y);
      v ← lift (iloc (scaler_transform scaler <$> values) 0);
      mret (name, LReal v)
  | None, Some entry =>
      encoder ← lift (or_raise AttributeError entry);
      y ← lift (constant_column value);
      codes ← lift (transform encoder y);
      c ← lift (iloc codes 0);
      mret (name, LInt c)
  | None, None => mret (name, value)
  end.

Fixpoint encode_constants (kw : Kwargs) (items : list (string * label))
    : Py (list (string * label)) :=
  match items with
  | [] => mret []
  | item :: items' =>
      e ← encode_constant kw item;
      es ← encode_constants kw items';
      mret (e :: es)
  end.

(** [_data_to_tensor] (lines 208-217) *)
Definition data_to_tensor (kw : Kwargs) (data : DataFrame)
    : Py (list (list R) * list (list Z)) :=
  let n := length (df_index data) in
  cat_columns ← lift (mapM (λ name, get_column data name ≫= to_long)
                           (categoricals kw ++ ["__time_idx__"]));
  real_names ← reals kw;
  let cont_cols := real_names ++ ["__target__"]
                   ++ (if weight kw is Some _ then ["__weight__"] else []) in
  cont_columns ← lift (mapM (λ name, get_column data name ≫= to_float) cont_cols);
  mret (rows_of n cont_columns, rows_of n cat_columns).

Definition init (data : DataFrame) (kw : Kwargs) : Py TimeSeriesDataSet :=
  _ ← lift (py_assert (bool_decide (0 < kw_min_prediction_length kw))
                      "prediction length must be larger than 0");
  (* line 146: [min_prediction_idx or data[self.time_idx].min()] *)
  min_idx ← lift (match kw_min_prediction_idx kw with
                  | Some z => if bool_decide (z = 0)
                              then get_column data (time_idx kw) ≫= column_min
                              else Ok z
                  | None => get_column data (time_idx kw) ≫= column_min
                  end);
  known ← read_list (time_varying_known_reals kw);
  _ ← lift (py_assert (bool_decide (target kw ∉ known))
                      "target should be an unknown continuous variable in the future");
  _ ← lift (py_assert (bool_decide (NoDup (df_index data))) "data index has to be unique");
  data ← lift (sort_values data (group_ids kw ++ [time_idx kw]));
  (* encode categoricals *)
  data ← for_each_name (encode_categorical kw) (categoricals kw) data;
  (* scale continuous variables *)
  time_column ← lift (get_column data (time_idx kw));
  let data := set_column data "__time_idx__" time_column in
  target_column ← lift (get_column data (target kw));
  let data := set_column data "__target__" target_column in
  data ← lift (match weight kw with
               | Some w => weight_column ← get_column data w;
                           mret (set_column data "__weight__" weight_column)
               | None => Ok data
               end);
  (* add time index relative to prediction position *)
  data ← (if add_relative_time_idx kw then
            known ← read_list (time_varying_known_reals kw);
            _ ← (if bool_decide ("relative_time_idx" ∉ known)
                 then list_append (time_varying_known_reals kw) "relative_time_idx"
                 else mret tt);
            mret (set_column data "relative_time_idx"
                    (RealCol (replicate (length (df_index data)) (R_of_Z 0))))
          else mret data);
  (* rescale continuous variables *)
  real_names ← reals kw;
  data ← for_each_name (scale_real kw) real_names data;
  (* encode constant values *)
  encoded ← encode_constants kw (constant_fill_strategy kw);
  (* create index *)
  rows ← lift (table_rows data (group_ids kw));
  index ← lift (construct_index (lengths_of kw min_idx) rows (predict_mode kw));
  (* convert to torch tensor *)
  tensors ← data_to_tensor kw data;
  mret {| attrs := kw;
          ds_min_prediction_idx := min_idx;
          encoded_constant_fill_strategy := encoded;
          data_index := index;
          data_cont := tensors.1;
          data_cat := tensors.2 |}.

(** ** Calls of the constructor and [from_dataset] (lines 227-247) *)

(** Keyword arguments that a caller passes: [None] where the caller
    leaves the argument out. *)
Record Given := {
  given_time_idx : option string;
  given_target : option string;
  given_group_ids : option (list string);
  given_weight : option (option string);
  given_max_encoder_length : option Z;
  given_min_encoder_length : option Z;
  given_min_prediction_idx : option (option Z);
  given_min_prediction_length : option Z;
  given_max_prediction_length : option Z;
  given_static_categoricals : option (list string);
  given_static_reals : option (list string);
  given_time_varying_known_categoricals : option (list string);
  given_time_varying_known_reals : option positive;
  given_time_varying_unknown_categoricals : option (list string);
  given_time_varying_unknown_reals : option (list string);
  given_dropout_categoricals : option (list string);
  given_add_relative_time_idx : option bool;
  given_constant_fill_strategy : option (list (string * label));
  given_categoricals_encoders : option positive;
  given_scalers : option positive;
  given_randomize_length : option (option (R * R));
  given_predict_mode : option bool;
}.

(** [kwargs.update(given)] *)
Definition update (kw : Kwargs) (g : Given) : Kwargs :=
  {| time_idx := default (time_idx kw) (given_time_idx g);
     target := default (target kw) (given_target g);
     group_ids := default (group_ids kw) (given_group_ids g);
     weight := default (weight kw) (given_weight g);
     kw_max_encoder_length := default (kw_max_encoder_length kw) (given_max_encoder_length g);
     kw_min_encoder_length := default (kw_min_encoder_length kw) (given_min_encoder_length g);
     kw_min_prediction_idx := default (kw_min_prediction_idx kw) (given_min_prediction_idx g);
     kw_min_prediction_length :=
       default (kw_min_prediction_length kw) (given_min_prediction_length g);
     kw_max_prediction_length :=
       default (kw_max_prediction_length kw) (given_max_prediction_length g);
     static_categoricals := default (static_categoricals kw) (given_static_categoricals g);
     static_reals := default (static_reals kw) (given_static_reals g);
     time_varying_known_categoricals :=
       default (time_varying_known_categoricals kw) (given_time_varying_known_categoricals g);
     time_varying_known_reals :=
       default (time_varying_known_reals kw) (given_time_varying_known_reals g);
     time_varying_unknown_categoricals :=
       default (time_varying_unknown_categoricals kw)
               (given_time_varying_unknown_categoricals g);
     time_varying_unknown_reals :=
       default (time_varying_unknown_reals kw) (given_time_varying_unknown_reals g);
     dropout_categoricals := default (dropout_categoricals kw) (given_dropout_categoricals g);
     add_relative_time_idx :=
       default (add_relative_time_idx kw) (given_add_relative_time_idx g);
     constant_fill_strategy :=
       default (constant_fill_strategy kw) (given_constant_fill_strategy g);
     categoricals_encoders :=
       default (categoricals_encoders kw) (given_categoricals_encoders g);
     scalers := default (scalers kw) (given_scalers g);
     randomize_length := default (randomize_length kw) (given_randomize_length g);
     predict_mode := default (predict_mode kw) (given_predict_mode g) |}.

Definition nothing_given : Given :=
  {| given_time_idx := None; given_target := None; given_group_ids := None;
     given_weight := None; given_max_encoder_length := None;
     given_min_encoder_length := None; given_min_prediction_idx := None;
     given_min_prediction_length := None; given_max_prediction_length := None;
     given_static_categoricals := None; given_static_reals := None;
     given_time_varying_known_categoricals := None;
     given_time_varying_known_reals := None;
     given_time_varying_unknown_categoricals := None;
     given_time_varying_unknown_reals := None; given_dropout_categoricals := None;
     given_add_relative_time_idx := None; given_constant_fill_strategy := None;
     given_categoricals_encoders := None; given_scalers := None;
     given_randomize_length := None; given_predict_mode := None |}.

(** The objects that the [def] statement of line 65 creates once, when the
    module is loaded, for the defaults [time_varying_known_reals=[]],
    [categoricals_encoders={}] and [scalers={}]. *)
Definition default_time_varying_known_reals : positive := 1%positive.
Definition default_categoricals_encoders : positive := 1%positive.
Definition default_scalers : positive := 1%positive.

Definition heap_at_import : Heap :=
  {| encoder_dicts := {[ default_categoricals_encoders := ∅ ]};
     scaler_dicts := {[ default_scalers := ∅ ]};
     string_lists := {[ default_time_varying_known_reals := [] ]} |}.

(** The defaults of the signature (lines 65-90). *)
Definition signature_defaults (time_idx_arg target_arg : string) (group_ids_arg : list string)
    : Kwargs :=
  {| time_idx := time_idx_arg;
     target := target_arg;
     group_ids := group_ids_arg;
     weight := None;
     kw_max_encoder_length := 30;
     kw_min_encoder_length := 0;
     kw_min_prediction_idx := None;
     kw_min_prediction_length := 1;
     kw_max_prediction_length := 1;
     static_categoricals := [];
     static_reals := [];
     time_varying_known_categoricals := [];
     time_varying_known_reals := default_time_varying_known_reals;
     time_varying_unknown_categoricals := [];
     time_varying_unknown_reals := [];
     dropout_categoricals := [];
     add_relative_time_idx := true;
     constant_fill_strategy := [];
     categoricals_encoders := default_categoricals_encoders;
     scalers := default_scalers;
     randomize_length := Some R_default_concentrations;
     predict_mode := false |}.

(** [TimeSeriesDataSet(data, time_idx, target, group_ids, **given)] *)
Definition new_TimeSeriesDataSet (data : DataFrame) (time_idx_arg target_arg : string)
    (group_ids_arg : list string) (given : Given) : Py TimeSeriesDataSet :=
  init data (update (signature_defaults time_idx_arg target_arg group_ids_arg) given).

(** [from_dataset] up to the call of the constructor: [kwargs] holds
    [getattr(dataset, name)] for every parameter of the signature, with the
    assignments of lines 236-243. *)
Definition derived_kwargs (dataset : TimeSeriesDataSet) (stop_randomization predict : bool)
    : Kwargs :=
  let a := attrs dataset in
  {| time_idx := time_idx a;
     target := target a;
     group_ids := group_ids a;
     weight := weight a;
     kw_max_encoder_length := kw_max_encoder_length a;
     kw_min_encoder_length := kw_min_encoder_length a;
     kw_min_prediction_idx := Some (ds_min_prediction_idx dataset);
     kw_min_prediction_length :=
       if predict then kw_max_prediction_length a else kw_min_prediction_length a;
     kw_max_prediction_length := kw_max_prediction_length a;
     static_categoricals := static_categoricals a;
     static_reals := static_reals a;
     time_varying_known_categoricals := time_varying_known_categoricals a;
     time_varying_known_reals := time_varying_known_reals a;
     time_varying_unknown_categoricals := time_varying_unknown_categoricals a;
     time_varying_unknown_reals := time_varying_unknown_reals a;
     dropout_categoricals := dropout_categoricals a;
     add_relative_time_idx := add_relative_time_idx a;
     constant_fill_strategy := constant_fill_strategy a;
     categoricals_encoders := categoricals_encoders a;
     scalers := scalers a;
     randomize_length := if stop_randomization then None else randomize_length a;
     predict_mode := if predict then true else predict_mode a |}.

Definition from_dataset (dataset : TimeSeriesDataSet) (data : DataFrame)
    (stop_randomization predict : bool) (update_kwargs : Given) : Py TimeSeriesDataSet :=
  _ ← lift (if predict
            then py_assert stop_randomization
                   "if predicting, no randomization should be possible"
            else Ok tt);
  let kwargs := derived_kwargs dataset stop_randomization predict in
  let kwargs := update kwargs update_kwargs in
  init data kwargs.

(** ** __getitem__ (lines 307-385) *)

(** The second component of an example is the decoder part of [target]:
    a vector when [target] is a column of [data_cont], a matrix when it
    is a block of columns. *)
Inductive Target :=
  | Vector (values : list R)
  | Matrix (rows : list (list R)).

Record Example := {
  x_cat : list (list Z);
  x_cont : list (list R);
  encoder_length : Z;
  encoder_target : Target;
}.

Definition target_slice_to (hi : Z) (t : Target) : Target :=
  match t with
  | Vector v => Vector (py_slice_to hi v)
  | Matrix m => Matrix (py_slice_to hi m)
  end.

Definition target_slice_from (lo : Z) (t : Target) : Target :=
  match t with
  | Vector v => Vector (py_slice_from lo v)
  | Matrix m => Matrix (py_slice_from lo m)
  end.

Definition target_length (t : Target) : nat :=
  match t with
  | Vector v => length v
  | Matrix m => length m
  end.

(** [m[:, j]] and [m[rows, j] = v] on a matrix given by its rows *)
Definition column_at {A} (j : Z) (m : list (list A)) : result (list A) :=
  mapM (λ row, iloc row j) m.

Definition set_cell {A} (j : nat) (v : A) (row : list A) : result (list A) :=
  if bool_decide (j < length row)%nat then Ok (<[j := v]> row) else Raise IndexError.

(** [torch.repeat_interleave(torch.arange(n), repetitions)] *)
Definition repeat_interleave (n : nat) (repetitions : list Z) : result (list nat) :=
  if bool_decide (length repetitions = n ∧ Forall (λ r, 0 ≤ r) repetitions) then
    Ok (mjoin (zip_with (λ i r, replicate (Z.to_nat r) i) (seq 0 n) repetitions))
  else Raise RuntimeError.

(** A value of [encoded_constant_fill_strategy] stored into the float
    tensor. *)
Definition fill_value (v : label) : result R :=
  match v with
  | LInt z => Ok (R_of_Z z)
  | LReal r => Ok r
  | LStr _ | LNaN => Raise TypeError
  end.

(** Lines 323-325: the constants replace the repeated rows; the mask has
    to be as long as the tensor. *)
Fixpoint make_replacements (real_names : list string) (repeated : list bool)
    (fills : list (string * label)) (cont : list (list R)) : result (list (list R)) :=
  match fills with
  | [] => Ok cont
  | (name, value) :: fills' =>
      col_idx ← list_index name real_names;
      v ← fill_value value;
      _ ← (if bool_decide (length repeated = length cont) then Ok tt else Raise IndexError);
      cont' ← mapM (λ '(is_rep, row), if is_rep : bool then set_cell (Z.to_nat col_idx) v row
                                      else Ok row)
                   (zip repeated cont);
      make_replacements real_names repeated fills' cont'
  end.

(** Lines 316-327: rows are repeated over the missing time steps. *)
Definition fill_missing (real_names : list string) (fills : list (string * label))
    (cont : list (list R)) (cat : list (list Z)) : result (list (list R) * list (list Z)) :=
  times ← column_at (-1) cat;
  let repetitions :=
    zip_with (λ next t, next - t) (py_slice_from 1 times) (py_slice_to (-1) times) ++ [1] in
  indices ← repeat_interleave (length cat) repetitions;
  let repetition_indices :=
    false :: zip_with (λ a b, bool_decide (a = b))
                      (py_slice_from 1 indices) (py_slice_to (-1) indices) in
  let cat := take_rows indices cat in
  let cont := take_rows indices cont in
  cont ← make_replacements real_names repetition_indices fills cont;
  mret (cont, cat).

(** Lines 308-327: the rows of the window, repeated over its gaps. *)
Definition read_window (ds : TimeSeriesDataSet) (real_names : list string) (idx : Z)
    : result (list (list R) * list (list Z)) :=
  index ← iloc (data_index ds) idx;
  let cont := py_slice (index_start (base index)) (index_end index + 1) (data_cont ds) in
  let cat := py_slice (index_start (base index)) (index_end index + 1) (data_cat ds) in
  if bool_decide (Z.of_nat (length cat) < sequence_length index)
  then fill_missing real_names (encoded_constant_fill_strategy ds) cont cat
  else Ok (cont, cat).

(** [data_cat[-1, -1]]: the time index of the last row. *)
Definition last_time_of (cat : list (list Z)) : result Z :=
  last_row ← iloc cat (-1);
  iloc last_row (-1).

(** Lines 329-336: [(encoder_length, decoder_length)]. *)
Definition window_lengths (cfg : Lengths) (cat : list (list Z)) : result (Z * Z) :=
  let seq_len := Z.of_nat (length cat) in
  _ ← py_assert (bool_decide (min_prediction_length cfg ≤ seq_len))
                "sequence_length >= self.min_prediction_length";
  last_time ← last_time_of cat;
  let decoder_length :=
    Z.min (Z.min (last_time - (min_prediction_idx cfg - 1)) (max_prediction_length cfg))
          seq_len in
  let encoder_length := seq_len - decoder_length in
  _ ← py_assert (bool_decide (min_prediction_length cfg ≤ decoder_length))
                "decoder_length >= self.min_prediction_length";
  Ok (encoder_length, decoder_length).

(** The local variables of [__getitem__] from line 337 on. *)
Record Window := {
  w_cont : list (list R);
  w_cat : list (list Z);
  w_encoder_length : Z;
  w_decoder_length : Z;
}.

(** Lines 339-360, taken when [randomize_length] is set; [draws] holds
    the two values sampled from the binomial distributions of lines 345
    and 349. *)
Definition randomize (kw : Kwargs) (cfg : Lengths) (draws : Z * Z) (w : Window)
    : result Window :=
  let new_encoder_length := draws.1 in
  let new_decoder_length := Z.max (min_prediction_length cfg) draws.2 in
  let w :=
    if bool_decide (new_encoder_length + new_decoder_length < Z.of_nat (length (w_cat w)))
    then {| w_cont := py_slice (w_encoder_length w - new_encoder_length)
                               (w_encoder_length w + new_decoder_length) (w_cont w);
            w_cat := py_slice (w_encoder_length w - new_encoder_length)
                              (w_encoder_length w + new_decoder_length) (w_cat w);
            w_encoder_length := new_encoder_length;
            w_decoder_length := new_decoder_length |}
    else w in
  (* switch some variables to nan if encode length is 0 *)
  if bool_decide (w_encoder_length w = 0 ∧ (0 < length (dropout_categoricals kw))%nat) then
    columns ← mapM (λ c, list_index c (categoricals kw)) (dropout_categoricals kw);
    cat ← mapM (λ row, foldr (λ j r, r ≫= set_cell (Z.to_nat j) 0) (Ok row) columns)
               (w_cat w);
    Ok {| w_cont := w_cont w; w_cat := cat;
          w_encoder_length := w_encoder_length w;
          w_decoder_length := w_decoder_length w |}
  else Ok w.

(** Lines 362-385.  With a weight, [target] and the new [data_cont] are
    views of the same block of memory, so that the assignment of line 373
    shows in both. *)
Definition split_example (kw : Kwargs) (cfg : Lengths) (real_names : list string)
    (w : Window) : result (Example * Target) :=
  _ ← py_assert (bool_decide (0 < w_decoder_length w)) "decoder_length > 0";
  _ ← py_assert (bool_decide (0 ≤ w_encoder_length w)) "encoder_length >= 0";
  last_time ← last_time_of (w_cat w);
  _ ← py_assert (bool_decide (w_decoder_length w ≤ last_time - min_prediction_idx cfg + 1))
                "data_cat[-1, -1] - self.min_prediction_idx + 1 >= decoder_length";
  target_column ← (if weight kw is None then Some <$> column_at (-1) (w_cont w)
                   else Ok None);
  let cont := if weight kw is None then py_slice_to (-1) <$> w_cont w
              else py_slice_to (-2) <$> w_cont w in
  cont ← (if add_relative_time_idx kw then
            j ← list_index "relative_time_idx" real_names;
            _ ← (if bool_decide (Z.of_nat (length cont)
                                 = w_encoder_length w + w_decoder_length w)
                 then Ok tt else Raise RuntimeError);
            mapM (λ '(i, row),
                    set_cell (Z.to_nat j)
                      (R_rel_time (- w_encoder_length w + Z.of_nat i) (max_encoder_length cfg))
                      row)
                 (zip (seq 0 (length cont)) cont)
          else Ok cont);
  let target := match target_column with
                | Some column => Vector column
                | None => Matrix cont
                end in
  Ok ({| x_cat := py_slice_to (-1) <$> w_cat w;
         x_cont := cont;
         encoder_length := w_encoder_length w;
         encoder_target := target_slice_to (w_encoder_length w) target |},
      target_slice_from (w_encoder_length w) target).

(** [__getitem__(idx)] *)
Definition getitem (ds : TimeSeriesDataSet) (idx : Z) (draws : Z * Z)
    : Py (Example * Target) :=
  let kw := attrs ds in
  let cfg := ds_lengths ds in
  real_names ← reals kw;
  lift (
    '(cont, cat) ← read_window ds real_names idx;
    '(encoder_length, decoder_length) ← window_lengths cfg cat;
    let w := {| w_cont := cont; w_cat := cat;
                w_encoder_length := encoder_length;
                w_decoder_length := decoder_length |} in
    w ← (if randomize_length kw is Some _ then randomize kw cfg draws w else Ok w);
    split_example kw cfg real_names w).

(** [__len__] (lines 304-305) *)
Definition len (ds : TimeSeriesDataSet) : nat := length (data_index ds).

(** ** _collate_fn (lines 387-419) *)

(** The trailing dimension of a tensor given by its rows, read off its
    first row. *)
Definition row_width {A} (m : list (list A)) : nat :=
  default 0%nat (length <$> head m).

(** [rnn.pad_sequence(sequences, batch_first=True)] on sequences of rows:
    every sequence is filled up with rows of zeros to the length of the
    longest one.  [width] is the trailing dimension that torch reads off
    the first tensor; a tensor with rows of another width does not fit
    into the result, and a list without tensor has no first tensor. *)
Definition pad_sequence {A} (width : nat) (zero : A) (sequences : list (list (list A)))
    : result (list (list (list A))) :=
  match sequences with
  | [] => Raise RuntimeError
  | _ :: _ =>
      if bool_decide (Forall (Forall (λ row : list A, length row = width)) sequences) then
        let max_len := foldr Nat.max 0%nat (length <$> sequences) in
        Ok ((λ s, s ++ replicate (max_len - length s) (replicate width zero)) <$> sequences)
      else Raise RuntimeError
  end.

(** The same on one-dimensional tensors. *)
Definition pad_vectors {A} (zero : A) (sequences : list (list A)) : result (list (list A)) :=
  match sequences with
  | [] => Raise RuntimeError
  | _ :: _ =>
      let max_len := foldr Nat.max 0%nat (length <$> sequences) in
      Ok ((λ s, s ++ replicate (max_len - length s) zero) <$> sequences)
  end.

(** Padded targets: vectors when [target] is a column, matrices when it
    is a block of columns. *)
Inductive PaddedTarget :=
  | PaddedVectors (values : list (list R))
  | PaddedMatrices (rows : list (list (list R))).

Definition as_vectors (targets : list Target) : option (list (list R)) :=
  mapM (λ t, match t with Vector v => Some v | Matrix _ => None end) targets.

Definition as_matrices (targets : list Target) : option (list (list (list R))) :=
  mapM (λ t, match t with Matrix m => Some m | Vector _ => None end) targets.

(** [rnn.pad_sequence] on targets; tensors of different dimensions do not
    fit into one result. *)
Definition pad_targets (width : nat) (targets : list Target) : result PaddedTarget :=
  match as_vectors targets, as_matrices targets with
  | Some vectors, _ => PaddedVectors <$> pad_vectors (R_of_Z 0) vectors
  | None, Some matrices => PaddedMatrices <$> pad_sequence width (R_of_Z 0) matrices
  | None, None => Raise RuntimeError
  end.

Record Batch := {
  encoder_cat : list (list (list Z));
  encoder_cont : list (list (list R));
  encoder_targets : PaddedTarget;
  encoder_lengths : list Z;
  decoder_cat : list (list (list Z));
  decoder_cont : list (list (list R));
  decoder_target : PaddedTarget;
  decoder_lengths : list Z;
}.

(** [_collate_fn(batches)].  The trailing dimensions are those of the
    feature tensors of the first example; a target that is a block of
    columns is the block [x_cont] itself (line 370) and has its width. *)
Definition collate_fn (batches : list (Example * Target)) : result (Batch * PaddedTarget) :=
  let lengths := (λ batch : Example * Target, encoder_length batch.1) <$> batches in
  let width_cont := default 0%nat ((λ batch, row_width (x_cont batch.1)) <$> head batches) in
  let width_cat := default 0%nat ((λ batch, row_width (x_cat batch.1)) <$> head batches) in
  padded_encoder_cont ←
    pad_sequence width_cont (R_of_Z 0)
      ((λ batch, py_slice_to (encoder_length batch.1) (x_cont batch.1)) <$> batches);
  padded_encoder_cat ←
    pad_sequence width_cat 0
      ((λ batch, py_slice_to (encoder_length batch.1) (x_cat batch.1)) <$> batches);
  padded_encoder_target ←
    pad_targets width_cont ((λ batch, encoder_target batch.1) <$> batches);
  padded_decoder_cont ←
    pad_sequence width_cont (R_of_Z 0)
      ((λ batch, py_slice_from (encoder_length batch.1) (x_cont batch.1)) <$> batches);
  padded_decoder_cat ←
    pad_sequence width_cat 0
      ((λ batch, py_slice_from (encoder_length batch.1) (x_cat batch.1)) <$> batches);
  padded_target ← pad_targets width_cont (snd <$> batches);
  Ok ({| encoder_cat := padded_encoder_cat;
         encoder_cont := padded_encoder_cont;
         encoder_targets := padded_encoder_target;
         encoder_lengths := lengths;
         decoder_cat := padded_decoder_cat;
         decoder_cont := padded_decoder_cont;
         decoder_target := padded_target;
         decoder_lengths := (λ batch, Z.of_nat (target_length batch.2)) <$> batches |},
      padded_target).

(** ** Vocabulary of the properties *)

(** A table as the constructor hands it to [construct_index]: sorted by
    group (line 156). *)
Definition sorted_by_group (rows : list TableRow) : Prop :=
  StronglySorted (λ r1 r2, t_group r1 ≤ t_group r2) rows.

(** No entry of [time_diff_to_next] differs from 1. *)
Definition no_gaps (rows : list TableRow) : Prop :=
  ∀ d, d ∈ diff_to_next rows → d = 1.

(** Times that go up by one. *)
Definition consecutive (l : list Z) : Prop :=
  ∀ i a b, l !! i = Some a → l !! S i = Some b → b = a + 1.

(** Within a group time goes up from each row to the next: no entry of
    [time_diff_to_next] is below 1. *)
Definition increasing_times (rows : list TableRow) : Prop :=
  ∀ d, d ∈ diff_to_next rows → 1 ≤ d.

(** [within cfg b b']: a window that starts at row [b] may hold row [b'],
    a row of the same group whose time is below [max_time]. *)
Definition within (cfg : Lengths) (b b' : BaseRow) : Prop :=
  group_id b' = group_id b ∧ time b' + 1 ≤ max_time cfg b.

#[global] Instance within_dec cfg b b' : Decision (within cfg b b').
Proof. unfold within. apply _. Defined.

(** The number of leading elements of a list that satisfy [P]. *)
Fixpoint run_length {A} (P : A → Prop) `{!∀ x, Decision (P x)} (l : list A) : nat :=
  match l with
  | [] => 0
  | x :: l' => if decide (P x) then S (run_length P l') else 0
  end.

(** How many of the rows that follow row [b] in the frame a window that
    starts at [b] may hold. *)
Definition reach (cfg : Lengths) (df : list BaseRow) (b : BaseRow) : nat :=
  run_length (within cfg b) (drop (S (Z.to_nat (index_start b))) df).

(** [index_end] of a row after [k] rounds of the loop of lines 271-277,
    on a table without gaps. *)
Definition walk_closed (cfg : Lengths) (k : nat) (b : BaseRow) : Z :=
  Z.min (index_start b + Z.of_nat k) (index_start b + (max_time cfg b - time b - 1)).

(** The row that predict mode keeps for a group. *)
Definition longest_of_group (df : list IndexRow) (g : Z) : option IndexRow :=
  match filter (λ x, group_id (base x) = g) df with
  | [] => None
  | x :: rest => Some (first_max x rest)
  end.

(** The time steps from each row of a window to the next and 1 for its
    last row: [repetitions] of line 317. *)
Fixpoint steps_to_next (times : list Z) : list Z :=
  match times with
  | [] => [1]
  | t :: rest =>
      match rest with
      | [] => [1]
      | t' :: _ => (t' - t) :: steps_to_next rest
      end
  end.

(** Times that go up along the rows of a window. *)
Definition ascending (times : list Z) : Prop :=
  ∀ i a b, times !! i = Some a → times !! S i = Some b → a < b.

(** The two assertions of [__getitem__] that come before the
    randomisation (lines 330 and 336). *)
Definition early_assertion (e : exn) : Prop :=
  e = AssertionError "sequence_length >= self.min_prediction_length"
  ∨ e = AssertionError "decoder_length >= self.min_prediction_length".

(** An exception that is no [AssertionError]. *)
Definition no_assertion (e : exn) : Prop := ∀ msg, e ≠ AssertionError msg.

(** The assertions of [__getitem__] on the lengths of the window. *)
Definition length_violation (e : exn) : Prop :=
  e = AssertionError "sequence_length >= self.min_prediction_length"
  ∨ e = AssertionError "decoder_length >= self.min_prediction_length"
  ∨ e = AssertionError "decoder_length > 0".

(** [raises_only P m]: every exception that [m] raises satisfies [P]. *)
Definition raises_only {A} (P : exn → Prop) (m : result A) : Prop :=
  ∀ e, m = Raise e → P e.

(** [h'] extends [h]: every dictionary of [h] is still there with each of
    its entries unchanged, and every list with its elements as a prefix. *)
Definition heap_extends (h h' : Heap) : Prop :=
  (∀ a d, encoder_dicts h !! a = Some d → ∃ d', encoder_dicts h' !! a = Some d' ∧ d ⊆ d')
  ∧ (∀ a d, scaler_dicts h !! a = Some d → ∃ d', scaler_dicts h' !! a = Some d' ∧ d ⊆ d')
  ∧ (∀ a l, string_lists h !! a = Some l →
       ∃ l', string_lists h' !! a = Some l' ∧ l `prefix_of` l').

Definition unchanged : relation Heap := λ h h', h' = h.

(** [keeps P m]: running [m] relates the heap before to the heap after. *)
Definition keeps {A} (P : relation Heap) (m : Py A) : Prop := ∀ h, P h (m h).1.

(** The heap holds an entry for every name that the constructor looks up. *)
Definition covered (kw : Kwargs) (h : Heap) : Prop :=
  ∃ encoders fitted known,
    encoder_dicts h !! categoricals_encoders kw = Some encoders
    ∧ scaler_dicts h !! scalers kw = Some fitted
    ∧ string_lists h !! time_varying_known_reals kw = Some known
    ∧ (∀ name, name ∈ categoricals kw → name ∈ dom encoders)
    ∧ (∀ name, name ∈ static_reals kw ++ known ++ time_varying_unknown_reals kw →
         name ∈ dom fitted)
    ∧ (add_relative_time_idx kw = true → "relative_time_idx" ∈ known).

(** ** Example tables *)

(** One series of three steps, and one of two, with a categorical [c]. *)
Definition table_a : DataFrame :=
  {| df_index := [0; 1; 2];
     df_columns := list_to_map [("g", StrCol ["a"; "a"; "a"]); ("t", IntCol [0; 1; 2]);
                                ("y", IntCol [5; 6; 7]); ("c", StrCol ["x"; "y"; "z"])] |}.

Definition table_b : DataFrame :=
  {| df_index := [0; 1];
     df_columns := list_to_map [("g", StrCol ["a"; "a"]); ("t", IntCol [0; 1]);
                                ("y", IntCol [1; 2]); ("c", StrCol ["y"; "z"])] |}.

(** [time_varying_unknown_categoricals=["c"]] and nothing else. *)
Definition given_c : Given :=
  {| given_time_idx := None; given_target := None; given_group_ids := None;
     given_weight := None; given_max_encoder_length := None;
     given_min_encoder_length := None; given_min_prediction_idx := None;
     given_min_prediction_length := None; given_max_prediction_length := None;
     given_static_categoricals := None; given_static_reals := None;
     given_time_varying_known_categoricals := None;
     given_time_varying_known_reals := None;
     given_time_varying_unknown_categoricals := Some ["c"];
     given_time_varying_unknown_reals := None; given_dropout_categoricals := None;
     given_add_relative_time_idx := None; given_constant_fill_strategy := None;
     given_categoricals_encoders := None; given_scalers := None;
     given_randomize_length := None; given_predict_mode := None |}.

End Model.

(** ** Examples *)

(** A float model on the integers for the examples: a fitted standard
    scaler multiplies by ten, and the relative time index keeps its
    numerator. *)
Definition integer_floats : FloatModel :=
  {| R := Z;
     R_le := Z.le;
     R_of_Z := id;
     R_to_Z := id;
     R_rel_time := λ k _, k;
     R_default_concentrations := (0, 0);
     fit_minmax := λ _, (0, 1);
     fit_standard := λ l, (0, Z.of_nat (length l));
     transform_minmax := λ _ x, x;
     transform_standard := λ _ x, x * 10 |}.

Section Examples.
#[local] Existing Instance integer_floats.

Definition table_row (l g t : Z) : TableRow :=
  {| t_label := l; t_group := g; t_time := t |}.

Definition index_lengths : Lengths :=
  {| max_encoder_length := 2; min_encoder_length := 0; min_prediction_idx := 0;
     min_prediction_length := 1; max_prediction_length := 1 |}.

(** A configuration that the constructor accepts (it asserts
    [min_prediction_length > 0] only) and that leaves no room for a window. *)
Definition lengths_without_window : Lengths :=
  {| max_encoder_length := 0; min_encoder_length := 0; min_prediction_idx := 0;
     min_prediction_length := 1; max_prediction_length := 0 |}.

(** Two series without a gap, and two with gaps. *)
Definition rows_regular : list TableRow :=
  [table_row 10 0 0; table_row 11 0 1; table_row 12 0 2; table_row 13 0 3;
   table_row 14 1 5; table_row 15 1 6].

Definition rows_gappy : list TableRow :=
  [table_row 10 0 0; table_row 11 0 1; table_row 12 0 3; table_row 13 0 4;
   table_row 14 1 5; table_row 15 1 9].

Definition index_gappy : list IndexRow :=
  Eval vm_compute in
    match window_index index_lengths rows_gappy with Ok ix => ix | Raise _ => [] end.

(** A table of two series, [a] with a gap at time 2. *)
Definition table_gaps : DataFrame :=
  {| df_index := [0; 1; 2; 3; 4];
     df_columns := list_to_map [("g", StrCol ["b"; "a"; "a"; "b"; "a"]);
                                ("t", IntCol [1; 0; 1; 0; 3]);
                                ("y", RealCol [11; 20; 21; 10; 23]);
                                ("c", StrCol ["x"; "y"; "x"; "y"; "z"])] |}.

Definition given_plain : Given :=
  {| given_time_idx := None; given_target := None; given_group_ids := None;
     given_weight := None; given_max_encoder_length := Some 2;
     given_min_encoder_length := None; given_min_prediction_idx := None;
     given_min_prediction_length := None; given_max_prediction_length := Some 2;
     given_static_categoricals := None; given_static_reals := None;
     given_time_varying_known_categoricals := None;
     given_time_varying_known_reals := None;
     given_time_varying_unknown_categoricals := Some ["c"];
     given_time_varying_unknown_reals := Some ["y"]; given_dropout_categoricals := None;
     given_add_relative_time_idx := None; given_constant_fill_strategy := None;
     given_categoricals_encoders := None; given_scalers := None;
     given_randomize_length := Some None; given_predict_mode := None |}.

(** The same with [weight="y"], a dropout categorical, a fill constant
    and the default randomisation. *)
Definition given_weighted : Given :=
  {| given_time_idx := None; given_target := None; given_group_ids := None;
     given_weight := Some (Some "y"); given_max_encoder_length := Some 2;
     given_min_encoder_length := None; given_min_prediction_idx := None;
     given_min_prediction_length := None; given_max_prediction_length := Some 2;
     given_static_categoricals := None; given_static_reals := None;
     given_time_varying_known_categoricals := None;
     given_time_varying_known_reals := None;
     given_time_varying_unknown_categoricals := Some ["c"];
     given_time_varying_unknown_reals := Some ["y"];
     given_dropout_categoricals := Some ["c"];
     given_add_relative_time_idx := None;
     given_constant_fill_strategy := Some [("y", LReal 7)];
     given_categoricals_encoders := None; given_scalers := None;
     given_randomize_length := None; given_predict_mode := None |}.

Definition empty_dataset : TimeSeriesDataSet :=
  {| attrs := signature_defaults "" "" [];
     ds_min_prediction_idx := 0;
     encoded_constant_fill_strategy := [];
     data_index := [];
     data_cont := [];
     data_cat := [] |}.

Definition constructed (run : Heap * result TimeSeriesDataSet) : TimeSeriesDataSet :=
  match run.2 with Ok ds => ds | Raise _ => empty_dataset end.

Definition heap_plain : Heap :=
  Eval vm_compute in
    (new_TimeSeriesDataSet table_gaps "t" "y" ["g"] given_plain heap_at_import).1.
Definition dataset_plain : TimeSeriesDataSet :=
  Eval vm_compute in
    constructed (new_TimeSeriesDataSet table_gaps "t" "y" ["g"] given_plain heap_at_import).

Definition heap_weighted : Heap :=
  Eval vm_compute in
    (new_TimeSeriesDataSet table_gaps "t" "y" ["g"] given_weighted heap_at_import).1.
Definition dataset_weighted : TimeSeriesDataSet :=
  Eval vm_compute in
    constructed
      (new_TimeSeriesDataSet table_gaps "t" "y" ["g"] given_weighted heap_at_import).

(** The window of the first index entry of both datasets: rows 0 to 2 of
    series [a], the row of time 1 repeated over the gap (and, with the
    fill constant, its [y] replaced). *)
Definition window_cat_plain : list (list Z) := [[1; 0]; [0; 1]; [0; 1]; [2; 3]].
Definition window_cont_plain : list (list R) :=
  [[0; 200; 20]; [0; 210; 21]; [0; 210; 21]; [0; 230; 23]].
Definition window_cat_weighted : list (list Z) := [[2; 0]; [1; 1]; [1; 1]; [3; 3]].
Definition window_cont_weighted : list (list R) :=
  [[0; 200; 20; 20]; [0; 210; 21; 21]; [0; 70; 21; 21]; [0; 230; 23; 23]].

(** A table with a column that has the name of the copy of the target. *)
Definition table_reserved : DataFrame :=
  {| df_index := [0; 1];
     df_columns := list_to_map [("g", StrCol ["a"; "a"]); ("t", IntCol [0; 1]);
                                ("y", IntCol [1; 2]);
                                ("__target__", IntCol [100; 200])] |}.

Definition given_reserved : Given :=
  {| given_time_idx := None; given_target := None; given_group_ids := None;
     given_weight := None; given_max_encoder_length := None;
     given_min_encoder_length := None; given_min_prediction_idx := None;
     given_min_prediction_length := None; given_max_prediction_length := None;
     given_static_categoricals := None; given_static_reals := None;
     given_time_varying_known_categoricals := None;
     given_time_varying_known_reals := None;
     given_time_varying_unknown_categoricals := None;
     given_time_varying_unknown_reals := Some ["__target__"];
     given_dropout_categoricals := None;
     given_add_relative_time_idx := None; given_constant_fill_strategy := None;
     given_categoricals_encoders := None; given_scalers := None;
     given_randomize_length := None; given_predict_mode := None |}.

(** A heap with a dictionary of encoders, a dictionary of scalers and a
    list of the caller's own at address 2, and a call that passes them. *)
Definition heap_own : Heap :=
  {| encoder_dicts := {[ 1%positive := ∅; 2%positive := ∅ ]};
     scaler_dicts := {[ 1%positive := ∅; 2%positive := ∅ ]};
     string_lists := {[ 1%positive := []; 2%positive := [] ]} |}.

Definition given_own : Given :=
  {| given_time_idx := None; given_target := None; given_group_ids := None;
     given_weight := None; given_max_encoder_length := None;
     given_min_encoder_length := None; given_min_prediction_idx := None;
     given_min_prediction_length := None; given_max_prediction_length := None;
     given_static_categoricals := None; given_static_reals := None;
     given_time_varying_known_categoricals := None;
     given_time_varying_known_reals := Some 2%positive;
     given_time_varying_unknown_categoricals := Some ["c"];
     given_time_varying_unknown_reals := None; given_dropout_categoricals := None;
     given_add_relative_time_idx := None; given_constant_fill_strategy := None;
     given_categoricals_encoders := Some 2%positive; given_scalers := Some 2%positive;
     given_randomize_length := None; given_predict_mode := None |}.

(** [static_categoricals=["g"]] as the only update of [from_dataset]. *)
Definition given_static_g : Given :=
  {| given_time_idx := None; given_target := None; given_group_ids := None;
     given_weight := None; given_max_encoder_length := None;
     given_min_encoder_length := None; given_min_prediction_idx := None;
     given_min_prediction_length := None; given_max_prediction_length := None;
     given_static_categoricals := Some ["g"]; given_static_reals := None;
     given_time_varying_known_categoricals := None;
     given_time_varying_known_reals := None;
     given_time_varying_unknown_categoricals := None;
     given_time_varying_unknown_reals := None; given_dropout_categoricals := None;
     given_add_relative_time_idx := None; given_constant_fill_strategy := None;
     given_categoricals_encoders := None; given_scalers := None;
     given_randomize_length := None; given_predict_mode := None |}.

Definition heap_source : Heap :=
  Eval vm_compute in
    (new_TimeSeriesDataSet table_a "t" "y" ["g"] given_own heap_own).1.
Definition dataset_source : TimeSeriesDataSet :=
  Eval vm_compute in
    constructed (new_TimeSeriesDataSet table_a "t" "y" ["g"] given_own heap_own).

(** The dataset that [from_dataset] derives from [dataset_source] for
    prediction, with [static_categoricals=["g"]]. *)
Definition heap_derived : Heap :=
  Eval vm_compute in
    (from_dataset dataset_source table_a true true given_static_g heap_source).1.
Definition dataset_derived : TimeSeriesDataSet :=
  Eval vm_compute in
    constructed (from_dataset dataset_source table_a true true given_static_g heap_source).

(** The examples 0 and 2 of [dataset_plain], and example 0 of
    [dataset_weighted] with the draws 0 and 1. *)
Definition example_0 : Example * Target :=
  ({| x_cat := [[1]; [0]; [0]; [2]];
      x_cont := [[-2; 200]; [-1; 210]; [0; 210]; [1; 230]];
      encoder_length := 2;
      encoder_target := Vector [20; 21] |}, Vector [21; 23]).

Definition example_2 : Example * Target :=
  ({| x_cat := [[2]];
      x_cont := [[0; 230]];
      encoder_length := 0;
      encoder_target := Vector [] |}, Vector [23]).

Definition example_dropout : Example * Target :=
  ({| x_cat := [[0]];
      x_cont := [[0; 70]];
      encoder_length := 0;
      encoder_target := Matrix [] |}, Matrix [[0; 70]]).

(** A window of three rows with a gap at time 2, and the rows that fill
    it with the constant 7 for [y]. *)
Definition gap_cat : list (list Z) := [[1; 0]; [0; 1]; [2; 3]].
Definition gap_cont : list (list R) := [[0; 200; 20]; [0; 210; 21]; [0; 230; 23]].
Definition filled_cat : list (list Z) := [[1; 0]; [0; 1]; [0; 1]; [2; 3]].
Definition filled_cont : list (list R) :=
  [[0; 200; 20]; [0; 210; 21]; [0; 7; 21]; [0; 230; 23]].

(** [given_plain] with a [min_prediction_length] above
    [max_prediction_length], which the constructor accepts. *)
Definition given_late : Given :=
  {| given_time_idx := None; given_target := None; given_group_ids := None;
     given_weight := None; given_max_encoder_length := Some 2;
     given_min_encoder_length := None; given_min_prediction_idx := None;
     given_min_prediction_length := Some 3; given_max_prediction_length := Some 2;
     given_static_categoricals := None; given_static_reals := None;
     given_time_varying_known_categoricals := None;
     given_time_varying_known_reals := None;
     given_time_varying_unknown_categoricals := Some ["c"];
     given_time_varying_unknown_reals := Some ["y"]; given_dropout_categoricals := None;
     given_add_relative_time_idx := None; given_constant_fill_strategy := None;
     given_categoricals_encoders := None; given_scalers := None;
     given_randomize_length := Some None; given_predict_mode := None |}.

Definition heap_late : Heap :=
  Eval vm_compute in
    (new_TimeSeriesDataSet table_gaps "t" "y" ["g"] given_late heap_at_import).1.
Definition dataset_late : TimeSeriesDataSet :=
  Eval vm_compute in
    constructed (new_TimeSeriesDataSet table_gaps "t" "y" ["g"] given_late heap_at_import).

(** The batch of the examples 0 and 2. *)
Definition no_batch : Batch * PaddedTarget :=
  ({| encoder_cat := []; encoder_cont := []; encoder_targets := PaddedVectors [];
      encoder_lengths := []; decoder_cat := []; decoder_cont := [];
      decoder_target := PaddedVectors []; decoder_lengths := [] |}, PaddedVectors []).

Definition collated : Batch * PaddedTarget :=
  Eval vm_compute in
    match collate_fn [example_0; example_2] with Ok r => r | Raise _ => no_batch end.

End Examples.

(** * Properties *)

Section Properties.
Context `{FM : FloatModel}.

(** ** Results and lists *)

Lemma mapM_Ok {A B} (f : A → result B) (g : A → B) (l : list A) :
  (∀ x, x ∈ l → f x = Ok (g x)) → mapM f l = Ok (g <$> l).
Proof.
  induction l as [|x l IH]; intros Hf; [done|].
  cbn. rewrite (Hf x) by left. cbn.
  rewrite IH; [done|]. intros y Hy. apply Hf. by right.
Qed.
Lemma mapM_fmap {A B C} (f : B → result C) (g : A → B) (l : list A) :
  mapM f (g <$> l) = mapM (f ∘ g) l.
Proof. induction l as [|x l IH]; [done|]. cbn. by rewrite IH. Qed.

(** *** NaNLabelEncoder *)

Lemma index_of_lookup `{EqDecision A} (x : A) l i :
  index_of x l = Some i → l !! i = Some x.
Proof.
  revert i. induction l as [|y l IH]; intros i; [done|]. cbn.
  destruct (decide (x = y)) as [->|]; [by intros [= <-]|].
  destruct (index_of x l) as [j|]; [|done]. intros [= <-]. by apply IH.
Qed.

Lemma index_of_elem `{EqDecision A} (x : A) l :
  x ∈ l → is_Some (index_of x l).
Proof.
  induction 1 as [x l|x y l _ IH]; cbn.
  - rewrite decide_True by done. eauto.
  - destruct (decide (x = y)); [eauto|]. destruct IH as [i ->]. eauto.
Qed.

Lemma index_of_None `{EqDecision A} (x : A) l :
  x ∉ l → index_of x l = None.
Proof.
  induction l as [|y l IH]; [done|]. intros Hx. cbn.
  rewrite decide_False by (intros ->; apply Hx; left).
  rewrite IH; [done|]. intros ?. apply Hx. by right.
Qed.

Lemma elem_of_np_unique {A} `{EqDecision A} (le : A → A → Prop) `{!RelDecision le} l x :
  x ∈ np_unique le l ↔ x ∈ l.
Proof. unfold np_unique. by rewrite merge_sort_Permutation, elem_of_remove_dups. Qed.

Lemma elem_of_LabelEncoder_fit y v : v ∈ LabelEncoder_fit y ↔ v ∈ labels_of y.
Proof.
  destruct y; cbn; rewrite !list_elem_of_fmap;
    by setoid_rewrite elem_of_np_unique.
Qed.

Lemma encode_nans_id y : encode_nans y = y.
Proof. by destruct y. Qed.

(** Every value of the column that an encoder was fitted on is a class. *)
Lemma fit_classes add_nan_arg y v :
  v ∈ labels_of y → v ∈ classes_ (fit add_nan_arg y).
Proof.
  intros Hv. apply elem_of_LabelEncoder_fit in Hv.
  unfold fit. destruct add_nan_arg; [|done]. cbn.
  destruct (decide (v = LStr "nan")) as [->|Hne].
  - rewrite encode_nans_id. destruct y; cbn in *.
    + left.
    + apply list_elem_of_fmap in Hv as (? & ? & _). done.
    + apply list_elem_of_fmap in Hv as (? & ? & _). done.
  - right. apply list_elem_of_filter. split; [|done].
    unfold is_nan_class. by apply bool_decide_eq_false_2.
Qed.

Lemma decode_encode classes v :
  v ∈ classes →
  ∃ c, encode_label classes v = Ok c ∧ decode_label classes c = Ok v.
Proof.
  intros Hv. destruct (index_of_elem v classes Hv) as [i Hi].
  exists (Z.of_nat i). unfold encode_label, decode_label. rewrite Hi. cbn.
  split; [done|]. rewrite bool_decide_eq_true_2 by lia.
  by rewrite Nat2Z.id, (index_of_lookup _ _ _ Hi).
Qed.

Lemma encode_label_unseen classes v :
  v ∉ classes →
  encode_label classes v = Raise (ValueError "y contains previously unseen labels").
Proof. intros Hv. unfold encode_label. by rewrite index_of_None. Qed.


(** A value that is not a class makes [transform] raise, whatever the
    mode of the encoder. *)
Lemma transform_unseen (enc : NaNLabelEncoder) (y : column) :
  (∃ v, v ∈ labels_of y ∧ v ∉ classes_ enc) →
  transform enc y = Raise (ValueError "y contains previously unseen labels").
Proof.
  intros (v & Hv & Hnv).
  assert (transform enc y = LabelEncoder_transform (classes_ enc) y) as ->.
  { unfold transform. destruct (add_nan enc); by rewrite ?encode_nans_id. }
  unfold LabelEncoder_transform.
  revert Hv. generalize (labels_of y) as l.
  induction l as [|w l IH]; intros Hv; [by apply elem_of_nil in Hv|].
  cbn. apply elem_of_cons in Hv as [<-|Hv].
  - by rewrite encode_label_unseen.
  - destruct (encode_label (classes_ enc) w) as [c|e] eqn:Hw; cbn.
    + by rewrite IH.
    + unfold encode_label in Hw. destruct (index_of w (classes_ enc)); cbn in Hw; congruence.
Qed.

(** C7. An encoder fitted on the strings a, b, c meets the unseen value q.
    Fitted without [add_nan] its [transform] raises; fitted with
    [add_nan] its [transform] raises as well, where code 0 is expected;
    only the string nan itself is encoded as 0. *)
Theorem unseen_value_raises_in_add_nan_mode :
  transform (fit false (StrCol ["a"; "b"; "c"])) (StrCol ["q"])
    = Raise (ValueError "y contains previously unseen labels")
  ∧ transform (fit true (StrCol ["a"; "b"; "c"])) (StrCol ["q"])
    = Raise (ValueError "y contains previously unseen labels")
  ∧ transform (fit true (StrCol ["a"; "b"; "c"])) (StrCol ["nan"]) = Ok [0].
Proof. split_and!; vm_compute; reflexivity. Qed.

(** ** The window index *)

(** *** Results *)

Lemma iloc_lookup {A} (l : list A) (i : nat) (x : A) :
  l !! i = Some x → iloc l (Z.of_nat i) = Ok x.
Proof.
  intros Hx. unfold iloc.
  pose proof (lookup_lt_Some _ _ _ Hx).
  rewrite bool_decide_eq_true_2 by lia.
  by rewrite Nat2Z.id, Hx.
Qed.

(** *** The columns of [df_index] *)

Lemma diff_to_next_length rows : length (diff_to_next rows) = length rows.
Proof. induction rows; cbn; congruence. Qed.

Lemma group_times_cons r rows g :
  group_times (r :: rows) g
  = if decide (t_group r = g) then t_time r :: group_times rows g else group_times rows g.
Proof.
  unfold group_times. rewrite filter_cons. by destruct (decide (t_group r = g)).
Qed.

Lemma base_columns_lookup rows i b :
  base_columns rows !! i = Some b ↔
  ∃ r d, rows !! i = Some r ∧ diff_to_next rows !! i = Some d ∧ b = base_row rows i r d.
Proof.
  unfold base_columns. rewrite list_lookup_imap. split.
  - intros Hb. destruct (zip rows (diff_to_next rows) !! i) as [[r d]|] eqn:Hz; [|done].
    simplify_eq/=. apply lookup_zip_with_Some in Hz as (r' & d' & ? & ? & ?).
    simplify_eq. eauto.
  - intros (r & d & Hr & Hd & ->).
    assert (zip rows (diff_to_next rows) !! i = Some (r, d)) as ->; [|done].
    apply lookup_zip_with_Some. eauto.
Qed.

Lemma base_columns_length rows : length (base_columns rows) = length rows.
Proof.
  unfold base_columns. rewrite length_imap, length_zip_with, diff_to_next_length. lia.
Qed.

(** *** Tables without gaps *)

Lemma consecutive_lookup l t0 k a :
  consecutive l → head l = Some t0 → l !! k = Some a → a = t0 + Z.of_nat k.
Proof.
  intros Hc Hh. revert a. induction k as [|k IH]; intros a Ha.
  - rewrite head_lookup in Hh. simplify_eq. lia.
  - destruct (l !! k) as [a'|] eqn:Hk.
    + rewrite (Hc k a' a Hk Ha), (IH a' eq_refl). lia.
    + apply lookup_ge_None in Hk. apply lookup_lt_Some in Ha. lia.
Qed.

Lemma any_gap_false rows :
  any_gap (base_columns rows) = false → no_gaps rows.
Proof.
  intros Hany d Hd. apply list_elem_of_lookup in Hd as [i Hd].
  destruct (rows !! i) as [r|] eqn:Hr.
  2:{ apply lookup_ge_None in Hr. apply lookup_lt_Some in Hd.
      rewrite diff_to_next_length in Hd. lia. }
  assert (base_columns rows !! i = Some (base_row rows i r d)) as Hb
    by (apply base_columns_lookup; eauto).
  unfold any_gap in Hany.
  destruct (decide (d = 1)) as [|Hne]; [done|].
  assert (existsb (λ b, bool_decide (time_diff_to_next b ≠ 1)) (base_columns rows) = true) as Ht.
  { apply existsb_exists. exists (base_row rows i r d). split.
    - apply list_elem_of_In, list_elem_of_lookup. eauto.
    - by apply bool_decide_eq_true_2. }
  congruence.
Qed.

Lemma no_gaps_cons r rows : no_gaps (r :: rows) → no_gaps rows.
Proof. intros H d Hd. apply H. cbn. by right. Qed.

Lemma no_gaps_consecutive rows g : no_gaps rows → consecutive (group_times rows g).
Proof.
  induction rows as [|r rows IH]; intros Hng.
  - intros i a b Ha. done.
  - specialize (IH (no_gaps_cons _ _ Hng)).
    rewrite group_times_cons. destruct (decide (t_group r = g)) as [<-|]; [|done].
    intros [|i] a b Ha Hb; [|by eapply IH].
    cbn in Ha, Hb. simplify_eq.
    assert (head (group_times rows (t_group r)) = Some b) as Hh by by rewrite head_lookup.
    specialize (Hng (- (t_time r - b))). cbn in Hng. rewrite Hh in Hng.
    specialize (Hng ltac:(left)). lia.
Qed.

(** *** Tables sorted by group *)

Lemma filter_Forall_nil {A} (P : A → Prop) `{!∀ x, Decision (P x)} (l : list A) :
  Forall (λ x, ¬ P x) l → filter P l = [].
Proof. induction 1; [done|]. by rewrite filter_cons_False. Qed.

Lemma filter_Forall_id {A} (P : A → Prop) `{!∀ x, Decision (P x)} (l : list A) :
  Forall P l → filter P l = l.
Proof. induction 1; [done|]. rewrite filter_cons_True by done. congruence. Qed.

Lemma sorted_by_group_split rows g :
  sorted_by_group rows →
  rows = filter (λ r, t_group r < g) rows ++ filter (λ r, t_group r = g) rows
         ++ filter (λ r, g < t_group r) rows.
Proof.
  induction 1 as [|r rows Hs IH Hall]; [done|].
  rewrite !filter_cons.
  destruct (decide (t_group r < g)), (decide (t_group r = g)), (decide (g < t_group r));
    try lia; cbn.
  - by rewrite <-IH.
  - rewrite (filter_Forall_nil (λ r, t_group r < g) rows) in IH |- *; cbn in *.
    + congruence.
    + eapply Forall_impl; [exact Hall|]. cbn. lia.
    + eapply Forall_impl; [exact Hall|]. cbn. lia.
  - rewrite (filter_Forall_nil (λ r, t_group r < g) rows),
            (filter_Forall_nil (λ r, t_group r = g) rows),
            (filter_Forall_id (λ r, g < t_group r) rows); [done|..];
      (eapply Forall_impl; [exact Hall|]; cbn; lia).
Qed.

(** The rows of a group of a table that is sorted by group and has no
    gaps, seen from one of them: they follow one another in the table and
    their times go up by one. *)
Lemma group_block rows i r :
  sorted_by_group rows → no_gaps rows → rows !! i = Some r →
  ∃ (off p c : nat) (t0 : Z),
    i = (off + p)%nat ∧ (p < c)%nat
    ∧ head (group_times rows (t_group r)) = Some t0
    ∧ last (group_times rows (t_group r)) = Some (t0 + Z.of_nat c - 1)
    ∧ ∀ k, (k < c)%nat → ∃ r', rows !! (off + k)%nat = Some r' ∧ t_time r' = t0 + Z.of_nat k.
Proof.
  intros Hs Hng Hr.
  set (g := t_group r).
  set (A := filter (λ r, t_group r < g) rows).
  set (B := filter (λ r, t_group r = g) rows).
  set (C := filter (λ r, g < t_group r) rows).
  assert (rows = A ++ B ++ C) as Hsplit by by apply sorted_by_group_split.
  assert (group_times rows g = t_time <$> B) as HT by done.
  pose proof (no_gaps_consecutive rows g Hng) as Hc. rewrite HT in Hc.
  assert (∀ k x, B !! k = Some x → rows !! (length A + k)%nat = Some x) as HB.
  { intros k x Hx. rewrite Hsplit.
    rewrite lookup_app_r by lia. replace (length A + k - length A)%nat with k by lia.
    by apply lookup_app_l_Some. }
  assert (length A ≤ i < length A + length B)%nat as Hi.
  { rewrite Hsplit in Hr.
    destruct (decide (i < length A)%nat) as [Hlt|Hge].
    - rewrite lookup_app_l in Hr by done.
      assert (r ∈ A) as HrA by (apply list_elem_of_lookup; eauto).
      apply list_elem_of_filter in HrA as [? _]. subst g. lia.
    - rewrite lookup_app_r in Hr by lia.
      destruct (decide (i - length A < length B)%nat) as [?|Hge']; [lia|].
      rewrite lookup_app_r in Hr by lia.
      assert (r ∈ C) as HrC by (apply list_elem_of_lookup; eauto).
      apply list_elem_of_filter in HrC as [? _]. subst g. lia. }
  destruct B as [|b0 B'] eqn:HBeq; [cbn in Hi; lia|].
  exists (length A), (i - length A)%nat, (length (b0 :: B')), (t_time b0).
  rewrite HT. split_and!.
  - lia.
  - lia.
  - done.
  - rewrite fmap_last, last_lookup.
    destruct ((b0 :: B') !! pred (length (b0 :: B'))) as [bl|] eqn:Hl.
    2:{ apply lookup_ge_None in Hl. cbn in Hl. lia. }
    cbn [fmap option_fmap option_map]. f_equal.
    assert ((t_time <$> b0 :: B') !! pred (length (b0 :: B')) = Some (t_time bl)) as Hl'
      by by rewrite list_lookup_fmap, Hl.
    rewrite (consecutive_lookup _ (t_time b0) _ _ Hc eq_refl Hl'). cbn. lia.
  - intros k Hk. destruct ((b0 :: B') !! k) as [x|] eqn:Hx.
    2:{ apply lookup_ge_None in Hx. lia. }
    exists x. split; [by apply HB|].
    assert ((t_time <$> b0 :: B') !! k = Some (t_time x)) as Hx'
      by by rewrite list_lookup_fmap, Hx.
    apply (consecutive_lookup _ (t_time b0) _ _ Hc eq_refl Hx').
Qed.

Lemma no_gaps_lookup rows i d :
  no_gaps rows → diff_to_next rows !! i = Some d → d = 1.
Proof. intros Hng Hd. apply Hng, list_elem_of_lookup. eauto. Qed.

(** What the walk and the arithmetic need to know of a row. *)
Lemma row_facts rows i b :
  sorted_by_group rows → no_gaps rows → base_columns rows !! i = Some b →
  index_start b = Z.of_nat i
  ∧ time_first b ≤ time b ≤ time_last b
  ∧ count b + time_first b = time_last b + 1
  ∧ ∀ j, (Z.of_nat j ≤ time_last b - time b) →
      ∃ b', base_columns rows !! (i + j)%nat = Some b'
            ∧ time b' = time b + Z.of_nat j ∧ time_diff_to_next b' = 1.
Proof.
  intros Hs Hng Hb. apply base_columns_lookup in Hb as (r & d & Hr & Hd & ->).
  destruct (group_block rows i r Hs Hng Hr) as (off & p & c & t0 & -> & Hp & Hh & Hl & Hk).
  destruct (Hk p Hp) as (r' & Hr' & Ht'). simplify_eq.
  unfold base_row; cbn. rewrite Hh, Hl; cbn. split_and!; try lia.
  intros j Hj.
  destruct (Hk (p + j)%nat ltac:(lia)) as (rj & Hrj & Htj).
  rewrite Nat.add_assoc in Hrj.
  destruct (diff_to_next rows !! (off + p + j)%nat) as [dj|] eqn:Hdj.
  2:{ apply lookup_ge_None in Hdj. apply lookup_lt_Some in Hrj.
      rewrite diff_to_next_length in Hdj. lia. }
  exists (base_row rows (off + p + j) rj dj). split_and!.
  - apply base_columns_lookup. eauto.
  - cbn. lia.
  - cbn. by eapply no_gaps_lookup.
Qed.

(** *** The walk on a table without gaps *)

Section NoGaps.
Variable cfg : Lengths.
Variable rows : list TableRow.
Hypothesis Hsorted : sorted_by_group rows.
Hypothesis Hnogaps : no_gaps rows.
Hypothesis Hwindow : 1 ≤ max_encoder_length cfg + max_prediction_length cfg.

Lemma direct_end_in_group i b :
  base_columns rows !! i = Some b →
  ∃ j b', index_start b + (max_time cfg b - time b - 1) = Z.of_nat (i + j)
          ∧ base_columns rows !! (i + j)%nat = Some b'
          ∧ time b' = time b + Z.of_nat j.
Proof.
  intros Hb. destruct (row_facts rows i b Hsorted Hnogaps Hb) as (Hi & Ht & Hc & Hj).
  destruct (Hj (Z.to_nat (max_time cfg b - time b - 1))) as (b' & Hb' & Htb' & _).
  { unfold max_time. lia. }
  exists (Z.to_nat (max_time cfg b - time b - 1)), b'. split_and!; [|done|done].
  unfold max_time in *. lia.
Qed.

Lemma walk_step_closed k :
  walk_step cfg (base_columns rows) ((λ b, (b, walk_closed cfg k b)) <$> base_columns rows)
  = Ok ((λ b, (b, walk_closed cfg (S k) b)) <$> base_columns rows).
Proof.
  unfold walk_step. rewrite mapM_fmap.
  apply mapM_Ok. intros b Hb. apply list_elem_of_lookup in Hb as [i Hb]. cbn.
  destruct (row_facts rows i b Hsorted Hnogaps Hb) as (Hi & Ht & Hc & Hj).
  set (j := Z.to_nat (Z.min (Z.of_nat k) (max_time cfg b - time b - 1))).
  destruct (Hj j) as (b' & Hb' & Htb' & Hd').
  { unfold j, max_time. lia. }
  assert (walk_closed cfg k b = Z.of_nat (i + j)) as ->.
  { unfold walk_closed, j, max_time in *. lia. }
  rewrite (iloc_lookup _ _ _ Hb'). cbn. do 2 f_equal.
  rewrite Htb', Hd'. unfold walk_closed, j, max_time in *.
  case_bool_decide; lia.
Qed.

Lemma walk_loop_closed n k :
  walk_loop cfg (base_columns rows) n ((λ b, (b, walk_closed cfg k b)) <$> base_columns rows)
  = Ok ((λ b, (b, walk_closed cfg (k + n) b)) <$> base_columns rows).
Proof.
  revert k. induction n as [|n IH]; intros k; cbn.
  - by rewrite Nat.add_0_r.
  - rewrite walk_step_closed. cbn. rewrite IH.
    by replace (S k + n)%nat with (k + S n)%nat by lia.
Qed.

Lemma count_le_count_max (df : list BaseRow) b : b ∈ df → count b ≤ count_max df.
Proof.
  unfold count_max. induction 1 as [b df|b b' df _ IH]; cbn; lia.
Qed.

Lemma count_max_nonneg (df : list BaseRow) : 0 ≤ count_max df.
Proof. unfold count_max. induction df; cbn; lia. Qed.

Lemma index_end_walk_direct :
  index_end_walk cfg (base_columns rows) = Ok (index_end_direct cfg (base_columns rows)).
Proof.
  unfold index_end_walk, index_end_direct.
  rewrite (list_fmap_ext _ (λ b, (b, walk_closed cfg 0 b)) (base_columns rows)).
  - rewrite walk_loop_closed. f_equal. apply list_fmap_ext.
    intros i b Hb. f_equal.
    destruct (row_facts rows i b Hsorted Hnogaps Hb) as (Hi & Ht & Hc & Hj).
    assert (count b ≤ count_max (base_columns rows))
      by (apply count_le_count_max, list_elem_of_lookup; eauto).
    unfold walk_closed, max_time in *. lia.
  - intros i b Hb. f_equal.
    destruct (row_facts rows i b Hsorted Hnogaps Hb) as (Hi & Ht & Hc & Hj).
    unfold walk_closed, max_time in *. lia.
Qed.

Lemma add_sequence_length_direct :
  add_sequence_length (base_columns rows) (index_end_direct cfg (base_columns rows))
  = Ok ((λ b, {| base := b;
                 index_end := index_start b + (max_time cfg b - time b - 1);
                 sequence_length := max_time cfg b - time b |}) <$> base_columns rows).
Proof.
  unfold add_sequence_length, index_end_direct. rewrite mapM_fmap.
  apply mapM_Ok. intros b Hb. apply list_elem_of_lookup in Hb as [i Hb]. cbn.
  destruct (direct_end_in_group i b Hb) as (j & b' & Hj & Hb' & Ht').
  rewrite Hj, (iloc_lookup _ _ _ Hb'). cbn. do 2 f_equal.
  destruct (row_facts rows i b Hsorted Hnogaps Hb) as (Hi & _). lia.
Qed.
End NoGaps.


(** *** Predict mode *)

Lemma mapM_Ok_inv {A B} (f : A → result B) (l : list A) (k : list B) :
  mapM f l = Ok k → Forall2 (λ x y, f x = Ok y) l k.
Proof.
  revert k. induction l as [|x l IH]; intros k Hk; cbn in Hk.
  - injection Hk as <-. constructor.
  - destruct (f x) as [y|] eqn:Hy; [|done]. cbn in Hk.
    destruct (mapM f l) as [k'|] eqn:Hk'; [|done]. injection Hk as <-.
    constructor; auto.
Qed.

Lemma mapM_preserves {A B C} (f : A → result B) (p : A → C) (q : B → C) l k :
  (∀ x y, f x = Ok y → q y = p x) → mapM f l = Ok k → q <$> k = p <$> l.
Proof.
  intros Hf Hk. apply mapM_Ok_inv in Hk.
  induction Hk as [|x y l k Hxy _ IH]; [done|]. cbn. by rewrite (Hf x y Hxy), IH.
Qed.

Lemma walk_step_fst cfg df ends ends' :
  walk_step cfg df ends = Ok ends' → ends'.*1 = ends.*1.
Proof.
  apply mapM_preserves. intros [b e] y Hy. cbn in Hy.
  destruct (iloc df e); cbn in Hy; [by injection Hy as <-|discriminate].
Qed.

Lemma walk_loop_fst cfg df n ends ends' :
  walk_loop cfg df n ends = Ok ends' → ends'.*1 = ends.*1.
Proof.
  revert ends. induction n as [|n IH]; intros ends H; cbn in H.
  - by injection H as <-.
  - destruct (walk_step cfg df ends) as [e1|] eqn:H1; [|done]. cbn in H.
    rewrite (IH _ H). by eapply walk_step_fst.
Qed.

Lemma add_sequence_length_base df ends ix :
  add_sequence_length df ends = Ok ix → base <$> ix = ends.*1.
Proof.
  apply mapM_preserves. intros [b e] y Hy. cbn in Hy.
  destruct (iloc df e); cbn in Hy; [by injection Hy as <-|discriminate].
Qed.

Lemma window_index_base cfg rows ix :
  window_index cfg rows = Ok ix → base <$> ix = base_columns rows.
Proof.
  unfold window_index. intros H.
  destruct (any_gap (base_columns rows)).
  - destruct (index_end_walk cfg (base_columns rows)) as [ends|] eqn:He; [|done].
    cbn in H. rewrite (add_sequence_length_base _ _ _ H).
    unfold index_end_walk in He. rewrite (walk_loop_fst _ _ _ _ _ He).
    rewrite <-list_fmap_compose. apply list_fmap_id.
  - cbn in H. rewrite (add_sequence_length_base _ _ _ H).
    unfold index_end_direct. rewrite <-list_fmap_compose. apply list_fmap_id.
Qed.

Lemma base_columns_labels rows : b_label <$> base_columns rows = t_label <$> rows.
Proof.
  apply list_eq. intros i. rewrite !list_lookup_fmap.
  destruct (base_columns rows !! i) as [b|] eqn:Hb.
  - apply base_columns_lookup in Hb as (r & d & -> & _ & ->). done.
  - apply lookup_ge_None in Hb. rewrite base_columns_length in Hb.
    apply lookup_ge_None in Hb. by rewrite Hb.
Qed.

Lemma window_index_labels cfg rows ix :
  window_index cfg rows = Ok ix → (λ x, b_label (base x)) <$> ix = t_label <$> rows.
Proof.
  intros H. rewrite <-base_columns_labels, <-(window_index_base _ _ _ H).
  by rewrite <-list_fmap_compose.
Qed.

(** [first_max] returns the first row that holds the maximum. *)
Lemma first_max_split pre best mid rest :
  (∀ x, x ∈ pre → sequence_length x < sequence_length best) →
  (∀ x, x ∈ mid → sequence_length x ≤ sequence_length best) →
  ∃ pre' post',
    pre ++ best :: mid ++ rest = pre' ++ first_max best rest :: post'
    ∧ (∀ x, x ∈ pre' → sequence_length x < sequence_length (first_max best rest))
    ∧ (∀ x, x ∈ post' → sequence_length x ≤ sequence_length (first_max best rest)).
Proof.
  revert pre best mid. induction rest as [|x rest IH]; intros pre best mid Hpre Hmid.
  - exists pre, mid. by rewrite app_nil_r.
  - cbn. case_bool_decide as Hlt.
    + destruct (IH (pre ++ best :: mid) x []) as (pre' & post' & Heq & H1 & H2).
      * intros y [Hy|Hy]%elem_of_app; [apply Hpre in Hy; lia|].
        apply elem_of_cons in Hy as [->|Hy]; [done|]. apply Hmid in Hy. lia.
      * intros y Hy. by apply elem_of_nil in Hy.
      * exists pre', post'. split; [|done]. rewrite <-Heq. by rewrite <-app_assoc.
    + destruct (IH pre best (mid ++ [x])) as (pre' & post' & Heq & H1 & H2).
      * done.
      * intros y [Hy|Hy]%elem_of_app; [by apply Hmid|].
        apply list_elem_of_singleton in Hy as ->. lia.
      * exists pre', post'. split; [|done]. rewrite <-Heq. by rewrite <-app_assoc.
Qed.

Lemma NoDup_fmap_filter {A B} (f : A → B) (P : A → Prop) `{!∀ x, Decision (P x)} l :
  NoDup (f <$> l) → NoDup (f <$> filter P l).
Proof.
  induction l as [|x l IH]; [done|]. rewrite fmap_cons. intros [Hx Hnd]%NoDup_cons.
  rewrite filter_cons. destruct (decide (P x)); [|by apply IH].
  rewrite fmap_cons. apply NoDup_cons. split; [|by apply IH].
  intros (y & Hy & [_ Hin]%list_elem_of_filter)%list_elem_of_fmap.
  apply Hx. rewrite Hy. by apply list_elem_of_fmap_2.
Qed.

Lemma filter_unique_key {A} (f : A → Z) (l : list A) (x : A) :
  NoDup (f <$> l) → x ∈ l → filter (λ y, f y = f x) l = [x].
Proof.
  induction l as [|y l IH]; intros Hnd Hx; [by apply elem_of_nil in Hx|].
  cbn in Hnd. apply NoDup_cons in Hnd as [Hy Hnd].
  apply elem_of_cons in Hx as [->|Hx].
  - rewrite filter_cons_True by done. f_equal.
    apply filter_Forall_nil, Forall_forall. intros z Hz Heq.
    apply Hy. rewrite <-Heq. by apply list_elem_of_fmap_2.
  - rewrite filter_cons_False; [by apply IH|].
    intros Heq. apply Hy. rewrite Heq. by apply list_elem_of_fmap_2.
Qed.

Lemma longest_of_group_elem df g w :
  longest_of_group df g = Some w → w ∈ df ∧ group_id (base w) = g.
Proof.
  unfold longest_of_group. intros H.
  destruct (filter _ df) as [|x rest] eqn:Hf; [done|]. simplify_eq.
  destruct (first_max_split [] x [] rest) as (pre & post & Heq & _); [set_solver..|].
  cbn in Heq. rewrite <-Hf in Heq.
  assert (first_max x rest ∈ filter (λ x, group_id (base x) = g) df) as Hin.
  { rewrite Heq. apply elem_of_app. right. by left. }
  by apply list_elem_of_filter in Hin as [? ?].
Qed.

Lemma loc_groupby df gids :
  NoDup ((λ x, b_label (base x)) <$> df) →
  loc df (omap (λ g, idxmax (filter (λ x, group_id (base x) = g) df)) gids)
  = Ok (omap (longest_of_group df) gids).
Proof.
  intros Hnd. unfold loc. induction gids as [|g gids IH]; [done|].
  cbn. pose proof (longest_of_group_elem df g) as Hw. unfold longest_of_group in *.
  destruct (filter (λ x, group_id (base x) = g) df) as [|x rest]; cbn.
  - apply IH.
  - destruct (Hw _ eq_refl) as [Hin _].
    rewrite (filter_unique_key (λ x, b_label (base x)) df _ Hnd Hin). cbn.
    destruct (mapM _ _) as [found|]; [|done]. cbn in *.
    injection IH as IH. do 2 f_equal. exact IH.
Qed.

Lemma filter_longest_of_group df gids g :
  NoDup gids →
  filter (λ x, group_id (base x) = g) (omap (longest_of_group df) gids)
  = if decide (g ∈ gids) then option_list (longest_of_group df g) else [].
Proof.
  induction gids as [|g' gids IH]; intros Hnd.
  - rewrite decide_False; [done|]. apply not_elem_of_nil.
  - apply NoDup_cons in Hnd as [Hg' Hnd]. specialize (IH Hnd).
    assert (filter (λ x, group_id (base x) = g) (omap (longest_of_group df) (g' :: gids))
            = (if decide (g = g') then option_list (longest_of_group df g) else [])
              ++ filter (λ x, group_id (base x) = g) (omap (longest_of_group df) gids)) as ->.
    { cbn. destruct (longest_of_group df g') as [w|] eqn:Hw.
      - apply longest_of_group_elem in Hw as Hw'. destruct Hw' as [_ Hgw].
        rewrite filter_cons. destruct (decide (g = g')) as [->|Hne].
        + rewrite decide_True by done. by rewrite Hw.
        + by rewrite decide_False by congruence.
      - destruct (decide (g = g')) as [->|Hne]; [by rewrite Hw|done]. }
    rewrite IH. destruct (decide (g = g')) as [->|Hne].
    + rewrite (decide_False (P := g' ∈ gids)) by done.
      rewrite decide_True by left. by rewrite app_nil_r.
    + destruct (decide (g ∈ gids)) as [Hin|Hnin].
      * rewrite decide_True by by right. done.
      * rewrite decide_False; [done|]. by intros [?|?]%elem_of_cons.
Qed.

(** C2. In predict mode, on a table with unique row labels,
    [construct_index] keeps for every group exactly one of its eligible
    windows, one of longest [sequence_length] and the first such in row
    order, and keeps no window of a group that has no eligible window. *)
Theorem predict_mode_keeps_longest (cfg : Lengths) (rows : list TableRow)
    (df_index : list IndexRow) :
  NoDup (t_label <$> rows) →
  window_index cfg rows = Ok df_index →
  ∃ kept,
    construct_index cfg rows true = Ok kept
    ∧ ∀ g,
        let of_group := filter (λ x : IndexRow, group_id (base x) = g) in
        let eligible := of_group (filter (predict_eligible cfg) df_index) in
        (eligible = [] → of_group kept = [])
        ∧ (eligible ≠ [] →
           ∃ before w after,
             eligible = before ++ w :: after
             ∧ of_group kept = [w]
             ∧ (∀ x, x ∈ before → sequence_length x < sequence_length w)
             ∧ (∀ x, x ∈ after → sequence_length x ≤ sequence_length w)).
Proof.
  intros Hnd Hix.
  set (df := filter (predict_eligible cfg) df_index).
  assert (NoDup ((λ x, b_label (base x)) <$> df)) as Hnd'.
  { rewrite <-(window_index_labels _ _ _ Hix) in Hnd.
    by apply NoDup_fmap_filter. }
  set (gids := merge_sort Z.le (remove_dups ((λ x, group_id (base x)) <$> df))).
  exists (omap (longest_of_group df) gids). split.
  { unfold construct_index. rewrite Hix. cbn. fold df. unfold groupby_idxmax. fold gids.
    by apply loc_groupby. }
  intros g of_group eligible. unfold of_group.
  assert (NoDup gids) as Hgids.
  { unfold gids. rewrite merge_sort_Permutation. apply NoDup_remove_dups. }
  rewrite (filter_longest_of_group df gids g Hgids).
  assert (g ∈ gids ↔ eligible ≠ []) as Hmem.
  { unfold gids. rewrite merge_sort_Permutation, elem_of_remove_dups, list_elem_of_fmap.
    unfold eligible, of_group. split.
    - intros (x & -> & Hx) Hnil.
      eapply (filter_nil_not_elem_of _ _ x Hnil); done.
    - intros Hne. destruct (filter _ df) as [|x l] eqn:Hf; [done|].
      assert (x ∈ filter (λ x, group_id (base x) = g) df) as Hx by (rewrite Hf; left).
      apply list_elem_of_filter in Hx as [? ?]. eauto. }
  split.
  - intros Hnil. rewrite decide_False; [done|]. rewrite Hmem. by intros [].
  - intros Hne. rewrite decide_True by by apply Hmem.
    unfold longest_of_group. unfold eligible, of_group in *.
    destruct (filter (λ x, group_id (base x) = g) df) as [|x rest]; [done|].
    destruct (first_max_split [] x [] rest) as (pre & post & Heq & H1 & H2); [set_solver..|].
    cbn in Heq. exists pre, (first_max x rest), post. done.
Qed.

(** ** The accessor *)

Lemma mapM_length {A B} (f : A → result B) (l : list A) (k : list B) :
  mapM f l = Ok k → length k = length l.
Proof. intros H%mapM_Ok_inv. symmetry. by eapply Forall2_length. Qed.

Lemma bind_Ok {A B} (m : result A) (k : A → result B) (b : B) :
  m ≫= k = Ok b → ∃ a, m = Ok a ∧ k a = Ok b.
Proof. destruct m as [a|e]; [eauto|done]. Qed.

Lemma py_assert_Ok cond msg : py_assert cond msg = Ok tt → cond = true.
Proof. by destruct cond. Qed.

(** *** __getitem__: the lengths of the window *)

Lemma py_slice_length {A} (lo hi : Z) (l : list A) :
  0 ≤ lo ≤ hi → hi ≤ Z.of_nat (length l) →
  Z.of_nat (length (py_slice lo hi l)) = hi - lo.
Proof.
  intros Hlo Hhi. unfold py_slice, slice_bound.
  rewrite !bool_decide_eq_false_2 by lia.
  rewrite length_take, length_drop. lia.
Qed.

Lemma py_slice_from_length {A} (lo : Z) (l : list A) :
  0 ≤ lo ≤ Z.of_nat (length l) →
  Z.of_nat (length (py_slice_from lo l)) = Z.of_nat (length l) - lo.
Proof.
  intros Hlo. unfold py_slice_from, slice_bound.
  rewrite bool_decide_eq_false_2 by lia. rewrite length_drop. lia.
Qed.

Lemma window_lengths_Ok cfg cat e d :
  window_lengths cfg cat = Ok (e, d) →
  ∃ last_time,
    last_time_of cat = Ok last_time
    ∧ d = Z.min (Z.min (last_time - (min_prediction_idx cfg - 1)) (max_prediction_length cfg))
                (Z.of_nat (length cat))
    ∧ e = Z.of_nat (length cat) - d
    ∧ min_prediction_length cfg ≤ d.
Proof.
  unfold window_lengths. intros H.
  apply bind_Ok in H as ([] & _ & H).
  apply bind_Ok in H as (last_time & Hlast & H).
  apply bind_Ok in H as ([] & Hd%py_assert_Ok%bool_decide_eq_true & H).
  injection H as <- <-. eauto.
Qed.

Lemma window_lengths_violation cfg cat last_time :
  last_time_of cat = Ok last_time →
  Z.min (Z.min (last_time - (min_prediction_idx cfg - 1)) (max_prediction_length cfg))
        (Z.of_nat (length cat)) < min_prediction_length cfg →
  ∃ e, window_lengths cfg cat = Raise e ∧ length_violation e.
Proof.
  intros Hlast Hd. unfold window_lengths.
  destruct (bool_decide (min_prediction_length cfg ≤ Z.of_nat (length cat))); cbn.
  - rewrite Hlast. cbn. rewrite bool_decide_eq_false_2 by lia. cbn.
    eexists. split; [done|]. right. by left.
  - eexists. split; [done|]. by left.
Qed.

Lemma window_lengths_short cfg cat :
  Z.of_nat (length cat) < min_prediction_length cfg →
  window_lengths cfg cat
  = Raise (AssertionError "sequence_length >= self.min_prediction_length").
Proof.
  intros Hd. unfold window_lengths. by rewrite bool_decide_eq_false_2 by lia.
Qed.

Lemma getitem_unfold ds idx draws h real_names :
  reals (attrs ds) h = (h, Ok real_names) →
  (getitem ds idx draws h).2
  = ('(cont, cat) ← read_window ds real_names idx;
     '(encoder_length, decoder_length) ← window_lengths (ds_lengths ds) cat;
     let w := {| w_cont := cont; w_cat := cat;
                 w_encoder_length := encoder_length;
                 w_decoder_length := decoder_length |} in
     w ← (if randomize_length (attrs ds) is Some _
          then randomize (attrs ds) (ds_lengths ds) draws w else Ok w);
     split_example (attrs ds) (ds_lengths ds) real_names w).
Proof. intros Hr. unfold getitem, mbind, Py_bind. by rewrite Hr. Qed.

(** What [split_example] returns, in terms of the window it is given. *)
Lemma split_example_Ok kw cfg real_names w ex label :
  split_example kw cfg real_names w = Ok (ex, label) →
  encoder_length ex = w_encoder_length w
  ∧ 0 < w_decoder_length w ∧ 0 ≤ w_encoder_length w
  ∧ length (x_cat ex) = length (w_cat w)
  ∧ length (x_cont ex) = length (w_cont w)
  ∧ ∃ target, target_length target = length (w_cont w)
      ∧ encoder_target ex = target_slice_to (w_encoder_length w) target
      ∧ label = target_slice_from (w_encoder_length w) target.
Proof.
  unfold split_example. intros H.
  apply bind_Ok in H as ([] & Hd%py_assert_Ok%bool_decide_eq_true & H).
  apply bind_Ok in H as ([] & He%py_assert_Ok%bool_decide_eq_true & H).
  apply bind_Ok in H as (last_time & _ & H).
  apply bind_Ok in H as ([] & _ & H).
  apply bind_Ok in H as (target_column & Htc & H).
  apply bind_Ok in H as (cont & Hcont & H).
  injection H as <- <-. cbn.
  assert (length cont = length (w_cont w)) as Hlen.
  { destruct (add_relative_time_idx kw).
    - apply bind_Ok in Hcont as (j & _ & Hcont).
      apply bind_Ok in Hcont as ([] & _ & Hcont).
      apply mapM_length in Hcont. rewrite Hcont, length_zip_with, length_seq.
      destruct (weight kw); rewrite !length_fmap; lia.
    - injection Hcont as <-. destruct (weight kw); by rewrite length_fmap. }
  split_and!; [done|done|done|by rewrite length_fmap|done|].
  destruct (weight kw) as [wname|].
  - injection Htc as <-. exists (Matrix cont). done.
  - apply bind_Ok in Htc as (column & Hcol & Htc). injection Htc as <-.
    exists (Vector column). split_and!; [|done..].
    cbn. by apply mapM_length in Hcol.
Qed.

Lemma raises_only_Ok {A} P (a : A) : raises_only P (Ok a).
Proof. intros e. done. Qed.

Lemma raises_only_Raise {A} (P : exn → Prop) e : P e → raises_only (A := A) P (Raise e).
Proof. intros HP e' [= <-]. done. Qed.

Lemma raises_only_bind {A B} P (m : result A) (k : A → result B) :
  raises_only P m → (∀ a, m = Ok a → raises_only P (k a)) → raises_only P (m ≫= k).
Proof.
  intros Hm Hk e. destruct m as [a|e']; cbn.
  - by apply Hk.
  - intros [= <-]. by apply Hm.
Qed.

Lemma raises_only_fmap {A B} P (m : result A) (f : A → B) :
  raises_only P m → raises_only P (f <$> m).
Proof. intros Hm e. destruct m as [a|e']; cbn; [done|]. intros [= <-]. by apply Hm. Qed.

Lemma raises_only_mapM {A B} P (f : A → result B) (l : list A) :
  (∀ x, x ∈ l → raises_only P (f x)) → raises_only P (mapM f l).
Proof.
  induction l as [|x l IH]; intros Hf; [apply raises_only_Ok|].
  cbn. apply raises_only_bind; [apply Hf; left|]. intros y _.
  apply raises_only_bind; [apply IH; intros z Hz; apply Hf; by right|].
  intros k _. apply raises_only_Ok.
Qed.

Lemma raises_only_or_raise {A} (P : exn → Prop) e (o : option A) :
  P e → raises_only P (or_raise e o).
Proof. intros HP. destruct o; [apply raises_only_Ok|by apply raises_only_Raise]. Qed.

Lemma raises_only_iloc {A} (P : exn → Prop) (l : list A) k :
  P IndexError → raises_only P (iloc l k).
Proof.
  intros HP. unfold iloc. repeat case_bool_decide;
    auto using raises_only_or_raise, raises_only_Raise.
Qed.

Lemma raises_only_set_cell {A} (P : exn → Prop) j (v : A) row :
  P IndexError → raises_only P (set_cell j v row).
Proof.
  intros HP. unfold set_cell. case_bool_decide;
    auto using raises_only_Ok, raises_only_Raise.
Qed.

Lemma raises_only_list_index `{EqDecision A} (P : exn → Prop) (x : A) l :
  P (ValueError "is not in list") → raises_only P (list_index x l).
Proof. intros HP. unfold list_index. by apply raises_only_or_raise. Qed.

Lemma raises_only_last_time_of (P : exn → Prop) cat :
  P IndexError → raises_only P (last_time_of cat).
Proof.
  intros HP. unfold last_time_of.
  apply raises_only_bind; [by apply raises_only_iloc|]. intros; by apply raises_only_iloc.
Qed.

Lemma not_length_violation_IndexError : ¬ length_violation IndexError.
Proof. by intros [|[|]]. Qed.
Lemma not_length_violation_ValueError msg : ¬ length_violation (ValueError msg).
Proof. by intros [|[|]]. Qed.
Lemma not_length_violation_RuntimeError : ¬ length_violation RuntimeError.
Proof. by intros [|[|]]. Qed.

Lemma randomize_raises kw cfg draws w :
  raises_only (λ e, ¬ length_violation e) (randomize kw cfg draws w).
Proof.
  unfold randomize. case_bool_decide; [|apply raises_only_Ok].
  apply raises_only_bind.
  { apply raises_only_mapM. intros c _.
    apply raises_only_list_index, not_length_violation_ValueError. }
  intros columns _. apply raises_only_bind; [|intros; apply raises_only_Ok].
  apply raises_only_mapM. intros row _.
  induction columns as [|j columns IH]; cbn; [apply raises_only_Ok|].
  apply raises_only_bind; [done|]. intros.
  apply raises_only_set_cell, not_length_violation_IndexError.
Qed.

(** Once the two lengths are positive and non-negative, no assertion on the
    lengths fails in the last part of [__getitem__]. *)
Lemma split_example_raises kw cfg real_names w :
  0 < w_decoder_length w →
  raises_only (λ e, ¬ length_violation e) (split_example kw cfg real_names w).
Proof.
  intros Hd. unfold split_example.
  rewrite (bool_decide_eq_true_2 (0 < w_decoder_length w)) by done. cbn.
  apply raises_only_bind.
  { unfold py_assert. case_bool_decide; [apply raises_only_Ok|].
    apply raises_only_Raise. by intros [|[|]]. }
  intros _ _. apply raises_only_bind.
  { apply raises_only_last_time_of, not_length_violation_IndexError. }
  intros last_time _. apply raises_only_bind.
  { unfold py_assert. case_bool_decide; [apply raises_only_Ok|].
    apply raises_only_Raise. by intros [|[|]]. }
  intros _ _. apply raises_only_bind.
  { destruct (weight kw); [apply raises_only_Ok|].
    apply raises_only_fmap, raises_only_mapM. intros row _.
    apply raises_only_iloc, not_length_violation_IndexError. }
  intros target_column _. apply raises_only_bind; [|intros; apply raises_only_Ok].
  destruct (add_relative_time_idx kw); [|apply raises_only_Ok].
  apply raises_only_bind.
  { apply raises_only_list_index, not_length_violation_ValueError. }
  intros j _. apply raises_only_bind.
  { case_bool_decide; [apply raises_only_Ok|].
    apply raises_only_Raise, not_length_violation_RuntimeError. }
  intros _ _. apply raises_only_mapM. intros [i row] _.
  apply raises_only_set_cell, not_length_violation_IndexError.
Qed.

Lemma target_slice_from_length lo t :
  0 ≤ lo ≤ Z.of_nat (target_length t) →
  Z.of_nat (target_length (target_slice_from lo t)) = Z.of_nat (target_length t) - lo.
Proof. intros H. destruct t; cbn in *; by apply py_slice_from_length. Qed.

Lemma randomize_Ok kw cfg draws w w' :
  randomize kw cfg draws w = Ok w' →
  let new_encoder_length := draws.1 in
  let new_decoder_length := Z.max (min_prediction_length cfg) draws.2 in
  let truncated :=
    bool_decide (new_encoder_length + new_decoder_length < Z.of_nat (length (w_cat w))) in
  w_encoder_length w' = (if truncated then new_encoder_length else w_encoder_length w)
  ∧ w_decoder_length w' = (if truncated then new_decoder_length else w_decoder_length w)
  ∧ w_cont w' = (if truncated
                 then py_slice (w_encoder_length w - new_encoder_length)
                               (w_encoder_length w + new_decoder_length) (w_cont w)
                 else w_cont w)
  ∧ length (w_cat w')
    = length (if truncated
              then py_slice (w_encoder_length w - new_encoder_length)
                            (w_encoder_length w + new_decoder_length) (w_cat w)
              else w_cat w).
Proof.
  unfold randomize. cbn zeta.
  set (w1 := if bool_decide _ then _ else w).
  intros H.
  assert (w_encoder_length w' = w_encoder_length w1 ∧ w_decoder_length w' = w_decoder_length w1
          ∧ w_cont w' = w_cont w1 ∧ length (w_cat w') = length (w_cat w1)) as Hw.
  { case_bool_decide.
    - apply bind_Ok in H as (columns & _ & H).
      apply bind_Ok in H as (cat & Hcat & H). injection H as <-. cbn.
      by rewrite (mapM_length _ _ _ Hcat).
    - by injection H as <-. }
  clear H. subst w1. case_bool_decide; done.
Qed.



(** *** __getitem__: features and target *)

Lemma getitem_Ok ds idx draws h r :
  (getitem ds idx draws h).2 = Ok r →
  ∃ real_names w,
    reals (attrs ds) h = (h, Ok real_names)
    ∧ split_example (attrs ds) (ds_lengths ds) real_names w = Ok r.
Proof.
  unfold getitem. unfold mbind at 1, Py_bind at 1.
  destruct (reals (attrs ds) h) as [h1 [real_names|e]] eqn:Hreals; [|done].
  assert (h1 = h) as ->.
  { unfold reals, mbind, Py_bind, read_list in Hreals.
    destruct (string_lists h !! _); cbn in Hreals; by injection Hreals. }
  unfold lift. cbn [snd]. intros H.
  apply bind_Ok in H as ([cont cat] & _ & H).
  apply bind_Ok in H as ([e d] & _ & H).
  apply bind_Ok in H as (w & _ & H). eauto.
Qed.

(** Without a weight the target that [__getitem__] returns is the last
    column of the window, cut at the encoder length, and the features are
    the columns before it. *)
Lemma unweighted_target kw cfg real_names w ex label :
  weight kw = None →
  split_example kw cfg real_names w = Ok (ex, label) →
  ∃ column,
    column_at (-1) (w_cont w) = Ok column
    ∧ encoder_target ex = Vector (py_slice_to (encoder_length ex) column)
    ∧ label = Vector (py_slice_from (encoder_length ex) column)
    ∧ (add_relative_time_idx kw = false → x_cont ex = py_slice_to (-1) <$> w_cont w).
Proof.
  intros Hw. unfold split_example. rewrite Hw. intros H.
  do 4 (apply bind_Ok in H as (? & _ & H)).
  apply bind_Ok in H as (target_column & Htc & H).
  apply bind_Ok in H as (cont & Hcont & H).
  apply bind_Ok in Htc as (column & Hcol & Htc). injection Htc as <-.
  injection H as <- <-. cbn. exists column. split_and!; [done..|].
  intros Hrel. rewrite Hrel in Hcont. by injection Hcont as <-.
Qed.

(** C5, where the code departs from it. With a weight configured, the
    encoder target and the label that [__getitem__] returns are the rows of
    the feature tensor [x_cont] itself, cut at the encoder length: they are
    not the values of the target column. *)
Theorem weighted_target_is_the_feature_block (ds : TimeSeriesDataSet) (idx : Z)
    (draws : Z * Z) (h : Heap) (weight_name : string) (ex : Example) (label : Target) :
  weight (attrs ds) = Some weight_name →
  (getitem ds idx draws h).2 = Ok (ex, label) →
  encoder_target ex = Matrix (py_slice_to (encoder_length ex) (x_cont ex))
  ∧ label = Matrix (py_slice_from (encoder_length ex) (x_cont ex)).
Proof.
  intros Hw (real_names & w & _ & H)%getitem_Ok.
  unfold split_example in H. rewrite Hw in H.
  do 4 (apply bind_Ok in H as (? & _ & H)).
  apply bind_Ok in H as (target_column & Htc & H). injection Htc as <-.
  apply bind_Ok in H as (cont & Hcont & H).
  by injection H as <- <-.
Qed.

(** ** Construction *)

(** *** The heap during construction *)

#[local] Instance heap_extends_refl : Reflexive heap_extends.
Proof. intros h. split_and!; intros a x Hx; exists x; done. Qed.

#[local] Instance heap_extends_trans : Transitive heap_extends.
Proof.
  intros h1 h2 h3 (E1 & S1 & L1) (E2 & S2 & L2). split_and!.
  - intros a d Hd. destruct (E1 a d Hd) as (d' & Hd' & ?).
    destruct (E2 a d' Hd') as (d'' & Hd'' & ?). exists d''. split; [done|]. by etrans.
  - intros a d Hd. destruct (S1 a d Hd) as (d' & Hd' & ?).
    destruct (S2 a d' Hd') as (d'' & Hd'' & ?). exists d''. split; [done|]. by etrans.
  - intros a l Hl. destruct (L1 a l Hl) as (l' & Hl' & ?).
    destruct (L2 a l' Hl') as (l'' & Hl'' & ?). exists l''. split; [done|]. by etrans.
Qed.

Section keeps.
Context (P : relation Heap) `{!Reflexive P, !Transitive P}.

Lemma keeps_ret {A} (a : A) : keeps P (mret a).
Proof. intros h. cbn. done. Qed.

Lemma keeps_lift {A} (r : result A) : keeps P (lift r).
Proof. intros h. cbn. done. Qed.

Lemma keeps_bind_at {A B} (m : Py A) (f : A → Py B) h :
  P h (m h).1 → (∀ a h1, m h = (h1, Ok a) → P h1 (f a h1).1) → P h ((m ≫= f) h).1.
Proof.
  intros Hm Hf. unfold mbind, Py_bind.
  destruct (m h) as [h1 [a|e]]; cbn in *; [|done].
  etrans; [exact Hm|]. by apply Hf.
Qed.

Lemma keeps_bind {A B} (m : Py A) (f : A → Py B) :
  keeps P m → (∀ a, keeps P (f a)) → keeps P (m ≫= f).
Proof. intros Hm Hf h. apply keeps_bind_at; [apply Hm|]. intros. apply Hf. Qed.

Lemma keeps_read_encoders a : keeps P (read_encoders a).
Proof. intros h. cbn. done. Qed.
Lemma keeps_read_scalers a : keeps P (read_scalers a).
Proof. intros h. cbn. done. Qed.
Lemma keeps_read_list a : keeps P (read_list a).
Proof. intros h. cbn. done. Qed.

Lemma keeps_reals kw : keeps P (reals kw).
Proof. apply keeps_bind; [apply keeps_read_list|]. intros. apply keeps_ret. Qed.

Lemma keeps_for_each_name body names data :
  (∀ data name, name ∈ names → keeps P (body data name)) →
  keeps P (for_each_name body names data).
Proof.
  revert data. induction names as [|name names IH]; intros data Hbody; cbn.
  - apply keeps_ret.
  - apply keeps_bind; [apply Hbody; left|]. intros data'. apply IH.
    intros ???. apply Hbody. by right.
Qed.

Lemma keeps_encode_constants kw items : keeps P (encode_constants kw items).
Proof.
  induction items as [|[name value] items IH]; cbn; [apply keeps_ret|].
  apply keeps_bind.
  { apply keeps_bind; [apply keeps_read_scalers|]. intros fitted.
    apply keeps_bind; [apply keeps_read_encoders|]. intros encoders.
    destruct (fitted !! name), (encoders !! name);
      repeat (apply keeps_bind; [apply keeps_lift|intros]); apply keeps_ret. }
  intros. apply keeps_bind; [done|]. intros. apply keeps_ret.
Qed.

Lemma keeps_data_to_tensor kw data : keeps P (data_to_tensor kw data).
Proof.
  unfold data_to_tensor.
  apply keeps_bind; [apply keeps_lift|intros].
  apply keeps_bind; [apply keeps_reals|intros].
  apply keeps_bind; [apply keeps_lift|intros]. apply keeps_ret.
Qed.
End keeps.

Lemma Py_bind_Ok {A B} (m : Py A) (f : A → Py B) h h' b :
  (m ≫= f) h = (h', Ok b) → ∃ h1 a, m h = (h1, Ok a) ∧ f a h1 = (h', Ok b).
Proof.
  unfold mbind, Py_bind. destruct (m h) as [h1 [a|e]]; [eauto|done].
Qed.

Lemma lift_Ok {A} (r : result A) h h' a : lift r h = (h', Ok a) → h' = h ∧ r = Ok a.
Proof. unfold lift. by intros [= -> ->]. Qed.

Lemma store_encoder_extends h a d name v :
  encoder_dicts h !! a = Some d → d !! name = None →
  heap_extends h (store_encoder a name v h).1.
Proof.
  intros Hd Hname. unfold store_encoder. rewrite Hd. cbn.
  split_and!; cbn; [|by eauto..].
  intros a' d' Hd'. destruct (decide (a = a')) as [<-|Hne].
  - rewrite lookup_insert_eq. simplify_eq. eexists. split; [done|].
    by apply insert_subseteq.
  - rewrite lookup_insert_ne by done. eauto.
Qed.

Lemma store_scaler_extends h a d name v :
  scaler_dicts h !! a = Some d → d !! name = None →
  heap_extends h (store_scaler a name v h).1.
Proof.
  intros Hd Hname. unfold store_scaler. rewrite Hd. cbn.
  split_and!; cbn; [by eauto| |by eauto].
  intros a' d' Hd'. destruct (decide (a = a')) as [<-|Hne].
  - rewrite lookup_insert_eq. simplify_eq. eexists. split; [done|].
    by apply insert_subseteq.
  - rewrite lookup_insert_ne by done. eauto.
Qed.

Lemma list_append_extends a x : keeps heap_extends (list_append a x).
Proof.
  intros h. unfold list_append. destruct (string_lists h !! a) as [l|] eqn:Hl; [|done].
  split_and!; cbn; [by eauto..|].
  intros a' l' Hl'. destruct (decide (a = a')) as [<-|Hne].
  - rewrite lookup_insert_eq. simplify_eq. eexists. split; [done|].
    by apply prefix_app_r.
  - rewrite lookup_insert_ne by done. eauto.
Qed.

Lemma not_elem_of_dom_lookup {V} (d : gmap string V) name :
  name ∉ dom d → d !! name = None.
Proof. apply not_elem_of_dom. Qed.

Lemma read_encoders_Ok a h h1 d :
  read_encoders a h = (h1, Ok d) → h1 = h ∧ encoder_dicts h !! a = Some d.
Proof. unfold read_encoders. destruct (encoder_dicts h !! a); cbn; by intros [= -> ?]; subst. Qed.
Lemma read_scalers_Ok a h h1 d :
  read_scalers a h = (h1, Ok d) → h1 = h ∧ scaler_dicts h !! a = Some d.
Proof. unfold read_scalers. destruct (scaler_dicts h !! a); cbn; by intros [= -> ?]; subst. Qed.
Lemma read_list_Ok a h h1 l :
  read_list a h = (h1, Ok l) → h1 = h ∧ string_lists h !! a = Some l.
Proof. unfold read_list. destruct (string_lists h !! a); cbn; by intros [= -> ?]; subst. Qed.

(** Steps that only read the heap. *)
Ltac keeps_pure :=
  repeat first
    [ apply (keeps_ret heap_extends) | apply (keeps_lift heap_extends)
    | apply (keeps_read_encoders heap_extends) | apply (keeps_read_scalers heap_extends)
    | apply (keeps_read_list heap_extends) | apply (keeps_reals heap_extends)
    | apply (keeps_encode_constants heap_extends)
    | apply (keeps_data_to_tensor heap_extends)
    | (apply (keeps_bind heap_extends); [|intros]) ];
  try apply _.

(** A transformer is fitted and stored only under a name that has no
    entry, so that the steps of the constructor extend the heap. *)
Lemma encode_categorical_extends kw data name :
  keeps heap_extends (encode_categorical kw data name).
Proof.
  intros h. unfold encode_categorical.
  apply (keeps_bind_at heap_extends); [apply (keeps_read_encoders heap_extends)|]. intros d h1 [-> Hd]%read_encoders_Ok.
  apply (keeps_bind_at heap_extends).
  - case_bool_decide as Hin; [|apply (keeps_ret heap_extends)].
    apply (keeps_bind_at heap_extends); [apply (keeps_lift heap_extends)|]. intros y h1 [-> _]%lift_Ok.
    eapply store_encoder_extends; [done|]. by apply not_elem_of_dom.
  - intros _ h1 _. revert h1.
    apply (keeps_bind heap_extends); [keeps_pure|]. intros entries.
    apply (keeps_bind heap_extends); [keeps_pure|]. intros [entry|]; keeps_pure.
Qed.

Lemma scale_real_extends kw data name :
  keeps heap_extends (scale_real kw data name).
Proof.
  intros h. unfold scale_real.
  apply (keeps_bind_at heap_extends); [apply (keeps_read_scalers heap_extends)|]. intros d h1 [-> Hd]%read_scalers_Ok.
  apply (keeps_bind_at heap_extends).
  - case_bool_decide as Hin; [|apply (keeps_ret heap_extends)].
    apply (keeps_bind_at heap_extends); [apply (keeps_lift heap_extends)|]. intros y h1 [-> _]%lift_Ok.
    apply (keeps_bind_at heap_extends); [apply (keeps_lift heap_extends)|]. intros sc h1 [-> _]%lift_Ok.
    eapply store_scaler_extends; [done|]. by apply not_elem_of_dom.
  - intros _ h1 _. revert h1.
    apply (keeps_bind heap_extends); [keeps_pure|]. intros entries.
    apply (keeps_bind heap_extends); [keeps_pure|]. intros [entry|]; keeps_pure.
Qed.

Lemma append_relative_time_idx_extends kw data :
  keeps heap_extends
    (if add_relative_time_idx kw then
       known ← read_list (time_varying_known_reals kw);
       _ ← (if bool_decide ("relative_time_idx" ∉ known)
            then list_append (time_varying_known_reals kw) "relative_time_idx"
            else mret tt);
       mret (set_column data "relative_time_idx"
               (RealCol (replicate (length (df_index data)) (R_of_Z 0))))
     else mret data).
Proof.
  destruct (add_relative_time_idx kw); keeps_pure.
  case_bool_decide; [apply list_append_extends|keeps_pure].
Qed.

(** Everything that the constructor does to the heap extends it. *)
Lemma init_extends data kw : keeps heap_extends (init data kw).
Proof.
  unfold init.
  do 6 (apply (keeps_bind heap_extends); [keeps_pure|intros]).
  apply (keeps_bind heap_extends); [|intros].
  { apply (keeps_for_each_name heap_extends). intros. apply encode_categorical_extends. }
  do 3 (apply (keeps_bind heap_extends); [keeps_pure|intros]).
  apply (keeps_bind heap_extends); [apply append_relative_time_idx_extends|intros].
  apply (keeps_bind heap_extends); [keeps_pure|intros].
  apply (keeps_bind heap_extends); [|intros].
  { apply (keeps_for_each_name heap_extends). intros. apply scale_real_extends. }
  keeps_pure.
Qed.

(** *** Errors of the configuration *)

(** C8, as the code has it. When the target is one of the
    time-varying known reals, or the index of the table is not unique, the
    constructor raises before it has sorted the table or fitted and stored
    anything: the heap is as it was.  (No check looks for the reserved
    column names.) *)
Theorem configuration_errors_raise_at_once (data : DataFrame) (kw : Kwargs) (h : Heap) :
  (∃ known, string_lists h !! time_varying_known_reals kw = Some known ∧ target kw ∈ known)
  ∨ ¬ NoDup (df_index data) →
  ∃ e, init data kw h = (h, Raise e).
Proof.
  intros Hbad. unfold init.
  unfold mbind at 1, Py_bind at 1, lift at 1.
  destruct (py_assert _ _) as [[]|e]; [|eauto].
  unfold mbind at 1, Py_bind at 1, lift at 1.
  match goal with |- context [match ?r with Ok _ => _ | Raise _ => _ end] =>
    destruct r as [min_idx|e] end; [|eauto].
  unfold mbind at 1, Py_bind at 1, read_list at 1.
  destruct (string_lists h !! time_varying_known_reals kw) as [known|] eqn:Hknown;
    cbn [or_raise]; [|eauto].
  unfold mbind at 1, Py_bind at 1, lift at 1.
  case_bool_decide as Htarget; cbn [py_assert]; [|eauto].
  unfold mbind at 1, Py_bind at 1, lift at 1.
  case_bool_decide as Hunique; cbn [py_assert]; [|eauto].
  destruct Hbad as [(known' & Hk & Hin)|Hdup]; [|done].
  by simplify_eq.
Qed.

(** *** Derived datasets *)

#[local] Instance unchanged_refl : Reflexive unchanged.
Proof. by intros h. Qed.
#[local] Instance unchanged_trans : Transitive unchanged.
Proof. unfold unchanged. by intros h1 h2 h3 -> ->. Qed.

Lemma for_each_name_unchanged body names data h :
  (∀ data name, name ∈ names → (body data name h).1 = h) →
  (for_each_name body names data h).1 = h.
Proof.
  revert data. induction names as [|name names IH]; intros data Hbody; [done|].
  cbn. apply (keeps_bind_at unchanged); [apply Hbody; left|].
  intros data' h1 Hstep. pose proof (Hbody data name ltac:(left)) as Hh.
  rewrite Hstep in Hh. cbn in Hh. subst h1. apply IH. intros ???. apply Hbody. by right.
Qed.

Lemma encode_categorical_unchanged kw data name h encoders :
  encoder_dicts h !! categoricals_encoders kw = Some encoders →
  name ∈ dom encoders →
  (encode_categorical kw data name h).1 = h.
Proof.
  intros Hd Hin. unfold encode_categorical.
  apply (keeps_bind_at unchanged); [done|]. intros d h1 [Heq Hd']%read_encoders_Ok. subst h1.
  rewrite Hd in Hd'. injection Hd' as <-.
  rewrite bool_decide_eq_false_2 by (intros Hn; by apply Hn).
  apply (keeps_bind_at unchanged); [done|]. intros [] h1 Heq.
  assert (h1 = h) as -> by (by injection Heq). clear Heq Hd. revert h.
  apply (keeps_bind unchanged); [apply (keeps_read_encoders unchanged)|]. intros entries.
  apply (keeps_bind unchanged); [apply (keeps_lift unchanged)|]. intros [entry|].
  - repeat (apply (keeps_bind unchanged); [apply (keeps_lift unchanged)|intros]). apply (keeps_ret unchanged).
  - apply (keeps_ret unchanged).
Qed.

Lemma scale_real_unchanged kw data name h fitted :
  scaler_dicts h !! scalers kw = Some fitted →
  name ∈ dom fitted →
  (scale_real kw data name h).1 = h.
Proof.
  intros Hd Hin. unfold scale_real.
  apply (keeps_bind_at unchanged); [done|]. intros d h1 [Heq Hd']%read_scalers_Ok. subst h1.
  rewrite Hd in Hd'. injection Hd' as <-.
  rewrite bool_decide_eq_false_2 by (intros Hn; by apply Hn).
  apply (keeps_bind_at unchanged); [done|]. intros [] h1 Heq.
  assert (h1 = h) as -> by (by injection Heq). clear Heq Hd. revert h.
  apply (keeps_bind unchanged); [apply (keeps_read_scalers unchanged)|]. intros entries.
  apply (keeps_bind unchanged); [apply (keeps_lift unchanged)|]. intros [entry|].
  - repeat (apply (keeps_bind unchanged); [apply (keeps_lift unchanged)|intros]). apply (keeps_ret unchanged).
  - apply (keeps_ret unchanged).
Qed.

Lemma unchanged_bind {A B} (m : Py A) (f : A → Py B) h :
  (m h).1 = h → (∀ a, m h = (h, Ok a) → (f a h).1 = h) → ((m ≫= f) h).1 = h.
Proof.
  unfold mbind, Py_bind. destruct (m h) as [h1 [a|e]]; cbn; intros ->; auto.
Qed.

Lemma reals_Ok kw h h1 names :
  reals kw h = (h1, Ok names) →
  h1 = h ∧ ∃ known, string_lists h !! time_varying_known_reals kw = Some known
                    ∧ names = static_reals kw ++ known ++ time_varying_unknown_reals kw.
Proof.
  unfold reals. intros (h2 & known & [Heq Hk]%read_list_Ok & Hret)%Py_bind_Ok.
  subst h2. injection Hret as <- <-. eauto.
Qed.

(** With every entry in place the constructor fits nothing and leaves
    the heap as it is. *)
Lemma init_unchanged data kw h : covered kw h → (init data kw h).1 = h.
Proof.
  intros (encoders & fitted & known & He & Hs & Hl & Hcat & Hreal & Hrel).
  unfold init.
  do 6 (apply unchanged_bind; [done|intros ? _]).
  apply unchanged_bind.
  { apply for_each_name_unchanged. intros data' name Hname.
    eapply encode_categorical_unchanged; eauto. }
  intros ? _. do 3 (apply unchanged_bind; [done|intros ? _]).
  apply unchanged_bind.
  { destruct (add_relative_time_idx kw); [|done].
    apply unchanged_bind; [done|]. intros known' [_ Hk]%read_list_Ok.
    rewrite Hl in Hk. injection Hk as <-.
    rewrite bool_decide_eq_false_2 by (intros Hn; by apply Hn, Hrel). done. }
  intros ? _. apply unchanged_bind; [apply (keeps_reals unchanged)|].
  intros names (_ & known' & Hk & ->)%reals_Ok.
  rewrite Hl in Hk. injection Hk as <-.
  apply unchanged_bind.
  { apply for_each_name_unchanged. intros data' name Hname.
    eapply scale_real_unchanged; eauto. }
  intros ? _. apply unchanged_bind; [apply (keeps_encode_constants unchanged)|].
  intros ? _. do 2 (apply unchanged_bind; [done|intros ? _]).
  apply unchanged_bind; [apply (keeps_data_to_tensor unchanged)|]. done.
Qed.

Lemma keeps_result {A} (P : relation Heap) (m : Py A) h h1 r :
  keeps P m → m h = (h1, r) → P h h1.
Proof. intros Hm Hr. specialize (Hm h). by rewrite Hr in Hm. Qed.

Lemma init_attrs data kw h h' ds : init data kw h = (h', Ok ds) → attrs ds = kw.
Proof.
  unfold init. intros H.
  repeat (apply Py_bind_Ok in H as (? & ? & _ & H)).
  by injection H as _ <-.
Qed.


(** *** What the constructor leaves in the dictionaries *)

Lemma heap_extends_encoder_dom h h' a name :
  heap_extends h h' →
  (∃ d, encoder_dicts h !! a = Some d ∧ name ∈ dom d) →
  ∃ d, encoder_dicts h' !! a = Some d ∧ name ∈ dom d.
Proof.
  intros (E & _ & _) (d & Hd & Hin). destruct (E a d Hd) as (d' & Hd' & Hsub).
  exists d'. split; [done|]. by apply (subseteq_dom _ _ Hsub).
Qed.

Lemma heap_extends_scaler_dom h h' a name :
  heap_extends h h' →
  (∃ d, scaler_dicts h !! a = Some d ∧ name ∈ dom d) →
  ∃ d, scaler_dicts h' !! a = Some d ∧ name ∈ dom d.
Proof.
  intros (_ & S & _) (d & Hd & Hin). destruct (S a d Hd) as (d' & Hd' & Hsub).
  exists d'. split; [done|]. by apply (subseteq_dom _ _ Hsub).
Qed.

Lemma heap_extends_list_elem h h' a name :
  heap_extends h h' →
  (∃ l, string_lists h !! a = Some l ∧ name ∈ l) →
  ∃ l, string_lists h' !! a = Some l ∧ name ∈ l.
Proof.
  intros (_ & _ & L) (l & Hl & Hin). destruct (L a l Hl) as (l' & Hl' & [k ->]).
  exists (l ++ k). split; [done|]. apply elem_of_app. by left.
Qed.

Lemma encode_categorical_dom kw data name h h1 data1 :
  encode_categorical kw data name h = (h1, Ok data1) →
  ∃ d, encoder_dicts h1 !! categoricals_encoders kw = Some d ∧ name ∈ dom d.
Proof.
  unfold encode_categorical. intros H.
  apply Py_bind_Ok in H as (h2 & d & _ & H).
  apply Py_bind_Ok in H as (h3 & [] & _ & H).
  apply Py_bind_Ok in H as (h4 & d4 & [Heq Hd4]%read_encoders_Ok & H). subst h4.
  apply Py_bind_Ok in H as (h5 & entry & [Heq Hentry]%lift_Ok & H). subst h5.
  assert (h1 = h3) as ->.
  { destruct entry as [encoder|].
    - apply Py_bind_Ok in H as (h6 & y & [Heq _]%lift_Ok & H). subst h6.
      apply Py_bind_Ok in H as (h7 & codes & [Heq _]%lift_Ok & H). subst h7.
      by injection H.
    - by injection H. }
  exists d4. split; [done|]. apply elem_of_dom.
  destruct (d4 !! name); [eauto|done].
Qed.

Lemma scale_real_dom kw data name h h1 data1 :
  scale_real kw data name h = (h1, Ok data1) →
  ∃ d, scaler_dicts h1 !! scalers kw = Some d ∧ name ∈ dom d.
Proof.
  unfold scale_real. intros H.
  apply Py_bind_Ok in H as (h2 & d & _ & H).
  apply Py_bind_Ok in H as (h3 & [] & _ & H).
  apply Py_bind_Ok in H as (h4 & d4 & [Heq Hd4]%read_scalers_Ok & H). subst h4.
  apply Py_bind_Ok in H as (h5 & entry & [Heq Hentry]%lift_Ok & H). subst h5.
  assert (h1 = h3) as ->.
  { destruct entry as [scaler|].
    - apply Py_bind_Ok in H as (h6 & y & [Heq _]%lift_Ok & H). subst h6.
      apply Py_bind_Ok in H as (h7 & codes & [Heq _]%lift_Ok & H). subst h7.
      by injection H.
    - by injection H. }
  exists d4. split; [done|]. apply elem_of_dom.
  destruct (d4 !! name); [eauto|done].
Qed.

Lemma for_each_name_post (Q : string → Heap → Prop) body names data h h' data' :
  (∀ data name, keeps heap_extends (body data name)) →
  (∀ name h1 h2, heap_extends h1 h2 → Q name h1 → Q name h2) →
  (∀ data name h1 h2 data2, body data name h1 = (h2, Ok data2) → Q name h2) →
  for_each_name body names data h = (h', Ok data') →
  ∀ name, name ∈ names → Q name h'.
Proof.
  intros Hkeeps Hmono Hbody. revert data h.
  induction names as [|n names IH]; intros data h H name Hname;
    [by apply elem_of_nil in Hname|].
  cbn in H. apply Py_bind_Ok in H as (h1 & data1 & Hstep & H).
  apply elem_of_cons in Hname as [->|Hname]; [|by eapply IH].
  eapply Hmono; [|by eapply Hbody].
  eapply keeps_result; [|exact H]. apply (keeps_for_each_name heap_extends). auto.
Qed.

(** A constructed dataset has an entry in its dictionary of encoders for
    each of its categoricals, an entry in its dictionary of scalers for
    each real, and, with [add_relative_time_idx], the name of the relative
    time index in its list of known reals. *)
Lemma init_stores_fitted data kw h h' ds :
  init data kw h = (h', Ok ds) →
  (∀ name, name ∈ categoricals kw →
     ∃ d, encoder_dicts h' !! categoricals_encoders kw = Some d ∧ name ∈ dom d)
  ∧ (∀ name, name ∈ static_reals kw ++ time_varying_unknown_reals kw
             ∨ (add_relative_time_idx kw = true ∧ name = "relative_time_idx") →
       ∃ d, scaler_dicts h' !! scalers kw = Some d ∧ name ∈ dom d)
  ∧ (add_relative_time_idx kw = true →
       ∃ l, string_lists h' !! time_varying_known_reals kw = Some l
            ∧ "relative_time_idx" ∈ l).
Proof.
  unfold init. intros H.
  do 6 (apply Py_bind_Ok in H as (? & ? & _ & H)).
  apply Py_bind_Ok in H as (hc & data_c & Hcat & H).
  do 3 (apply Py_bind_Ok in H as (? & ? & [-> _]%lift_Ok & H)).
  apply Py_bind_Ok in H as (hr & data_r & Hrel & H).
  apply Py_bind_Ok in H as (? & names & (-> & known & Hknown & ->)%reals_Ok & H).
  apply Py_bind_Ok in H as (hs & data_s & Hscale & H).
  assert (heap_extends hs h') as Hend.
  { eapply (keeps_result heap_extends); [|exact H]. keeps_pure. }
  assert (heap_extends hr hs) as Hrs.
  { eapply (keeps_result heap_extends); [|exact Hscale].
    apply (keeps_for_each_name heap_extends). intros. apply scale_real_extends. }
  assert (heap_extends hc hr) as Hcr.
  { eapply (keeps_result heap_extends); [|exact Hrel].
    apply append_relative_time_idx_extends. }
  assert (add_relative_time_idx kw = true → "relative_time_idx" ∈ known) as Hin.
  { intros Hadd. rewrite Hadd in Hrel.
    apply Py_bind_Ok in Hrel as (? & known0 & [-> Hk0]%read_list_Ok & Hrel).
    apply Py_bind_Ok in Hrel as (h2 & [] & Happ & Hrel). injection Hrel as <- _.
    case_bool_decide as Hnotin.
    - unfold list_append in Happ. rewrite Hk0 in Happ. injection Happ as <-.
      cbn in Hknown. rewrite lookup_insert_eq in Hknown. injection Hknown as <-.
      apply elem_of_app. right. left.
    - injection Happ as <-. rewrite Hk0 in Hknown. injection Hknown as <-.
      destruct (decide ("relative_time_idx" ∈ known0)); done. }
  split_and!.
  - intros name Hname. eapply heap_extends_encoder_dom;
      [etrans; [exact Hcr|]; etrans; [exact Hrs|exact Hend]|].
    eapply (for_each_name_post
              (λ name h, ∃ d, encoder_dicts h !! categoricals_encoders kw = Some d
                              ∧ name ∈ dom d)); [..|exact Hcat|exact Hname].
    + intros. apply encode_categorical_extends.
    + intros ????. by apply heap_extends_encoder_dom.
    + intros ?????. apply encode_categorical_dom.
  - intros name Hname. eapply heap_extends_scaler_dom; [exact Hend|].
    eapply (for_each_name_post
              (λ name h, ∃ d, scaler_dicts h !! scalers kw = Some d ∧ name ∈ dom d));
      [..|exact Hscale|].
    + intros. apply scale_real_extends.
    + intros ????. by apply heap_extends_scaler_dom.
    + intros ?????. apply scale_real_dom.
    + destruct Hname as [Hname|[Hadd ->]].
      * apply elem_of_app in Hname as [?|?]; apply elem_of_app; [by left|right].
        apply elem_of_app. by right.
      * apply elem_of_app. right. apply elem_of_app. left. by apply Hin.
  - intros Hadd. eapply heap_extends_list_elem; [etrans; [exact Hrs|exact Hend]|]. eauto.
Qed.

(** C10. A call that leaves [categoricals_encoders], [scalers] and
    [time_varying_known_reals] out runs on the three objects that the
    signature created once: the dataset holds their addresses, every entry
    found there is kept and used, what is fitted is stored there, and the
    name of the relative time index is appended to the shared list.  So
    the same call gives another encoder for a column when a dataset was
    constructed before it. *)
Theorem default_arguments_are_shared :
  (∀ data time_idx_arg target_arg group_ids_arg given h h' ds,
     given_categoricals_encoders given = None →
     given_scalers given = None →
     given_time_varying_known_reals given = None →
     new_TimeSeriesDataSet data time_idx_arg target_arg group_ids_arg given h = (h', Ok ds) →
     categoricals_encoders (attrs ds) = default_categoricals_encoders
     ∧ scalers (attrs ds) = default_scalers
     ∧ time_varying_known_reals (attrs ds) = default_time_varying_known_reals
     ∧ heap_extends h h'
     ∧ (∀ name, name ∈ categoricals (attrs ds) →
          ∃ d, encoder_dicts h' !! default_categoricals_encoders = Some d ∧ name ∈ dom d)
     ∧ (∀ name, name ∈ static_reals (attrs ds) ++ time_varying_unknown_reals (attrs ds) →
          ∃ d, scaler_dicts h' !! default_scalers = Some d ∧ name ∈ dom d)
     ∧ (add_relative_time_idx (attrs ds) = true →
          (∃ l, string_lists h' !! default_time_varying_known_reals = Some l
                ∧ "relative_time_idx" ∈ l)
          ∧ ∃ d, scaler_dicts h' !! default_scalers = Some d ∧ "relative_time_idx" ∈ dom d))
  ∧ ∃ h_a ds_a h_first ds_first h_second ds_second,
      new_TimeSeriesDataSet table_a "t" "y" ["g"] given_c heap_at_import = (h_a, Ok ds_a)
      ∧ new_TimeSeriesDataSet table_b "t" "y" ["g"] given_c heap_at_import
        = (h_first, Ok ds_first)
      ∧ new_TimeSeriesDataSet table_b "t" "y" ["g"] given_c h_a = (h_second, Ok ds_second)
      ∧ (encoder_dicts h_first !! categoricals_encoders (attrs ds_first)) ≫= (.!! "c")
        = Some (Some {| add_nan := false; classes_ := [LStr "y"; LStr "z"] |})
      ∧ (encoder_dicts h_second !! categoricals_encoders (attrs ds_second)) ≫= (.!! "c")
        = Some (Some {| add_nan := false; classes_ := [LStr "x"; LStr "y"; LStr "z"] |})
      ∧ data_cat ds_first = [[0; 0]; [1; 1]]
      ∧ data_cat ds_second = [[1; 0]; [2; 1]].
Proof.
  split.
  - intros data ti tg gids given h h' ds He Hs Hl Hnew.
    unfold new_TimeSeriesDataSet in Hnew.
    set (kw := update (signature_defaults ti tg gids) given) in *.
    pose proof (init_attrs _ _ _ _ _ Hnew) as Hattrs.
    pose proof (keeps_result heap_extends _ _ _ _ (init_extends data kw) Hnew) as Hext.
    destruct (init_stores_fitted _ _ _ _ _ Hnew) as (Hcat & Hreal & Hrel).
    assert (categoricals_encoders kw = default_categoricals_encoders) as Hae
      by (unfold kw, update; cbn; by rewrite He).
    assert (scalers kw = default_scalers) as Has
      by (unfold kw, update; cbn; by rewrite Hs).
    assert (time_varying_known_reals kw = default_time_varying_known_reals) as Hal
      by (unfold kw, update; cbn; by rewrite Hl).
    rewrite Hattrs. rewrite Hae, Has, Hal in *.
    split_and!; [done..| | |].
    + done.
    + intros name Hname. apply Hreal. by left.
    + intros Hadd. split; [by apply Hrel|]. apply Hreal. by right.
  - do 6 eexists. split_and!; [vm_compute; reflexivity..].
Qed.

(** ** Further properties of the encoder *)

(** *** The vocabulary of a fitted encoder *)

Lemma mapM_cons {A B} (f : A → result B) (x : A) (l : list A) :
  mapM f (x :: l) = (y ← f x; k ← mapM f l; mret (y :: k)).
Proof. done. Qed.

Lemma NoDup_np_unique {A} `{EqDecision A} (le : A → A → Prop) `{!RelDecision le} l :
  NoDup (np_unique le l).
Proof. unfold np_unique. rewrite merge_sort_Permutation. apply NoDup_remove_dups. Qed.

Lemma NoDup_LabelEncoder_fit y : NoDup (LabelEncoder_fit y).
Proof.
  destruct y; cbn; (apply NoDup_fmap_2; [by intros ?? [= ->]|apply NoDup_np_unique]).
Qed.

Lemma LNaN_not_label y : LNaN ∉ labels_of y.
Proof. destruct y; cbn; by intros (? & ? & _)%list_elem_of_fmap. Qed.

Lemma transform_as_LabelEncoder enc y :
  transform enc y = LabelEncoder_transform (classes_ enc) y.
Proof. unfold transform. destruct (add_nan enc); by rewrite ?encode_nans_id. Qed.

Lemma index_of_lt `{EqDecision A} (x : A) l i :
  index_of x l = Some i → (i < length l)%nat.
Proof. intros Hi. apply index_of_lookup in Hi. by eapply lookup_lt_Some. Qed.

Lemma index_of_first `{EqDecision A} (x : A) l i :
  NoDup l → l !! i = Some x → index_of x l = Some i.
Proof.
  intros Hnd Hi. destruct (index_of x l) as [j|] eqn:Hj.
  - apply index_of_lookup in Hj. f_equal. by eapply NoDup_lookup.
  - pose proof (index_of_elem x l (list_elem_of_lookup_2 _ _ _ Hi)) as [? ?]. congruence.
Qed.

Lemma encode_label_Ok classes v c :
  encode_label classes v = Ok c →
  0 ≤ c < Z.of_nat (length classes) ∧ classes !! Z.to_nat c = Some v.
Proof.
  unfold encode_label. destruct (index_of v classes) as [i|] eqn:Hi; [|done].
  cbn. intros [= <-]. rewrite Nat2Z.id. split.
  - pose proof (index_of_lt _ _ _ Hi). lia.
  - by apply index_of_lookup.
Qed.

Lemma decode_label_lookup classes c v :
  0 ≤ c → classes !! Z.to_nat c = Some v → decode_label classes c = Ok v.
Proof. intros Hc Hv. unfold decode_label. by rewrite bool_decide_eq_true_2, Hv. Qed.

Lemma encode_label_first classes i v :
  NoDup classes → classes !! i = Some v → encode_label classes v = Ok (Z.of_nat i).
Proof. intros Hnd Hv. unfold encode_label. by rewrite (index_of_first _ _ _ Hnd Hv). Qed.

(** The classes of an encoder fitted with [add_nan]: the nan class, then
    the other values of the column. *)
Lemma fit_add_nan_classes (y : column) :
  NoDup (classes_ (fit true y))
  ∧ ∃ rest,
      classes_ (fit true y) = (if is_numeric y then LNaN else LStr "nan") :: rest
      ∧ ∀ v, v ∈ rest ↔ v ∈ labels_of y ∧ v ≠ LStr "nan".
Proof.
  assert (∀ v, v ∈ filter (λ c, is_nan_class c = false) (LabelEncoder_fit y)
               ↔ v ∈ labels_of y ∧ v ≠ LStr "nan") as Hrest.
  { intros v. rewrite list_elem_of_filter, elem_of_LabelEncoder_fit.
    unfold is_nan_class. rewrite bool_decide_eq_false. tauto. }
  unfold fit. cbn. rewrite encode_nans_id. split; [|eauto].
  apply NoDup_cons. split.
  - rewrite Hrest. intros [Hv Hne]. destruct (is_numeric y); [|done].
    by apply LNaN_not_label in Hv.
  - apply NoDup_filter, NoDup_LabelEncoder_fit.
Qed.

Lemma NoDup_fit_classes add_nan_arg y : NoDup (classes_ (fit add_nan_arg y)).
Proof.
  destruct add_nan_arg; [apply fit_add_nan_classes|apply NoDup_LabelEncoder_fit].
Qed.

(** X1. Without [add_nan], [fit] leaves in [classes_] every value of the
    column once and nothing else.  With [add_nan], [classes_] begins with
    the nan class ([np.nan] for a numeric column, the string nan
    otherwise), followed by every other value of the column once: position
    0 belongs to the nan class whether or not the column holds it. *)
Theorem fit_vocabulary (y : column) :
  (NoDup (classes_ (fit false y))
   ∧ ∀ v, v ∈ classes_ (fit false y) ↔ v ∈ labels_of y)
  ∧ (NoDup (classes_ (fit true y))
     ∧ ∃ rest,
         classes_ (fit true y) = (if is_numeric y then LNaN else LStr "nan") :: rest
         ∧ ∀ v, v ∈ rest ↔ v ∈ labels_of y ∧ v ≠ LStr "nan").
Proof.
  split; [|apply fit_add_nan_classes].
  split; [apply NoDup_LabelEncoder_fit|]. intros v. apply elem_of_LabelEncoder_fit.
Qed.







(** ** Further properties of the window index *)

(** *** Tables with gaps *)

Lemma run_length_lookup {A} (P : A → Prop) `{!∀ x, Decision (P x)} (l : list A) j :
  (j < run_length P l)%nat → ∃ x, l !! j = Some x ∧ P x.
Proof.
  revert j. induction l as [|x l IH]; intros j; cbn; [lia|].
  destruct (decide (P x)); [|lia]. destruct j as [|j]; [eauto|].
  intros Hj. apply IH. lia.
Qed.

Lemma run_length_stop {A} (P : A → Prop) `{!∀ x, Decision (P x)} (l : list A) x :
  l !! run_length P l = Some x → ¬ P x.
Proof.
  induction l as [|y l IH]; cbn; [done|].
  destruct (decide (P y)); cbn; [done|]. by intros [= <-].
Qed.

Lemma sorted_by_group_lookup rows i j r r' :
  sorted_by_group rows → rows !! i = Some r → rows !! j = Some r' → (i ≤ j)%nat →
  t_group r ≤ t_group r'.
Proof.
  intros Hs. revert i j. induction Hs as [|x rows Hs IH Hall]; intros i j Hi Hj Hij; [done|].
  destruct i as [|i], j as [|j]; cbn in *; simplify_eq; try lia.
  - rewrite Forall_forall in Hall. apply Hall. by eapply list_elem_of_lookup_2.
  - eapply IH; eauto. lia.
Qed.

Lemma group_times_app l1 l2 g :
  group_times (l1 ++ l2) g = group_times l1 g ++ group_times l2 g.
Proof. unfold group_times. by rewrite filter_app, fmap_app. Qed.

Lemma group_times_nil rows g :
  (∀ r, r ∈ rows → t_group r ≠ g) → group_times rows g = [].
Proof.
  intros H. unfold group_times. rewrite filter_Forall_nil; [done|].
  by apply Forall_forall.
Qed.

Lemma diff_to_next_lookup rows i r :
  rows !! i = Some r →
  diff_to_next rows !! i
  = Some (match head (group_times (drop (S i) rows) (t_group r)) with
          | Some t' => - (t_time r - t')
          | None => - (-1)
          end).
Proof.
  revert i. induction rows as [|x rows IH]; intros i Hi; [done|].
  destruct i as [|i]; cbn in *; [by simplify_eq|]. by apply IH.
Qed.

(** The row after a row of a table sorted by group: a row of the same
    group, or the row was the last of its group. *)
Lemma next_row rows e r d :
  sorted_by_group rows → rows !! e = Some r → diff_to_next rows !! e = Some d →
  (∃ r', rows !! S e = Some r' ∧ t_group r' = t_group r ∧ d = t_time r' - t_time r)
  ∨ ((∀ r', rows !! S e = Some r' → t_group r' ≠ t_group r)
     ∧ d = 1 ∧ last (group_times rows (t_group r)) = Some (t_time r)).
Proof.
  intros Hs Hr Hd. rewrite (diff_to_next_lookup _ _ _ Hr) in Hd. injection Hd as <-.
  destruct (rows !! S e) as [r'|] eqn:Hr'.
  - destruct (decide (t_group r' = t_group r)) as [Heq|Hne].
    + left. exists r'. split_and!; [done..|].
      rewrite (drop_S _ _ _ Hr'), group_times_cons, decide_True by done. cbn. lia.
    + right.
      assert (group_times (drop (S e) rows) (t_group r) = []) as Hnil.
      { apply group_times_nil. intros x Hx Hgx.
        apply list_elem_of_lookup in Hx as [k Hx]. rewrite lookup_drop in Hx.
        pose proof (sorted_by_group_lookup _ _ _ _ _ Hs Hr Hr' ltac:(lia)).
        pose proof (sorted_by_group_lookup _ _ _ _ _ Hs Hr' Hx ltac:(lia)). lia. }
      rewrite Hnil. split_and!; [by intros ? [= <-]|done|].
      rewrite <-(take_drop_middle _ _ _ Hr) at 1.
      rewrite group_times_app, group_times_cons, decide_True, Hnil by done.
      apply last_snoc.
  - right. rewrite (drop_ge rows (S e)) by by apply lookup_ge_None.
    split_and!; [done..|].
    rewrite <-(take_drop_middle _ _ _ Hr) at 1.
    rewrite group_times_app, group_times_cons, decide_True by done.
    rewrite (drop_ge rows (S e)) by by apply lookup_ge_None.
    apply last_snoc.
Qed.

Lemma increasing_times_lookup rows i d :
  increasing_times rows → diff_to_next rows !! i = Some d → 1 ≤ d.
Proof. intros H Hd. apply H. by eapply list_elem_of_lookup_2. Qed.

Lemma diff_to_next_is_Some rows i r :
  rows !! i = Some r → ∃ d, diff_to_next rows !! i = Some d.
Proof. intros Hr. rewrite (diff_to_next_lookup _ _ _ Hr). eauto. Qed.

(** The first time of the group of a row is not after the time of the row. *)
Lemma time_first_le rows i r :
  sorted_by_group rows → increasing_times rows → rows !! i = Some r →
  default (t_time r) (head (group_times rows (t_group r))) ≤ t_time r.
Proof.
  intros Hs Hinc. revert r. induction i as [|i IH]; intros r Hr.
  - destruct rows as [|x rows]; [done|]. cbn in Hr. simplify_eq.
    rewrite group_times_cons, decide_True by done. cbn. lia.
  - destruct (rows !! i) as [r0|] eqn:Hr0.
    2:{ apply lookup_ge_None in Hr0. apply lookup_lt_Some in Hr. lia. }
    destruct (diff_to_next_is_Some _ _ _ Hr0) as [d Hd].
    destruct (next_row rows i r0 d Hs Hr0 Hd) as [(r' & Hr' & Hg & ->)|(Hne & _ & _)].
    + simplify_eq. rewrite Hg. specialize (IH r0 eq_refl).
      pose proof (increasing_times_lookup _ _ _ Hinc Hd).
      destruct (head (group_times rows (t_group r0))); cbn in *; lia.
    + specialize (Hne r Hr).
      rewrite <-(take_drop_middle _ _ _ Hr) at 1.
      rewrite group_times_app, group_times_nil, group_times_cons, decide_True by
        (try done; intros x Hx Hgx;
         apply list_elem_of_lookup in Hx as [k Hx];
         apply lookup_take_Some in Hx as [Hx Hk];
         pose proof (sorted_by_group_lookup _ _ _ _ _ Hs Hx Hr0 ltac:(lia));
         pose proof (sorted_by_group_lookup _ _ _ _ _ Hs Hr0 Hr ltac:(lia)); lia).
      cbn. lia.
Qed.

Section Reach.
Variable cfg : Lengths.
Variable rows : list TableRow.
Hypothesis Hsorted : sorted_by_group rows.

Let df := base_columns rows.

Lemma base_row_facts i b :
  df !! i = Some b →
  ∃ r d, rows !! i = Some r ∧ diff_to_next rows !! i = Some d
    ∧ index_start b = Z.of_nat i ∧ time b = t_time r ∧ group_id b = t_group r
    ∧ time_diff_to_next b = d
    ∧ count b + time_first b = time_last b + 1
    ∧ time_first b = default (t_time r) (head (group_times rows (t_group r)))
    ∧ time_last b = default (t_time r) (last (group_times rows (t_group r))).
Proof.
  intros Hb. apply base_columns_lookup in Hb as (r & d & Hr & Hd & ->).
  exists r, d. split_and!; try done. cbn. lia.
Qed.

(** The rows that a window may hold, seen from its first row. *)
Lemma reach_rows i b j :
  df !! i = Some b → (j ≤ reach cfg df b)%nat →
  ∃ b', df !! (i + j)%nat = Some b' ∧ group_id b' = group_id b
        ∧ time_last b' = time_last b
        ∧ (j ≠ 0%nat → time b' + 1 ≤ max_time cfg b)
        ∧ (increasing_times rows → time b + Z.of_nat j ≤ time b').
Proof.
  intros Hb. induction j as [|j IH]; intros Hj.
  - exists b. rewrite Nat.add_0_r. split_and!; [done..| |lia]. done.
  - destruct IH as (b0 & Hb0 & Hg0 & Hl0 & _ & Ht0); [lia|].
    destruct (run_length_lookup (within cfg b) (drop (S (Z.to_nat (index_start b))) df) j)
      as (b' & Hb' & Hg' & Ht'); [exact Hj|].
    destruct (base_row_facts _ _ Hb) as (r & d & Hr & Hd & Hi & Htr & Hgr & _).
    rewrite lookup_drop, Hi, Nat2Z.id in Hb'.
    replace (S i + j)%nat with (i + S j)%nat in Hb' by lia.
    exists b'. split_and!; [done..| | |].
    + destruct (base_row_facts _ _ Hb') as (r' & ? & _ & _ & _ & _ & Hgr' & _ & _ & _ & Hl').
      destruct (base_row_facts _ _ Hb) as (? & ? & ? & _ & _ & _ & ? & _ & _ & _ & Hl).
      simplify_eq. rewrite Hl', Hl. rewrite Hgr' in Hg'. rewrite Hgr in Hg'.
      rewrite Hg'.
      (* the default is not used: the group of both rows holds a row *)
      destruct (last (group_times rows (t_group r))) as [t|] eqn:Hlast; [done|].
      apply last_None in Hlast.
      assert (t_time r ∈ group_times rows (t_group r)) as Hin.
      { unfold group_times. apply list_elem_of_fmap. exists r. split; [done|].
        apply list_elem_of_filter. split; [done|]. by eapply list_elem_of_lookup_2. }
      rewrite Hlast in Hin. by apply elem_of_nil in Hin.
    + done.
    + intros Hinc. specialize (Ht0 Hinc).
      destruct (base_row_facts _ _ Hb0) as (r0 & d0 & Hr0 & Hd0 & _ & Htr0 & Hgr0 & _).
      destruct (base_row_facts _ _ Hb') as (r' & d' & Hr' & _ & _ & Htr' & Hgr' & _).
      replace (i + S j)%nat with (S (i + j)) in Hr' by lia.
      destruct (next_row rows (i + j) r0 d0 Hsorted Hr0 Hd0)
        as [(r'' & Hr'' & _ & ->)|(Hne & _ & _)].
      * simplify_eq. pose proof (increasing_times_lookup _ _ _ Hinc Hd0). lia.
      * exfalso. apply (Hne r' Hr'). congruence.
Qed.

(** [index_end] of a row after [k] rounds of the loop. *)
Lemma walk_step_reach k :
  walk_step cfg df ((λ b, (b, index_start b + Z.of_nat (k `min` reach cfg df b))) <$> df)
  = Ok ((λ b, (b, index_start b + Z.of_nat (S k `min` reach cfg df b))) <$> df).
Proof.
  unfold walk_step. rewrite mapM_fmap.
  apply mapM_Ok. intros b Hb. apply list_elem_of_lookup in Hb as [i Hb]. cbn -[Nat.min].
  set (L := reach cfg df b).
  destruct (reach_rows i b (k `min` L) Hb ltac:(lia)) as (be & Hbe & Hge & Hle & Hte & _).
  destruct (base_row_facts _ _ Hb) as (r & d & Hr & Hd & Hi & Htr & Hgr & _ & Hc & _ & _).
  rewrite Hi, <-Nat2Z.inj_add, (iloc_lookup _ _ _ Hbe). cbn -[Nat.min]. do 2 f_equal.
  destruct (base_row_facts _ _ Hbe) as (re & de & Hre & Hde & _ & Htre & Hgre & Hdiff & _).
  destruct (decide (k < L)%nat) as [Hlt|Hge'].
  - (* the next row is within the window *)
    destruct (reach_rows i b (S k) Hb ltac:(lia)) as (bn & Hbn & Hgn & _ & Htn & _).
    replace (k `min` L)%nat with k in * by lia.
    replace (S k `min` L)%nat with (S k) by lia.
    destruct (base_row_facts _ _ Hbn) as (rn & dn & Hrn & _ & _ & Htrn & Hgrn & _).
    replace (i + S k)%nat with (S (i + k)) in Hrn by lia.
    destruct (next_row rows (i + k) re de Hsorted Hre Hde)
      as [(r'' & Hr'' & _ & ->)|(Hne & _ & _)].
    + simplify_eq. specialize (Htn ltac:(done)).
      rewrite bool_decide_eq_false_2 by lia. lia.
    + exfalso. apply (Hne rn Hrn). congruence.
  - (* the walk has reached the end of the window *)
    replace (k `min` L)%nat with L in * by lia.
    replace (S k `min` L)%nat with L by lia.
    rewrite bool_decide_eq_true_2; [lia|].
    destruct (next_row rows (i + L) re de Hsorted Hre Hde)
      as [(rn & Hrn & Hgn & ->)|(_ & -> & Hlast)].
    + assert (df !! S (i + L) = Some (base_row rows (S (i + L)) rn
                (default 0 (diff_to_next rows !! S (i + L))))) as Hbn.
      { apply base_columns_lookup. destruct (diff_to_next_is_Some _ _ _ Hrn) as [dn Hdn].
        exists rn, dn. by rewrite Hdn. }
      set (bn := base_row rows _ rn _) in Hbn.
      assert (¬ within cfg b bn) as Hnot.
      { apply (run_length_stop (within cfg b) (drop (S (Z.to_nat (index_start b))) df)).
        fold (reach cfg df b). fold L. rewrite lookup_drop, Hi, Nat2Z.id.
        by replace (S i + L)%nat with (S (i + L)) by lia. }
      unfold within in Hnot. cbn in Hnot.
      assert (t_group rn = group_id b) by congruence.
      lia.
    + rewrite <-Hdiff in *.
      assert (time_last b = time be) as Hlb.
      { rewrite <-Hle. destruct (base_row_facts _ _ Hbe)
          as (? & ? & ? & _ & _ & ? & _ & _ & _ & _ & ->). simplify_eq. by rewrite Hlast. }
      unfold max_time. lia.
Qed.

Lemma walk_loop_reach n k :
  walk_loop cfg df n ((λ b, (b, index_start b + Z.of_nat (k `min` reach cfg df b))) <$> df)
  = Ok ((λ b, (b, index_start b + Z.of_nat ((k + n) `min` reach cfg df b))) <$> df).
Proof.
  revert k. induction n as [|n IH]; intros k; cbn.
  - by rewrite Nat.add_0_r.
  - rewrite walk_step_reach. cbn -[Nat.min]. rewrite IH.
    by replace (S k + n)%nat with (k + S n)%nat by lia.
Qed.

Hypothesis Hincreasing : increasing_times rows.

(** As many rounds as the longest group has time steps are enough. *)
Lemma reach_lt_count i b :
  df !! i = Some b → Z.of_nat (reach cfg df b) < count b.
Proof.
  intros Hb.
  destruct (reach_rows i b (reach cfg df b) Hb ltac:(lia))
    as (be & Hbe & Hge & Hle & Hte & Htime).
  specialize (Htime Hincreasing).
  destruct (base_row_facts _ _ Hb) as (r & d & Hr & Hd & Hi & Htr & Hgr & _ & Hc & Hf & Hl).
  pose proof (time_first_le rows i r Hsorted Hincreasing Hr) as Hfirst.
  rewrite <-Hf, <-Htr in Hfirst.
  destruct (decide (reach cfg df b = 0%nat)) as [->|Hne].
  - assert (time b ≤ time_last b); [|lia].
    rewrite Hl, Htr.
    destruct (last (group_times rows (t_group r))) as [t|] eqn:Hlast; [|cbn; lia]. cbn.
    (* the last time of the group is the time of a row at or after [i] *)
    clear Hbe Hge Hle Hte Htime be.
    assert (∀ n j rj, (length rows - j ≤ n)%nat → rows !! j = Some rj →
              t_group rj = t_group r → t_time rj ≤ t) as Hback.
    { induction n as [|n IH]; intros j rj Hn Hrj Hgj.
      - apply lookup_lt_Some in Hrj. lia.
      - destruct (diff_to_next_is_Some _ _ _ Hrj) as [dj Hdj].
        destruct (next_row rows j rj dj Hsorted Hrj Hdj)
          as [(r' & Hr' & Hg' & ->)|(_ & _ & Hlast')].
        + pose proof (increasing_times_lookup _ _ _ Hincreasing Hdj).
          assert (t_time r' ≤ t); [|lia]. apply (IH (S j) r'); [lia|done|congruence].
        + rewrite Hgj, Hlast in Hlast'. injection Hlast' as ->. lia. }
    by apply (Hback (length rows) i r); [lia|done|done].
  - specialize (Hte Hne). unfold max_time in Hte. lia.
Qed.

Lemma index_end_walk_reach :
  index_end_walk cfg df
  = Ok ((λ b, (b, index_start b + Z.of_nat (reach cfg df b))) <$> df).
Proof.
  unfold index_end_walk.
  rewrite (list_fmap_ext _ (λ b, (b, index_start b + Z.of_nat (0 `min` reach cfg df b))) df)
    by (intros; do 2 f_equal; lia).
  rewrite walk_loop_reach. f_equal. apply list_fmap_ext. intros i b Hb. do 3 f_equal.
  pose proof (reach_lt_count i b Hb).
  pose proof (count_le_count_max df b (list_elem_of_lookup_2 _ _ _ Hb)). lia.
Qed.

End Reach.

(** The frame that [construct_index] builds before filtering, in closed
    form: whichever branch computes [index_end]. *)
Lemma window_index_reach cfg rows :
  sorted_by_group rows → increasing_times rows →
  1 ≤ max_encoder_length cfg + max_prediction_length cfg →
  window_index cfg rows
  = Ok ((λ b, let e := index_start b + Z.of_nat (reach cfg (base_columns rows) b) in
              {| base := b; index_end := e;
                 sequence_length :=
                   time (default b (base_columns rows !! Z.to_nat e)) - time b + 1 |})
        <$> base_columns rows).
Proof.
  intros Hs Hinc Hw. unfold window_index.
  assert ((if any_gap (base_columns rows) then index_end_walk cfg (base_columns rows)
           else Ok (index_end_direct cfg (base_columns rows)))
          = Ok ((λ b, (b, index_start b + Z.of_nat (reach cfg (base_columns rows) b)))
                <$> base_columns rows)) as ->.
  { pose proof (index_end_walk_reach cfg rows Hs Hinc) as Hwalk.
    destruct (any_gap (base_columns rows)) eqn:Hany; [done|].
    rewrite <-Hwalk. symmetry.
    by apply index_end_walk_direct; [|apply any_gap_false|]. }
  cbn. unfold add_sequence_length. rewrite mapM_fmap.
  apply mapM_Ok. intros b Hb. apply list_elem_of_lookup in Hb as [i Hb]. cbn.
  destruct (reach_rows cfg rows Hs i b (reach cfg (base_columns rows) b) Hb ltac:(lia))
    as (be & Hbe & _).
  destruct (base_row_facts rows i b Hb) as (_ & _ & _ & _ & Hi & _).
  rewrite Hi, <-Nat2Z.inj_add, (iloc_lookup _ _ _ Hbe), Nat2Z.id, Hbe. done.
Qed.

Lemma loc_elem df labels out x :
  loc df labels = Ok out → x ∈ out → x ∈ df.
Proof.
  unfold loc. revert out. induction labels as [|l labels IH]; intros out Hout Hx.
  - cbn in Hout. injection Hout as <-. by apply elem_of_nil in Hx.
  - cbn in Hout.
    destruct (filter (λ x, b_label (base x) = l) df) as [|y found] eqn:Hf; [done|].
    cbn in Hout. destruct (mapM _ labels) as [rest|] eqn:Hrest; [|done].
    cbn in Hout. injection Hout as <-.
    change (x ∈ (y :: found) ++ mjoin rest) in Hx.
    apply elem_of_app in Hx as [Hx|Hx].
    + rewrite <-Hf in Hx. by apply list_elem_of_filter in Hx as [_ ?].
    + by apply (IH (mjoin rest)).
Qed.

(** The row of the frame for the row [b] of the table. *)
Lemma reach_window cfg rows i b :
  sorted_by_group rows → increasing_times rows →
  1 ≤ max_encoder_length cfg + max_prediction_length cfg →
  base_columns rows !! i = Some b →
  let e := index_start b + Z.of_nat (reach cfg (base_columns rows) b) in
  let seq_len := time (default b (base_columns rows !! Z.to_nat e)) - time b + 1 in
  0 ≤ index_start b ≤ e ∧ e < Z.of_nat (length rows)
  ∧ 1 ≤ seq_len ≤ max_encoder_length cfg + max_prediction_length cfg
  ∧ e - index_start b + 1 ≤ seq_len
  ∧ ∃ b_end, base_columns rows !! Z.to_nat e = Some b_end
             ∧ group_id b_end = group_id b
             ∧ seq_len = time b_end - time b + 1.
Proof.
  intros Hs Hinc Hw Hb. cbn zeta.
  set (L := reach cfg (base_columns rows) b).
  destruct (reach_rows cfg rows Hs i b L Hb ltac:(lia)) as (be & Hbe & Hge & _ & Hte & Htime).
  specialize (Htime Hinc).
  destruct (base_row_facts rows i b Hb) as (_ & _ & _ & _ & Hi & _).
  rewrite Hi, <-Nat2Z.inj_add, Nat2Z.id, Hbe. cbn.
  pose proof (lookup_lt_Some _ _ _ Hbe) as Hlt. rewrite base_columns_length in Hlt.
  split_and!; try lia.
  - destruct (decide (L = 0%nat)) as [HL|HL].
    + rewrite HL, Nat.add_0_r in Hbe. simplify_eq. lia.
    + specialize (Hte HL). unfold max_time in Hte. lia.
  - exists be. done.
Qed.



(** A window that may reach the last time step of its group ends there. *)
Lemma window_reaches_last cfg rows i b :
  sorted_by_group rows → increasing_times rows → base_columns rows !! i = Some b →
  time_last b - time b + 1 ≤ max_encoder_length cfg + max_prediction_length cfg →
  ∃ be, base_columns rows !! (i + reach cfg (base_columns rows) b)%nat = Some be
        ∧ time be = time_last b.
Proof.
  intros Hs Hinc Hb Hfit.
  set (L := reach cfg (base_columns rows) b).
  destruct (reach_rows cfg rows Hs i b L Hb ltac:(lia)) as (be & Hbe & Hge & Hle & _ & _).
  exists be. split; [done|].
  destruct (base_row_facts rows _ be Hbe)
    as (re & de & Hre & Hde & _ & Htre & Hgre & _ & _ & _ & Hlast).
  destruct (next_row rows _ re de Hs Hre Hde) as [(rn & Hrn & Hgn & ->)|(_ & _ & Hl)].
  - exfalso.
    destruct (diff_to_next_is_Some _ _ _ Hrn) as [dn Hdn].
    assert (base_columns rows !! S (i + L) = Some (base_row rows (S (i + L)) rn dn)) as Hbn
      by (apply base_columns_lookup; eauto).
    assert (¬ within cfg b (base_row rows (S (i + L)) rn dn)) as Hnot.
    { apply (run_length_stop (within cfg b)
               (drop (S (Z.to_nat (index_start b))) (base_columns rows))).
      fold (reach cfg (base_columns rows) b). fold L.
      destruct (base_row_facts rows i b Hb) as (_ & _ & _ & _ & Hi & _).
      rewrite lookup_drop, Hi, Nat2Z.id.
      by replace (S i + L)%nat with (S (i + L)) by lia. }
    apply Hnot. split; [cbn; congruence|]. cbn.
    (* the next row is not after the last time of the group *)
    assert (t_time rn ≤ time_last b); [|unfold max_time;
      destruct (base_row_facts rows i b Hb) as (_ & _ & _ & _ & _ & _ & _ & _ & Hc & _);
      lia].
    rewrite <-Hle, Hlast. rewrite <-Hgn.
    destruct (last (group_times rows (t_group rn))) as [t|] eqn:Hlast'.
    2:{ exfalso. apply last_None in Hlast'.
        assert (t_time rn ∈ group_times rows (t_group rn)) as Hin.
        { unfold group_times. apply list_elem_of_fmap. exists rn. split; [done|].
          apply list_elem_of_filter. split; [done|]. by eapply list_elem_of_lookup_2. }
        rewrite Hlast' in Hin. by apply elem_of_nil in Hin. }
    cbn.
    assert (∀ n j rj, (length rows - j ≤ n)%nat → rows !! j = Some rj →
              t_group rj = t_group rn → t_time rj ≤ t) as Hback.
    { induction n as [|n IH]; intros j rj Hn Hrj Hgj.
      - apply lookup_lt_Some in Hrj. lia.
      - destruct (diff_to_next_is_Some _ _ _ Hrj) as [dj Hdj].
        destruct (next_row rows j rj dj Hs Hrj Hdj)
          as [(r' & Hr' & Hg' & ->)|(_ & _ & Hlast'')].
        + pose proof (increasing_times_lookup _ _ _ Hinc Hdj).
          assert (t_time r' ≤ t); [|lia]. apply (IH (S j) r'); [lia|done|congruence].
        + rewrite Hgj, Hlast' in Hlast''. injection Hlast'' as ->. lia. }
    by apply (Hback (length rows) (S (i + L)) rn); [lia|done|done].
  - rewrite Hlast, Hl in Hle. cbn in Hle. lia.
Qed.


(** ** Further properties of the accessor *)

(** *** The stages of [__getitem__] *)

Lemma getitem_stages ds idx draws h r :
  (getitem ds idx draws h).2 = Ok r →
  ∃ real_names cont cat enc dec w,
    reals (attrs ds) h = (h, Ok real_names)
    ∧ read_window ds real_names idx = Ok (cont, cat)
    ∧ window_lengths (ds_lengths ds) cat = Ok (enc, dec)
    ∧ (if randomize_length (attrs ds) is Some _
       then randomize (attrs ds) (ds_lengths ds) draws
              {| w_cont := cont; w_cat := cat;
                 w_encoder_length := enc; w_decoder_length := dec |}
       else Ok {| w_cont := cont; w_cat := cat;
                  w_encoder_length := enc; w_decoder_length := dec |}) = Ok w
    ∧ split_example (attrs ds) (ds_lengths ds) real_names w = Ok r.
Proof.
  intros H. destruct (getitem_Ok _ _ _ _ _ H) as (real_names & _ & Hreals & _).
  rewrite (getitem_unfold _ _ _ _ _ Hreals) in H.
  apply bind_Ok in H as ([cont cat] & Hread & H).
  apply bind_Ok in H as ([enc dec] & Hlens & H).
  apply bind_Ok in H as (w & Hw & H).
  exists real_names, cont, cat, enc, dec, w. done.
Qed.

Lemma mapM_lookup_Ok {A B} (f : A → result B) (l : list A) (k : list B) i y :
  mapM f l = Ok k → k !! i = Some y → ∃ x, l !! i = Some x ∧ f x = Ok y.
Proof.
  intros H%mapM_Ok_inv Hy.
  destruct (Forall2_lookup_r _ _ _ _ _ H Hy) as (x & ? & ?). eauto.
Qed.

Lemma set_cell_Ok {A} (j : nat) (v : A) row row' :
  set_cell j v row = Ok row' → row' = <[j := v]> row ∧ (j < length row)%nat.
Proof. unfold set_cell. case_bool_decide; [|done]. by intros [= <-]. Qed.

Lemma list_index_nonneg `{EqDecision A} (x : A) l j : list_index x l = Ok j → 0 ≤ j.
Proof.
  unfold list_index. destruct (index_of x l); cbn; [|done]. intros [= <-]. lia.
Qed.

(** X11. With [add_relative_time_idx], the column [relative_time_idx] of
    the returned [x_cont] holds on row [i] the entry [i - encoder_length] of
    [torch.arange(-encoder_length, decoder_length) / max_encoder_length]:
    the first decoder row has position 0. *)
Theorem relative_time_idx_column (ds : TimeSeriesDataSet) (idx : Z) (draws : Z * Z)
    (h : Heap) (ex : Example) (label : Target) :
  (getitem ds idx draws h).2 = Ok (ex, label) →
  add_relative_time_idx (attrs ds) = true →
  ∃ real_names j,
    reals (attrs ds) h = (h, Ok real_names)
    ∧ list_index "relative_time_idx" real_names = Ok j
    ∧ ∀ (i : nat) row, x_cont ex !! i = Some row →
        row !! Z.to_nat j
        = Some (R_rel_time (Z.of_nat i - encoder_length ex)
                           (max_encoder_length (ds_lengths ds))).
Proof.
  intros H Hrel. destruct (getitem_Ok _ _ _ _ _ H) as (real_names & w & Hreals & Hsplit).
  exists real_names. unfold split_example in Hsplit.
  apply bind_Ok in Hsplit as ([] & _ & Hsplit).
  apply bind_Ok in Hsplit as ([] & _ & Hsplit).
  apply bind_Ok in Hsplit as (last_time & _ & Hsplit).
  apply bind_Ok in Hsplit as ([] & _ & Hsplit).
  apply bind_Ok in Hsplit as (target_column & _ & Hsplit).
  apply bind_Ok in Hsplit as (cont & Hcont & Hsplit).
  injection Hsplit as <- <-. cbn. rewrite Hrel in Hcont.
  apply bind_Ok in Hcont as (j & Hj & Hcont).
  apply bind_Ok in Hcont as ([] & _ & Hcont).
  exists j. split_and!; [done..|]. intros i row Hrow.
  destruct (mapM_lookup_Ok _ _ _ _ _ Hcont Hrow) as ([i' row0] & Hz & Hset).
  apply lookup_zip_with_Some in Hz as (? & ? & [= <- <-] & Hi' & _).
  apply lookup_seq in Hi' as [-> _].
  apply set_cell_Ok in Hset as [-> Hlt]. rewrite list_lookup_insert_eq by done.
  do 2 f_equal. lia.
Qed.

Lemma zero_cells_lookup (columns : list Z) (row row' : list Z) :
  foldr (λ j r, r ≫= set_cell (Z.to_nat j) 0) (Ok row) columns = Ok row' →
  ∀ j, j ∈ columns → row' !! Z.to_nat j = Some 0.
Proof.
  revert row'. induction columns as [|c columns IH]; intros row' H j Hj.
  - by apply elem_of_nil in Hj.
  - cbn in H. apply bind_Ok in H as (row'' & Hrest & Hset).
    apply set_cell_Ok in Hset as [-> Hlt].
    destruct (decide (Z.to_nat j = Z.to_nat c)) as [->|Hne].
    + by rewrite list_lookup_insert_eq.
    + rewrite list_lookup_insert_ne by done.
      apply elem_of_cons in Hj as [->|Hj]; [done|]. by apply (IH row'').
Qed.

Lemma randomize_dropout kw cfg draws w w' :
  randomize kw cfg draws w = Ok w' →
  w_encoder_length w' = 0 →
  dropout_categoricals kw ≠ [] →
  ∃ columns,
    mapM (λ c, list_index c (categoricals kw)) (dropout_categoricals kw) = Ok columns
    ∧ ∀ row j, row ∈ w_cat w' → j ∈ columns → row !! Z.to_nat j = Some 0.
Proof.
  intros Hw Henc Hne.
  assert ((0 < length (dropout_categoricals kw))%nat) as Hlen
    by (destruct (dropout_categoricals kw); [done|cbn; lia]).
  unfold randomize in Hw. cbv zeta in Hw.
  repeat case_bool_decide;
    try (injection Hw as <-; cbn in *; tauto);
    (apply bind_Ok in Hw as (columns & Hcols & Hw);
     apply bind_Ok in Hw as (cat' & Hcat' & Hw); injection Hw as <-;
     exists columns; split; [done|]; cbn; intros row j Hrow Hj;
     apply list_elem_of_lookup in Hrow as [i Hrow];
     destruct (mapM_lookup_Ok _ _ _ _ _ Hcat' Hrow) as (row1 & _ & Hzero);
     by apply (zero_cells_lookup _ _ _ Hzero)).
Qed.

(** X12. With randomisation enabled, an example whose encoder length is 0
    has code 0, the code of nan, in the column of every dropout categorical
    on every row of [x_cat]. *)
Theorem dropout_categoricals_are_zeroed (ds : TimeSeriesDataSet) (idx : Z) (draws : Z * Z)
    (h : Heap) (ex : Example) (label : Target) :
  (getitem ds idx draws h).2 = Ok (ex, label) →
  is_Some (randomize_length (attrs ds)) →
  encoder_length ex = 0 →
  ∀ c, c ∈ dropout_categoricals (attrs ds) →
    ∃ j, list_index c (categoricals (attrs ds)) = Ok j
         ∧ ∀ row v, row ∈ x_cat ex → row !! Z.to_nat j = Some v → v = 0.
Proof.
  intros H [conc Hrand] Henc c Hc.
  destruct (getitem_stages _ _ _ _ _ H)
    as (real_names & cont & cat & enc & dec & w & _ & _ & _ & Hw & Hsplit).
  rewrite Hrand in Hw.
  pose proof (split_example_Ok _ _ _ _ _ _ Hsplit) as (Henc' & _).
  rewrite Henc in Henc'.
  destruct (randomize_dropout _ _ _ _ _ Hw (eq_sym Henc')) as (columns & Hcols & Hzero).
  { intros Hnil. rewrite Hnil in Hc. by apply elem_of_nil in Hc. }
  apply list_elem_of_lookup in Hc as [n Hc].
  apply mapM_Ok_inv in Hcols.
  destruct (Forall2_lookup_l _ _ _ _ _ Hcols Hc) as (j & Hj & Hidx).
  exists j. split; [done|]. intros row v Hrow Hv.
  unfold split_example in Hsplit.
  apply bind_Ok in Hsplit as ([] & _ & Hsplit).
  apply bind_Ok in Hsplit as ([] & _ & Hsplit).
  apply bind_Ok in Hsplit as (last_time & _ & Hsplit).
  apply bind_Ok in Hsplit as ([] & _ & Hsplit).
  apply bind_Ok in Hsplit as (target_column & _ & Hsplit).
  apply bind_Ok in Hsplit as (cont' & _ & Hsplit).
  injection Hsplit as <- <-. cbn in Hrow.
  apply list_elem_of_fmap in Hrow as (row0 & -> & Hrow0).
  pose proof (Hzero row0 j Hrow0 (list_elem_of_lookup_2 _ _ _ Hj)) as H0.
  unfold py_slice_to in Hv. apply lookup_take_Some in Hv as [Hv _]. congruence.
Qed.

(** *** Rows repeated over the gaps *)

Lemma py_slice_from_1 {A} (l : list A) : py_slice_from 1 l = drop 1 l.
Proof.
  unfold py_slice_from, slice_bound. rewrite bool_decide_eq_false_2 by lia.
  destruct l as [|x l]; [done|]. cbn [length].
  by replace (Z.to_nat (1 `min` Z.of_nat (S (length l)))) with 1%nat by lia.
Qed.

Lemma py_slice_to_minus_1 {A} (l : list A) : py_slice_to (-1) l = take (length l - 1) l.
Proof.
  unfold py_slice_to, slice_bound. rewrite bool_decide_eq_true_2 by lia.
  f_equal. lia.
Qed.

Lemma steps_to_next_cons t t' rest :
  steps_to_next (t :: t' :: rest) = (t' - t) :: steps_to_next (t' :: rest).
Proof. done. Qed.

Lemma repetitions_steps (times : list Z) :
  zip_with (λ next t, next - t) (py_slice_from 1 times) (py_slice_to (-1) times) ++ [1]
  = steps_to_next times.
Proof.
  rewrite py_slice_from_1, py_slice_to_minus_1.
  induction times as [|t [|t' rest] IH]; [done..|].
  rewrite steps_to_next_cons, <-IH. cbn. do 3 f_equal. by rewrite Nat.sub_0_r.
Qed.

Lemma steps_to_next_length times : times ≠ [] → length (steps_to_next times) = length times.
Proof.
  induction times as [|t [|t' rest] IH]; [done..|]. intros _.
  rewrite steps_to_next_cons. cbn [length]. by rewrite IH.
Qed.

Lemma ascending_tail t times : ascending (t :: times) → ascending times.
Proof. intros H i a b Ha Hb. by apply (H (S i)). Qed.

Lemma ascending_le times i j a b :
  ascending times → times !! i = Some a → times !! j = Some b → (i ≤ j)%nat →
  a + Z.of_nat (j - i) ≤ b.
Proof.
  intros Hasc Ha. revert b. induction j as [|j IH]; intros b Hb Hij.
  - assert (i = 0%nat) as -> by lia. simplify_eq. lia.
  - destruct (decide (i = S j)) as [->|Hne].
    + simplify_eq. lia.
    + destruct (times !! j) as [c|] eqn:Hc.
      2:{ apply lookup_ge_None in Hc. apply lookup_lt_Some in Hb. lia. }
      specialize (IH c eq_refl ltac:(lia)). pose proof (Hasc j c b Hc Hb). lia.
Qed.

Lemma interleave_cons (off n : nat) (r : Z) (reps : list Z) :
  mjoin (zip_with (λ i r, replicate (Z.to_nat r) i) (seq off (S n)) (r :: reps))
  = replicate (Z.to_nat r) off
    ++ mjoin (zip_with (λ i r, replicate (Z.to_nat r) i) (seq (S off) n) reps).
Proof. done. Qed.

(** [indices] of line 318 for the rows [off], [off + 1], ... with the
    times [times]: row [off + i] stands at the offsets from [t_i - t_0] up
    to the time of the next row. *)
Lemma interleave_spec (off : nat) (times : list Z) t0 tn :
  ascending times → head times = Some t0 → last times = Some tn →
  let indices :=
    mjoin (zip_with (λ i r, replicate (Z.to_nat r) i)
                    (seq off (length times)) (steps_to_next times)) in
  Z.of_nat (length indices) = tn - t0 + 1
  ∧ (∀ (k : nat) idx, indices !! k = Some idx →
       ∃ (i : nat) t, idx = (off + i)%nat ∧ times !! i = Some t ∧ t ≤ t0 + Z.of_nat k
                      ∧ ∀ t', times !! S i = Some t' → t0 + Z.of_nat k < t')
  ∧ (∀ (i : nat) t, times !! i = Some t →
       indices !! Z.to_nat (t - t0) = Some (off + i)%nat).
Proof.
  revert off t0. induction times as [|t [|t' rest] IH]; intros off t0 Hasc Hh Hl; [done|..].
  - cbn in Hh, Hl. simplify_eq. cbn. change (Z.to_nat 1) with 1%nat. cbn. split_and!.
    + lia.
    + intros [|k] idx; [|done]. intros [= <-]. exists 0%nat, t0.
      split_and!; [lia|done|lia|done].
    + intros [|i] t; [|done]. intros [= <-]. by rewrite Z.sub_diag, Nat.add_0_r.
  - cbn in Hh. injection Hh as ->.
    assert (t0 < t') as Hlt by by apply (Hasc 0%nat).
    specialize (IH (S off) t' (ascending_tail _ _ Hasc) eq_refl Hl).
    cbn zeta in IH. destruct IH as (IHlen & IHidx & IHstart).
    rewrite steps_to_next_cons.
    change (length (t0 :: t' :: rest)) with (S (length (t' :: rest))).
    rewrite interleave_cons.
    set (rest_indices := mjoin (zip_with _ (seq (S off) (length (t' :: rest))) _)) in *.
    assert (length (replicate (Z.to_nat (t' - t0)) off) = Z.to_nat (t' - t0)) as Hrep
      by apply length_replicate.
    split_and!.
    + rewrite length_app, Hrep. lia.
    + intros k idx Hk. destruct (decide (k < Z.to_nat (t' - t0))%nat) as [Hin|Hout].
      * rewrite lookup_app_l in Hk by lia. apply lookup_replicate in Hk as [-> _].
        exists 0%nat, t0. split_and!; [lia|done|lia|]. intros ? [= <-]. lia.
      * rewrite lookup_app_r in Hk by lia. rewrite Hrep in Hk.
        destruct (IHidx _ _ Hk) as (i & ti & -> & Hti & Hle & Hnext).
        exists (S i), ti. split_and!; [lia|done|lia|].
        intros t'' Ht''. specialize (Hnext t'' Ht''). lia.
    + intros [|i] ti Hti.
      * cbn in Hti. injection Hti as <-. rewrite Z.sub_diag, Nat.add_0_r.
        rewrite lookup_app_l by (rewrite Hrep; lia).
        apply lookup_replicate. split; [done|lia].
      * cbn in Hti.
        pose proof (ascending_le (t' :: rest) 0 i t' ti (ascending_tail _ _ Hasc)
                      eq_refl Hti ltac:(lia)) as Hle.
        rewrite lookup_app_r by (rewrite Hrep; lia). rewrite Hrep.
        replace (Z.to_nat (ti - t0) - Z.to_nat (t' - t0))%nat with (Z.to_nat (ti - t')) by lia.
        rewrite (IHstart i ti Hti). f_equal. lia.
Qed.

Lemma take_rows_lookup {A} (perm : list nat) (l : list A) k :
  (∀ idx, idx ∈ perm → (idx < length l)%nat) →
  take_rows perm l !! k = perm !! k ≫= (l !!.).
Proof.
  unfold take_rows. revert k. induction perm as [|i perm IH]; intros k Hlt; [done|].
  destruct (lookup_lt_is_Some_2 l i) as [x Hx]; [apply Hlt; left|].
  cbn. rewrite Hx. destruct k as [|k]; cbn; [done|].
  apply IH. intros idx Hidx. apply Hlt. by right.
Qed.

Lemma take_rows_length {A} (perm : list nat) (l : list A) :
  (∀ idx, idx ∈ perm → (idx < length l)%nat) → length (take_rows perm l) = length perm.
Proof.
  unfold take_rows. induction perm as [|i perm IH]; intros Hlt; [done|].
  destruct (lookup_lt_is_Some_2 l i) as [x Hx]; [apply Hlt; left|].
  cbn. rewrite Hx. cbn. rewrite IH; [done|]. intros idx Hidx. apply Hlt. by right.
Qed.

(** The constants of the fill strategy go to repeated rows only. *)
Lemma make_replacements_Ok real_names repeated fills cont cont' :
  make_replacements real_names repeated fills cont = Ok cont' →
  length cont' = length cont
  ∧ ∀ k, repeated !! k = Some false → cont' !! k = cont !! k.
Proof.
  revert cont. induction fills as [|[name value] fills IH]; intros cont H.
  - cbn in H. by injection H as <-.
  - cbn in H.
    apply bind_Ok in H as (col_idx & _ & H).
    apply bind_Ok in H as (v & _ & H).
    apply bind_Ok in H as ([] & Hmask & H).
    apply bind_Ok in H as (cont1 & Hcont1 & H).
    case_bool_decide as Hlen; [|done].
    destruct (IH _ H) as [IHlen IHrows].
    pose proof (mapM_length _ _ _ Hcont1) as Hlen1.
    rewrite length_zip_with in Hlen1.
    split; [lia|]. intros k Hk. rewrite (IHrows k Hk).
    destruct (cont1 !! k) as [row1|] eqn:Hrow1.
    + destruct (mapM_lookup_Ok _ _ _ _ _ Hcont1 Hrow1) as ([flag row] & Hz & Hf).
      apply lookup_zip_with_Some in Hz as (? & ? & [= <- <-] & Hflag & Hrow).
      rewrite Hk in Hflag. injection Hflag as <-. by injection Hf as <-.
    + apply lookup_ge_None in Hrow1. symmetry. apply lookup_ge_None. lia.
Qed.

(** X13. Filling the gaps of a window whose times go up: the result has
    one row for every time step from the first time to the last one, in
    both tensors; a row of [data_cat] at offset [k] is the stored row with
    the latest time up to [first + k]; and at the offset of an observed time
    both tensors hold the stored row, whatever the fill constants. *)
Theorem fill_missing_forward_fills (real_names : list string)
    (fills : list (string * label)) (cont cont' : list (list R)) (cat cat' : list (list Z))
    (times : list Z) (t0 tn : Z) :
  column_at (-1) cat = Ok times →
  ascending times →
  head times = Some t0 →
  last times = Some tn →
  length cont = length cat →
  fill_missing real_names fills cont cat = Ok (cont', cat') →
  Z.of_nat (length cat') = tn - t0 + 1
  ∧ length cont' = length cat'
  ∧ (∀ (k : nat) row, cat' !! k = Some row →
       ∃ (i : nat) t, cat !! i = Some row ∧ times !! i = Some t
                      ∧ t ≤ t0 + Z.of_nat k
                      ∧ ∀ t', times !! S i = Some t' → t0 + Z.of_nat k < t')
  ∧ (∀ (i : nat) t, times !! i = Some t →
       cat' !! Z.to_nat (t - t0) = cat !! i ∧ cont' !! Z.to_nat (t - t0) = cont !! i).
Proof.
  intros Htimes Hasc Hh Hl Hlen H.
  pose proof (mapM_length _ _ _ Htimes) as Hn.
  unfold fill_missing in H. rewrite Htimes in H. cbn [mbind result_bind] in H.
  rewrite repetitions_steps in H.
  apply bind_Ok in H as (indices & Hind & H).
  apply bind_Ok in H as (cont1 & Hrep & H). injection H as <- <-.
  unfold repeat_interleave in Hind. case_bool_decide as Hreps; [|done].
  injection Hind as <-. rewrite <-Hn in *.
  destruct (interleave_spec 0 times t0 tn Hasc Hh Hl) as (Hlength & Hidx & Hstart).
  cbn zeta in Hlength, Hidx, Hstart.
  set (indices := mjoin _) in *.
  assert (∀ idx, idx ∈ indices → (idx < length times)%nat) as Hrange.
  { intros idx [k Hk]%list_elem_of_lookup.
    destruct (Hidx k idx Hk) as (i & t & -> & Ht & _). apply lookup_lt_Some in Ht. lia. }
  assert (length (take_rows indices cat) = length indices) as Hcat_len
    by (apply take_rows_length; intros; rewrite <-Hn; auto).
  assert (length (take_rows indices cont) = length indices) as Hcont_len
    by (apply take_rows_length; intros; rewrite Hlen; auto).
  destruct (make_replacements_Ok _ _ _ _ _ Hrep) as [Hlen' Hkeep].
  split_and!.
  - by rewrite Hcat_len.
  - congruence.
  - intros k row Hrow.
    rewrite take_rows_lookup in Hrow by (intros; rewrite <-Hn; auto).
    destruct (indices !! k) as [idx|] eqn:Hk; [|done]. cbn in Hrow.
    destruct (Hidx k idx Hk) as (i & t & -> & Ht & Hle & Hnext). eauto 10.
  - intros i t Ht. pose proof (Hstart i t Ht) as Hi. cbn in Hi.
    pose proof (ascending_le times 0 i t0 t Hasc) as Hge.
    rewrite <-head_lookup in Hge. specialize (Hge Hh Ht ltac:(lia)).
    split.
    + rewrite take_rows_lookup by (intros; rewrite <-Hn; auto). by rewrite Hi.
    + rewrite Hkeep.
      * rewrite take_rows_lookup by (intros; rewrite Hlen; auto). by rewrite Hi.
      * (* the row at the offset of an observed time is not a repetition *)
        destruct (Z.to_nat (t - t0)) as [|k] eqn:Hoff; [done|].
        change (zip_with (λ a b : nat, bool_decide (a = b)) (py_slice_from 1 indices)
                         (py_slice_to (-1) indices) !! k = Some false).
        rewrite py_slice_from_1, py_slice_to_minus_1.
        destruct (indices !! k) as [prev|] eqn:Hprev.
        2:{ apply lookup_ge_None in Hprev. apply lookup_lt_Some in Hi. lia. }
        rewrite lookup_zip_with, lookup_drop. change (1 + k)%nat with (S k). rewrite Hi.
        rewrite lookup_take_lt by (apply lookup_lt_Some in Hi; lia). rewrite Hprev. cbn.
        f_equal. apply bool_decide_eq_false_2. intros <-.
        destruct (Hidx k i Hprev) as (i' & t' & Hi' & Ht' & Hle & _).
        assert (i' = i) as -> by lia. simplify_eq. lia.
Qed.

(** ** Further properties of construction *)

(** *** What a constructed dataset holds *)

Lemma foldr_min_spec (t : Z) (rest : list Z) :
  foldr Z.min t rest ∈ t :: rest ∧ ∀ u, u ∈ t :: rest → foldr Z.min t rest ≤ u.
Proof.
  induction rest as [|x rest [IHin IHle]]; cbn.
  - split; [left|]. intros ? ->%list_elem_of_singleton. lia.
  - split.
    + destruct (Z.min_spec x (foldr Z.min t rest)) as [[_ ->]|[_ ->]].
      * right. left.
      * apply elem_of_cons in IHin as [->|?]; [left|right; by right].
    + intros u Hu. apply elem_of_cons in Hu as [->|Hu].
      * specialize (IHle t ltac:(left)). lia.
      * apply elem_of_cons in Hu as [->|Hu]; [lia|].
        specialize (IHle u ltac:(by right)). lia.
Qed.

Lemma column_min_spec y m :
  column_min y = Ok m →
  ∃ times, y = IntCol times ∧ m ∈ times ∧ ∀ t, t ∈ times → m ≤ t.
Proof.
  unfold column_min. destruct y as [|times|]; cbn; try done.
  destruct times as [|t rest]; [done|]. intros [= <-]. exists (t :: rest).
  split; [done|]. apply foldr_min_spec.
Qed.

Lemma get_column_Ok data name y :
  get_column data name = Ok y → df_columns data !! name = Some y.
Proof. unfold get_column. by destruct (df_columns data !! name); intros [= <-]. Qed.


(** *** The rows of the tensors *)

Lemma rows_of_length {A} n (cols : list (list A)) : length (rows_of n cols) = n.
Proof. unfold rows_of. by rewrite length_fmap, length_seq. Qed.

Lemma row_keys_length data names keys :
  row_keys data names = Ok keys → length keys = length (df_index data).
Proof.
  unfold row_keys. intros (cols & _ & H)%bind_Ok. injection H as <-. apply rows_of_length.
Qed.

Lemma sort_values_index data names sorted :
  sort_values data names = Ok sorted →
  length (df_index sorted) = length (df_index data).
Proof.
  unfold sort_values. intros (keys & Hkeys & H)%bind_Ok. injection H as <-. cbn.
  apply row_keys_length in Hkeys.
  set (perm := (merge_sort keyed_le (zip (seq 0 (length keys)) keys)).*1).
  assert (perm ≡ₚ seq 0 (length keys)) as Hperm.
  { unfold perm. rewrite merge_sort_Permutation. rewrite fst_zip; [done|].
    by rewrite length_seq. }
  rewrite take_rows_length.
  - by rewrite Hperm, length_seq.
  - intros idx Hidx. rewrite Hperm in Hidx. apply elem_of_seq in Hidx. lia.
Qed.

Lemma for_each_name_index body names data h h' data' :
  (∀ data name h h' data', body data name h = (h', Ok data') →
     df_index data' = df_index data) →
  for_each_name body names data h = (h', Ok data') →
  df_index data' = df_index data.
Proof.
  intros Hbody. revert data h. induction names as [|name names IH]; intros data h H.
  - cbn in H. by injection H as _ <-.
  - cbn in H. apply Py_bind_Ok in H as (h1 & data1 & H1 & H).
    rewrite (IH _ _ H). by eapply Hbody.
Qed.

Lemma encode_categorical_index kw data name h h' data' :
  encode_categorical kw data name h = (h', Ok data') → df_index data' = df_index data.
Proof.
  unfold encode_categorical. intros H.
  do 3 (apply Py_bind_Ok in H as (? & ? & _ & H)).
  apply Py_bind_Ok in H as (? & entry & _ & H).
  destruct entry.
  - do 2 (apply Py_bind_Ok in H as (? & ? & _ & H)). by injection H as _ <-.
  - by injection H as _ <-.
Qed.

Lemma scale_real_index kw data name h h' data' :
  scale_real kw data name h = (h', Ok data') → df_index data' = df_index data.
Proof.
  unfold scale_real. intros H.
  do 3 (apply Py_bind_Ok in H as (? & ? & _ & H)).
  apply Py_bind_Ok in H as (? & entry & _ & H).
  destruct entry.
  - do 2 (apply Py_bind_Ok in H as (? & ? & _ & H)). by injection H as _ <-.
  - by injection H as _ <-.
Qed.

(** Both tensors hold one row for every row of the table. *)
Lemma init_tensor_rows data kw h h' ds :
  init data kw h = (h', Ok ds) →
  length (data_cont ds) = length (df_index data)
  ∧ length (data_cat ds) = length (df_index data).
Proof.
  unfold init. intros H.
  do 5 (apply Py_bind_Ok in H as (? & ? & _ & H)).
  apply Py_bind_Ok in H as (? & data1 & [_ Hsort%sort_values_index]%lift_Ok & H).
  apply Py_bind_Ok in H as (? & data2 & Hcat & H).
  apply (for_each_name_index _ _ _ _ _ _ (encode_categorical_index kw)) in Hcat.
  do 2 (apply Py_bind_Ok in H as (? & ? & _ & H)).
  apply Py_bind_Ok in H as (? & data3 & [_ Hweight]%lift_Ok & H).
  apply Py_bind_Ok in H as (? & data4 & Hrel & H).
  apply Py_bind_Ok in H as (? & names & _ & H).
  apply Py_bind_Ok in H as (? & data5 & Hscale & H).
  apply (for_each_name_index _ _ _ _ _ _ (scale_real_index kw)) in Hscale.
  do 3 (apply Py_bind_Ok in H as (? & ? & _ & H)).
  apply Py_bind_Ok in H as (? & tensors & Htensors & H).
  injection H as _ <-. cbn.
  assert (df_index data3 = df_index data2) as H3.
  { destruct (weight kw).
    - apply bind_Ok in Hweight as (? & _ & Hweight). by injection Hweight as <-.
    - by injection Hweight as <-. }
  assert (df_index data4 = df_index data3) as H4.
  { destruct (add_relative_time_idx kw).
    - do 2 (apply Py_bind_Ok in Hrel as (? & ? & _ & Hrel)). by injection Hrel as _ <-.
    - by injection Hrel as _ <-. }
  unfold data_to_tensor in Htensors.
  do 3 (apply Py_bind_Ok in Htensors as (? & ? & _ & Htensors)).
  injection Htensors as _ <-. cbn. rewrite !rows_of_length.
  split; congruence.
Qed.

(** X15. What holds of every constructed dataset: its attributes are the
    arguments, [min_prediction_length] is positive, the row labels of the
    table are unique, the target was not among the known reals, and both
    tensors hold one row for every row of the table. *)
Theorem constructed_dataset_invariants (data : DataFrame) (kw : Kwargs)
    (h h' : Heap) (ds : TimeSeriesDataSet) :
  init data kw h = (h', Ok ds) →
  attrs ds = kw
  ∧ 0 < min_prediction_length (ds_lengths ds)
  ∧ NoDup (df_index data)
  ∧ (∃ known, string_lists h !! time_varying_known_reals kw = Some known
              ∧ target kw ∉ known)
  ∧ length (data_cont ds) = length (df_index data)
  ∧ length (data_cat ds) = length (df_index data).
Proof.
  intros H. pose proof (init_attrs _ _ _ _ _ H) as Hattrs.
  pose proof (init_tensor_rows _ _ _ _ _ H) as [Hcont Hcat].
  unfold init in H.
  apply Py_bind_Ok in H as (? & [] & [-> Hpos%py_assert_Ok%bool_decide_eq_true]%lift_Ok & H).
  apply Py_bind_Ok in H as (? & ? & [-> _]%lift_Ok & H).
  apply Py_bind_Ok in H as (? & known & [-> Hknown]%read_list_Ok & H).
  apply Py_bind_Ok in H as (? & [] & [-> Htarget%py_assert_Ok%bool_decide_eq_true]%lift_Ok & H).
  apply Py_bind_Ok in H as (? & [] & [-> Hnd%py_assert_Ok%bool_decide_eq_true]%lift_Ok & H).
  split_and!; try done.
  - unfold ds_lengths. by rewrite Hattrs.
  - eauto.
Qed.

Lemma py_slice_length_eq {A B} lo hi (l1 : list A) (l2 : list B) :
  length l1 = length l2 → length (py_slice lo hi l1) = length (py_slice lo hi l2).
Proof. intros Hlen. unfold py_slice. rewrite !length_take, !length_drop, Hlen. done. Qed.

Lemma take_rows_length_eq {A B} perm (l1 : list A) (l2 : list B) :
  length l1 = length l2 → length (take_rows perm l1) = length (take_rows perm l2).
Proof.
  intros Hlen. unfold take_rows. induction perm as [|i perm IH]; [done|]. cbn.
  destruct (l1 !! i) as [x|] eqn:H1, (l2 !! i) as [y|] eqn:H2; cbn; try congruence.
  - apply lookup_lt_Some in H1. apply lookup_ge_None in H2. lia.
  - apply lookup_ge_None in H1. apply lookup_lt_Some in H2. lia.
Qed.

Lemma read_window_lengths ds real_names idx cont cat :
  length (data_cont ds) = length (data_cat ds) →
  read_window ds real_names idx = Ok (cont, cat) →
  length cont = length cat.
Proof.
  intros Hlen. unfold read_window. intros (index & _ & H)%bind_Ok.
  pose proof (py_slice_length_eq (index_start (base index)) (index_end index + 1)
                _ _ Hlen) as Hslice.
  case_bool_decide.
  - unfold fill_missing in H.
    apply bind_Ok in H as (times & _ & H).
    apply bind_Ok in H as (indices & _ & H).
    apply bind_Ok in H as (cont1 & Hrep & H). injection H as <- <-.
    apply make_replacements_Ok in Hrep as [-> _].
    by apply take_rows_length_eq.
  - by injection H as <- <-.
Qed.

(** X16. On a constructed dataset the window that [__getitem__] reads, gaps
    filled or not, has as many rows in [data_cont] as in [data_cat]. *)
Theorem window_tensors_have_equal_length (data : DataFrame) (kw : Kwargs)
    (h h' : Heap) (ds : TimeSeriesDataSet) (real_names : list string) (idx : Z)
    (cont : list (list R)) (cat : list (list Z)) :
  init data kw h = (h', Ok ds) →
  read_window ds real_names idx = Ok (cont, cat) →
  length cont = length cat.
Proof.
  intros Hinit. apply read_window_lengths.
  destruct (init_tensor_rows _ _ _ _ _ Hinit). congruence.
Qed.

(** X17. The constructor only adds to the objects that it is given: after
    the call, whether it returns or raises, every dictionary of encoders
    and of scalers still holds each of its entries unchanged, and every
    list its elements in front.  An encoder that the caller passes for a
    column is kept and never fitted again. *)
Theorem constructor_only_adds (data : DataFrame) (kw : Kwargs) (h : Heap) :
  heap_extends h (init data kw h).1
  ∧ ∀ encoders name entry,
      encoder_dicts h !! categoricals_encoders kw = Some encoders →
      encoders !! name = Some entry →
      ∃ encoders',
        encoder_dicts (init data kw h).1 !! categoricals_encoders kw = Some encoders'
        ∧ encoders' !! name = Some entry.
Proof.
  pose proof (init_extends data kw h) as Hext. split; [exact Hext|].
  intros encoders name entry Hdict Hentry.
  destruct Hext as (Henc & _ & _).
  destruct (Henc _ _ Hdict) as (encoders' & Hdict' & Hsub).
  exists encoders'. split; [done|]. by eapply lookup_weaken.
Qed.

(** *** Derived datasets *)

(** X18. A dataset derived by [from_dataset]: with [predict] the call
    requires [stop_randomization], and unless the caller overrides them,
    [min_prediction_length] is the [max_prediction_length] of the source
    and [predict_mode] is set; with [stop_randomization],
    [randomize_length] is [None]; [min_prediction_idx] is that of the
    source, not recomputed from the new table, when it is not 0. *)
Theorem from_dataset_attributes (dataset : TimeSeriesDataSet) (data : DataFrame)
    (stop_randomization predict : bool) (update_kwargs : Given) (h h' : Heap)
    (new : TimeSeriesDataSet) :
  from_dataset dataset data stop_randomization predict update_kwargs h = (h', Ok new) →
  (predict = true → stop_randomization = true)
  ∧ (predict = true → given_min_prediction_length update_kwargs = None →
     kw_min_prediction_length (attrs new) = kw_max_prediction_length (attrs dataset))
  ∧ (predict = true → given_predict_mode update_kwargs = None →
     predict_mode (attrs new) = true)
  ∧ (stop_randomization = true → given_randomize_length update_kwargs = None →
     randomize_length (attrs new) = None)
  ∧ (given_min_prediction_idx update_kwargs = None →
     ds_min_prediction_idx dataset ≠ 0 →
     ds_min_prediction_idx new = ds_min_prediction_idx dataset).
Proof.
  unfold from_dataset. intros H.
  apply Py_bind_Ok in H as (? & ? & [-> Hassert]%lift_Ok & H).
  pose proof (init_attrs _ _ _ _ _ H) as Hattrs.
  split_and!.
  - intros ->. destruct stop_randomization; [done|discriminate].
  - intros -> Hg. rewrite Hattrs. cbn. by rewrite Hg.
  - intros -> Hg. rewrite Hattrs. cbn. by rewrite Hg.
  - intros -> Hg. rewrite Hattrs. cbn. by rewrite Hg.
  - intros Hg Hne. unfold init in H.
    apply Py_bind_Ok in H as (? & ? & _ & H).
    apply Py_bind_Ok in H as (? & min_idx & [_ Hmin]%lift_Ok & H).
    do 15 (apply Py_bind_Ok in H as (? & ? & _ & H)).
    injection H as _ <-. cbn. cbn in Hmin. rewrite Hg in Hmin. cbn in Hmin.
    rewrite bool_decide_eq_false_2 in Hmin by done. by injection Hmin.
Qed.

(** X19. The examples of a dataset derived for prediction do not depend on
    the random draws of [__getitem__]. *)
Theorem prediction_dataset_is_not_randomized (dataset : TimeSeriesDataSet)
    (data : DataFrame) (update_kwargs : Given) (h h' : Heap) (new : TimeSeriesDataSet) :
  from_dataset dataset data true true update_kwargs h = (h', Ok new) →
  given_randomize_length update_kwargs = None →
  ∀ idx draws draws' h1, getitem new idx draws h1 = getitem new idx draws' h1.
Proof.
  unfold from_dataset. intros H Hg.
  apply Py_bind_Ok in H as (? & ? & _ & H).
  pose proof (init_attrs _ _ _ _ _ H) as Hattrs.
  assert (randomize_length (attrs new) = None) as Hnone
    by (rewrite Hattrs; cbn; by rewrite Hg).
  intros idx draws draws' h1. unfold getitem. by rewrite Hnone.
Qed.

(** ** Batches *)

(** *** Batches *)

Lemma length_le_max (lengths : list nat) n :
  n ∈ lengths → (n ≤ foldr Nat.max 0 lengths)%nat.
Proof. induction 1 as [n l|n m l _ IH]; cbn; lia. Qed.

Lemma pad_sequence_Ok {A} width (zero : A) sequences padded :
  pad_sequence width zero sequences = Ok padded →
  let max_len := foldr Nat.max 0%nat (length <$> sequences) in
  padded = (λ s, s ++ replicate (max_len - length s) (replicate width zero)) <$> sequences
  ∧ Forall (Forall (λ row : list A, length row = width)) sequences.
Proof.
  unfold pad_sequence. destruct sequences as [|s sequences]; [done|].
  case_bool_decide; [|done]. by intros [= <-].
Qed.

Lemma pad_sequence_lookup {A} width (zero : A) sequences padded i s :
  pad_sequence width zero sequences = Ok padded →
  sequences !! i = Some s →
  ∃ n, padded !! i = Some (s ++ replicate n (replicate width zero)).
Proof.
  intros [-> _]%pad_sequence_Ok Hs. rewrite list_lookup_fmap, Hs. cbn. eauto.
Qed.

Lemma pad_sequence_rectangular {A} width (zero : A) sequences padded :
  pad_sequence width zero sequences = Ok padded →
  length padded = length sequences
  ∧ ∀ s, s ∈ padded →
      length s = foldr Nat.max 0%nat (length <$> sequences)
      ∧ ∀ row, row ∈ s → length row = width.
Proof.
  intros [-> Hwidth]%pad_sequence_Ok. split; [by rewrite length_fmap|].
  intros ? (s & -> & Hs)%list_elem_of_fmap. split.
  - rewrite length_app, length_replicate.
    pose proof (length_le_max (length <$> sequences) (length s)
                  (list_elem_of_fmap_2 _ _ _ Hs)). lia.
  - intros row [Hrow|Hrow]%elem_of_app.
    + rewrite Forall_forall in Hwidth. specialize (Hwidth s Hs).
      rewrite Forall_forall in Hwidth. by apply Hwidth.
    + apply elem_of_replicate in Hrow as [-> _]. apply length_replicate.
Qed.

Lemma collate_fn_Ok batches batch target :
  collate_fn batches = Ok (batch, target) →
  ∃ width_cont width_cat,
    pad_sequence width_cont (R_of_Z 0)
      ((λ b, py_slice_to (encoder_length b.1) (x_cont b.1)) <$> batches)
      = Ok (encoder_cont batch)
    ∧ pad_sequence width_cat 0
        ((λ b, py_slice_to (encoder_length b.1) (x_cat b.1)) <$> batches)
        = Ok (encoder_cat batch)
    ∧ pad_sequence width_cont (R_of_Z 0)
        ((λ b, py_slice_from (encoder_length b.1) (x_cont b.1)) <$> batches)
        = Ok (decoder_cont batch)
    ∧ pad_sequence width_cat 0
        ((λ b, py_slice_from (encoder_length b.1) (x_cat b.1)) <$> batches)
        = Ok (decoder_cat batch)
    ∧ encoder_lengths batch = (λ b : Example * Target, encoder_length b.1) <$> batches
    ∧ decoder_lengths batch
      = (λ b : Example * Target, Z.of_nat (target_length b.2)) <$> batches
    ∧ decoder_target batch = target.
Proof.
  unfold collate_fn. intros H.
  apply bind_Ok in H as (ec & Hec & H).
  apply bind_Ok in H as (ecat & Hecat & H).
  apply bind_Ok in H as (et & _ & H).
  apply bind_Ok in H as (dc & Hdc & H).
  apply bind_Ok in H as (dcat & Hdcat & H).
  apply bind_Ok in H as (t & _ & H).
  injection H as <- <-. cbn. eauto 10.
Qed.

(** X20. A batch that [_collate_fn] returns: the second component is
    [decoder_target]; [encoder_lengths] and [decoder_lengths] hold the
    encoder length and the number of label steps of every example; each of
    the four feature tensors holds one sequence for every example, all of
    the same number of steps and with rows of the same width. *)
Theorem collate_pads_to_the_longest (batches : list (Example * Target)) (batch : Batch)
    (target : PaddedTarget) :
  collate_fn batches = Ok (batch, target) →
  decoder_target batch = target
  ∧ encoder_lengths batch = (λ b : Example * Target, encoder_length b.1) <$> batches
  ∧ decoder_lengths batch = (λ b : Example * Target, Z.of_nat (target_length b.2)) <$> batches
  ∧ length (encoder_cont batch) = length batches
  ∧ length (encoder_cat batch) = length batches
  ∧ length (decoder_cont batch) = length batches
  ∧ length (decoder_cat batch) = length batches
  ∧ (∃ steps width, ∀ s, s ∈ encoder_cont batch →
       length s = steps ∧ ∀ row, row ∈ s → length row = width)
  ∧ (∃ steps width, ∀ s, s ∈ encoder_cat batch →
       length s = steps ∧ ∀ row, row ∈ s → length row = width)
  ∧ (∃ steps width, ∀ s, s ∈ decoder_cont batch →
       length s = steps ∧ ∀ row, row ∈ s → length row = width)
  ∧ (∃ steps width, ∀ s, s ∈ decoder_cat batch →
       length s = steps ∧ ∀ row, row ∈ s → length row = width).
Proof.
  intros (wc & wz & Hec & Hecat & Hdc & Hdcat & Hel & Hdl & Ht)%collate_fn_Ok.
  apply pad_sequence_rectangular in Hec as [Hec1 Hec2].
  apply pad_sequence_rectangular in Hecat as [Hecat1 Hecat2].
  apply pad_sequence_rectangular in Hdc as [Hdc1 Hdc2].
  apply pad_sequence_rectangular in Hdcat as [Hdcat1 Hdcat2].
  rewrite length_fmap in Hec1. rewrite length_fmap in Hecat1.
  rewrite length_fmap in Hdc1. rewrite length_fmap in Hdcat1.
  split_and!; try done; eauto.
Qed.

Lemma py_slice_to_from {A} (k : Z) (l : list A) :
  py_slice_to k l ++ py_slice_from k l = l.
Proof. unfold py_slice_to, py_slice_from. apply take_drop. Qed.

Lemma py_slice_to_length {A} (k : Z) (l : list A) :
  0 ≤ k ≤ Z.of_nat (length l) → length (py_slice_to k l) = Z.to_nat k.
Proof.
  intros Hk. unfold py_slice_to, slice_bound. rewrite bool_decide_eq_false_2 by lia.
  rewrite length_take. lia.
Qed.

(** X21. Padding loses nothing: for an example whose encoder and label
    lengths add up to its number of rows, the first [encoder_lengths[i]]
    rows of the encoder tensors followed by the first [decoder_lengths[i]]
    rows of the decoder tensors are its [x_cont] and [x_cat], and every row
    beyond these lengths holds zeros only. *)
Theorem collate_keeps_the_examples (batches : list (Example * Target)) (batch : Batch)
    (target : PaddedTarget) (i : nat) (ex : Example) (label : Target) :
  collate_fn batches = Ok (batch, target) →
  batches !! i = Some (ex, label) →
  0 ≤ encoder_length ex →
  encoder_length ex + Z.of_nat (target_length label) = Z.of_nat (length (x_cont ex)) →
  length (x_cat ex) = length (x_cont ex) →
  ∃ e d ec dc ecat dcat,
    encoder_lengths batch !! i = Some e
    ∧ decoder_lengths batch !! i = Some d
    ∧ encoder_cont batch !! i = Some ec
    ∧ decoder_cont batch !! i = Some dc
    ∧ encoder_cat batch !! i = Some ecat
    ∧ decoder_cat batch !! i = Some dcat
    ∧ take (Z.to_nat e) ec ++ take (Z.to_nat d) dc = x_cont ex
    ∧ take (Z.to_nat e) ecat ++ take (Z.to_nat d) dcat = x_cat ex
    ∧ (∀ row, row ∈ drop (Z.to_nat e) ec → Forall (λ v, v = R_of_Z 0) row)
    ∧ (∀ row, row ∈ drop (Z.to_nat d) dc → Forall (λ v, v = R_of_Z 0) row)
    ∧ (∀ row, row ∈ drop (Z.to_nat e) ecat → Forall (λ v, v = 0) row)
    ∧ (∀ row, row ∈ drop (Z.to_nat d) dcat → Forall (λ v, v = 0) row).
Proof.
  intros (wc & wz & Hec & Hecat & Hdc & Hdcat & Hel & Hdl & Ht)%collate_fn_Ok
         Hi Henc Hsum Hcat.
  assert (∀ {A} (f : Example * Target → A), (f <$> batches) !! i = Some (f (ex, label)))
    as Hf by (intros; by rewrite list_lookup_fmap, Hi).
  destruct (pad_sequence_lookup _ _ _ _ i _ Hec (Hf _ _)) as (n1 & H1).
  destruct (pad_sequence_lookup _ _ _ _ i _ Hdc (Hf _ _)) as (n2 & H2).
  destruct (pad_sequence_lookup _ _ _ _ i _ Hecat (Hf _ _)) as (n3 & H3).
  destruct (pad_sequence_lookup _ _ _ _ i _ Hdcat (Hf _ _)) as (n4 & H4).
  cbn in H1, H2, H3, H4.
  do 6 eexists. rewrite Hel, Hdl, !Hf, H1, H2, H3, H4. cbn.
  assert (length (py_slice_to (encoder_length ex) (x_cont ex))
          = Z.to_nat (encoder_length ex)) as L1 by (apply py_slice_to_length; lia).
  assert (length (py_slice_to (encoder_length ex) (x_cat ex))
          = Z.to_nat (encoder_length ex)) as L3 by (apply py_slice_to_length; lia).
  assert (length (py_slice_from (encoder_length ex) (x_cont ex))
          = Z.to_nat (Z.of_nat (target_length label))) as L2.
  { pose proof (py_slice_to_from (encoder_length ex) (x_cont ex)) as Heq.
    apply (f_equal length) in Heq. rewrite length_app in Heq. lia. }
  assert (length (py_slice_from (encoder_length ex) (x_cat ex))
          = Z.to_nat (Z.of_nat (target_length label))) as L4.
  { pose proof (py_slice_to_from (encoder_length ex) (x_cat ex)) as Heq.
    apply (f_equal length) in Heq. rewrite length_app in Heq. lia. }
  split_and!; try done.
  - rewrite !take_app_length' by done. apply py_slice_to_from.
  - rewrite !take_app_length' by done. apply py_slice_to_from.
  - intros row Hrow. rewrite drop_app_length' in Hrow by done.
    apply elem_of_replicate in Hrow as [-> _]. apply Forall_forall.
    by intros v [-> _]%elem_of_replicate.
  - intros row Hrow. rewrite drop_app_length' in Hrow by done.
    apply elem_of_replicate in Hrow as [-> _]. apply Forall_forall.
    by intros v [-> _]%elem_of_replicate.
  - intros row Hrow. rewrite drop_app_length' in Hrow by done.
    apply elem_of_replicate in Hrow as [-> _]. apply Forall_forall.
    by intros v [-> _]%elem_of_replicate.
  - intros row Hrow. rewrite drop_app_length' in Hrow by done.
    apply elem_of_replicate in Hrow as [-> _]. apply Forall_forall.
    by intros v [-> _]%elem_of_replicate.
Qed.

(** ** Failures and lengths *)

(** *** What [__getitem__] raises *)

Lemma make_replacements_names real_names repeated fills cont cont' :
  make_replacements real_names repeated fills cont = Ok cont' →
  ∀ name value, (name, value) ∈ fills →
    name ∈ real_names ∧ ∃ v, fill_value value = Ok v.
Proof.
  revert cont. induction fills as [|[name0 value0] fills IH]; intros cont H name value Hin.
  - by apply elem_of_nil in Hin.
  - cbn in H.
    apply bind_Ok in H as (col_idx & Hidx & H).
    apply bind_Ok in H as (v & Hv & H).
    apply bind_Ok in H as ([] & _ & H).
    apply bind_Ok in H as (cont1 & _ & H).
    apply elem_of_cons in Hin as [[= -> ->]|Hin]; [|by eapply IH].
    split; [|eauto]. unfold list_index in Hidx.
    destruct (index_of name0 real_names) as [i|] eqn:Hi; [|done].
    apply index_of_lookup in Hi. by eapply list_elem_of_lookup_2.
Qed.


Lemma raises_only_weaken {A} (P Q : exn → Prop) (m : result A) :
  (∀ e, P e → Q e) → raises_only P m → raises_only Q m.
Proof. intros HPQ Hm e He. by apply HPQ, Hm. Qed.

Lemma raises_only_make_replacements real_names repeated fills cont :
  raises_only no_assertion (make_replacements real_names repeated fills cont).
Proof.
  revert cont. induction fills as [|[name value] fills IH]; intros cont; cbn.
  - apply raises_only_Ok.
  - apply raises_only_bind; [by apply raises_only_list_index|]. intros col_idx _.
    apply raises_only_bind.
    { destruct value; cbn; try apply raises_only_Ok; by apply raises_only_Raise. }
    intros v _. apply raises_only_bind.
    { case_bool_decide; [apply raises_only_Ok|by apply raises_only_Raise]. }
    intros _ _. apply raises_only_bind; [|intros; apply IH].
    apply raises_only_mapM. intros [[] row] _; [|apply raises_only_Ok].
    by apply raises_only_set_cell.
Qed.

Lemma raises_only_read_window ds real_names idx :
  raises_only no_assertion (read_window ds real_names idx).
Proof.
  unfold read_window. apply raises_only_bind; [by apply raises_only_iloc|].
  intros index _. case_bool_decide; [|apply raises_only_Ok].
  unfold fill_missing. apply raises_only_bind.
  { apply raises_only_mapM. intros row _. by apply raises_only_iloc. }
  intros times _. apply raises_only_bind.
  { unfold repeat_interleave. case_bool_decide; [apply raises_only_Ok|].
    by apply raises_only_Raise. }
  intros indices _. apply raises_only_bind; [|intros; apply raises_only_Ok].
  apply raises_only_make_replacements.
Qed.

Lemma raises_only_window_lengths cfg cat :
  raises_only (λ e, early_assertion e ∨ no_assertion e) (window_lengths cfg cat).
Proof.
  unfold window_lengths. apply raises_only_bind.
  { unfold py_assert. case_bool_decide; [apply raises_only_Ok|].
    apply raises_only_Raise. left. by left. }
  intros _ _. apply raises_only_bind.
  { apply raises_only_last_time_of. by right. }
  intros last_time _. apply raises_only_bind; [|intros; apply raises_only_Ok].
  unfold py_assert. case_bool_decide; [apply raises_only_Ok|].
  apply raises_only_Raise. left. by right.
Qed.

(** After the assertions of lines 330 and 336 the three assertions of
    lines 362-364 hold on a window that was not cut. *)
Lemma raises_only_split_example kw cfg real_names cont cat enc dec :
  0 < min_prediction_length cfg →
  window_lengths cfg cat = Ok (enc, dec) →
  raises_only no_assertion
    (split_example kw cfg real_names
       {| w_cont := cont; w_cat := cat; w_encoder_length := enc; w_decoder_length := dec |}).
Proof.
  intros Hpos Hlens.
  apply window_lengths_Ok in Hlens as (last_time & Hlast & Hdec & Henc & Hmin).
  unfold split_example. cbn [w_cont w_cat w_encoder_length w_decoder_length].
  rewrite (bool_decide_eq_true_2 (0 < dec)) by lia.
  rewrite (bool_decide_eq_true_2 (0 ≤ enc)) by lia.
  rewrite Hlast. cbn [py_assert mbind result_bind].
  rewrite (bool_decide_eq_true_2 (dec ≤ last_time - min_prediction_idx cfg + 1)) by lia.
  cbn [py_assert mbind result_bind].
  apply raises_only_bind.
  { destruct (weight kw); [apply raises_only_Ok|].
    apply raises_only_fmap, raises_only_mapM. intros row _. by apply raises_only_iloc. }
  intros target_column _. apply raises_only_bind; [|intros; apply raises_only_Ok].
  destruct (add_relative_time_idx kw); [|apply raises_only_Ok].
  apply raises_only_bind; [by apply raises_only_list_index|].
  intros j _. apply raises_only_bind.
  { case_bool_decide; [apply raises_only_Ok|by apply raises_only_Raise]. }
  intros _ _. apply raises_only_mapM. intros [i row] _. by apply raises_only_set_cell.
Qed.

(** X23. Without randomisation, on a dataset with a positive
    [min_prediction_length], the only assertions of [__getitem__] that can
    fail are the two of lines 330 and 336: the assertions of lines 362 to
    364 never fail. *)
Theorem late_assertions_never_fail (ds : TimeSeriesDataSet) (idx : Z) (draws : Z * Z)
    (h : Heap) (msg : string) :
  0 < min_prediction_length (ds_lengths ds) →
  randomize_length (attrs ds) = None →
  (getitem ds idx draws h).2 = Raise (AssertionError msg) →
  msg = "sequence_length >= self.min_prediction_length"
  ∨ msg = "decoder_length >= self.min_prediction_length".
Proof.
  intros Hpos Hnone Hraise.
  assert (raises_only (λ e, early_assertion e ∨ no_assertion e) (getitem ds idx draws h).2)
    as Honly.
  { unfold getitem. unfold mbind at 1, Py_bind at 1.
    destruct (reals (attrs ds) h) as [h1 [real_names|e]] eqn:Hreals.
    2:{ cbn. intros ? [= <-]. right.
        unfold reals, mbind, Py_bind, read_list in Hreals.
        destruct (string_lists h !! _); cbn in Hreals; [done|].
        injection Hreals as _ <-. done. }
    unfold lift. cbn [snd]. rewrite Hnone.
    apply raises_only_bind.
    { eapply raises_only_weaken; [|apply raises_only_read_window]. by right. }
    intros [cont cat] _. apply raises_only_bind; [apply raises_only_window_lengths|].
    intros [enc dec] Hlens. cbn [mbind result_bind].
    eapply raises_only_weaken; [|by apply raises_only_split_example]. by right. }
  destruct (Honly _ Hraise) as [[Hm|Hm]|Hno].
  - left. by injection Hm.
  - right. by injection Hm.
  - by destruct (Hno msg).
Qed.

(** *** The length of a dataset *)

Lemma omap_length_all {A B} (f : A → option B) (l : list A) :
  (∀ x, x ∈ l → is_Some (f x)) → length (omap f l) = length l.
Proof.
  induction l as [|x l IH]; intros Hall; [done|]. cbn.
  destruct (Hall x ltac:(left)) as [y ->]. cbn. rewrite IH; [done|].
  intros z Hz. apply Hall. by right.
Qed.

Lemma take_rows_Permutation {A} (perm : list nat) (l : list A) :
  perm ≡ₚ seq 0 (length l) → take_rows perm l ≡ₚ l.
Proof.
  intros Hperm. unfold take_rows. rewrite Hperm.
  assert (∀ (k : list A) off, omap (λ i, (k ++ l) !! i) (seq (length k + off) (length l - off))
                               = drop off l) as Hseq.
  { intros k off. remember (length l - off)%nat as n eqn:Hn.
    revert off Hn. induction n as [|n IH]; intros off Hn.
    - cbn. rewrite drop_ge; [done|lia].
    - cbn. rewrite lookup_app_r by lia.
      replace (length k + off - length k)%nat with off by lia.
      destruct (lookup_lt_is_Some_2 l off) as [x Hx]; [lia|].
      rewrite Hx. cbn. rewrite (drop_S _ _ _ Hx). f_equal.
      replace (S (length k + off)) with (length k + S off)%nat by lia.
      apply IH. lia. }
  specialize (Hseq [] 0%nat). cbn in Hseq. rewrite Nat.sub_0_r in Hseq. by rewrite Hseq.
Qed.

Lemma sort_values_Permutation data names sorted :
  sort_values data names = Ok sorted → df_index sorted ≡ₚ df_index data.
Proof.
  unfold sort_values. intros (keys & Hkeys & H)%bind_Ok. injection H as <-. cbn.
  assert (length keys = length (df_index data)) as Hlen.
  { unfold row_keys in Hkeys. apply bind_Ok in Hkeys as (cols & _ & Hkeys).
    injection Hkeys as <-. unfold rows_of. by rewrite length_fmap, length_seq. }
  apply take_rows_Permutation.
  rewrite merge_sort_Permutation, fst_zip, Hlen; [done|]. by rewrite length_seq.
Qed.

Lemma table_rows_labels data names rows :
  table_rows data names = Ok rows → NoDup (df_index data) → NoDup (t_label <$> rows).
Proof.
  unfold table_rows. intros (groups & _ & H)%bind_Ok.
  apply bind_Ok in H as (time_column & _ & H).
  apply bind_Ok in H as (times & _ & H). injection H as <-.
  generalize (zip groups times) as gt. intros gt.
  induction (df_index data) as [|l labels IH] in gt |- *; intros Hnd; [constructor|].
  destruct gt as [|[g t] gt]; [constructor|]. cbn.
  apply NoDup_cons in Hnd as [Hl Hnd]. apply NoDup_cons. split; [|by apply IH].
  intros (r & Hr & Hin)%list_elem_of_fmap. apply Hl.
  apply list_elem_of_lookup in Hin as [i Hi].
  apply lookup_zip_with_Some in Hi as (l' & [g' t'] & -> & Hl' & _).
  cbn in Hr. subst. by eapply list_elem_of_lookup_2.
Qed.

(** The table that the constructor hands to [construct_index], and the
    index that it stores. *)
Lemma init_index data kw h h' ds :
  init data kw h = (h', Ok ds) →
  ∃ rows,
    NoDup (t_label <$> rows)
    ∧ construct_index (ds_lengths ds) rows (predict_mode kw) = Ok (data_index ds).
Proof.
  unfold init. intros H.
  do 4 (apply Py_bind_Ok in H as (? & ? & _ & H)).
  apply Py_bind_Ok in H as (? & [] & [_ Hnd%py_assert_Ok%bool_decide_eq_true]%lift_Ok & H).
  apply Py_bind_Ok in H as (? & data1 & [_ Hsort%sort_values_Permutation]%lift_Ok & H).
  apply Py_bind_Ok in H as (? & data2 & Hcat & H).
  apply (for_each_name_index _ _ _ _ _ _ (encode_categorical_index kw)) in Hcat.
  do 2 (apply Py_bind_Ok in H as (? & ? & _ & H)).
  apply Py_bind_Ok in H as (? & data3 & [_ Hweight]%lift_Ok & H).
  apply Py_bind_Ok in H as (? & data4 & Hrel & H).
  apply Py_bind_Ok in H as (? & names & _ & H).
  apply Py_bind_Ok in H as (? & data5 & Hscale & H).
  apply (for_each_name_index _ _ _ _ _ _ (scale_real_index kw)) in Hscale.
  apply Py_bind_Ok in H as (? & ? & _ & H).
  apply Py_bind_Ok in H as (? & rows & [_ Hrows]%lift_Ok & H).
  apply Py_bind_Ok in H as (? & index & [_ Hindex]%lift_Ok & H).
  apply Py_bind_Ok in H as (? & tensors & _ & H).
  injection H as _ <-. cbn.
  assert (df_index data3 = df_index data2) as H3.
  { destruct (weight kw).
    - apply bind_Ok in Hweight as (? & _ & Hweight). by injection Hweight as <-.
    - by injection Hweight as <-. }
  assert (df_index data4 = df_index data3) as H4.
  { destruct (add_relative_time_idx kw).
    - do 2 (apply Py_bind_Ok in Hrel as (? & ? & _ & Hrel)). by injection Hrel as _ <-.
    - by injection Hrel as _ <-. }
  exists rows. split; [|exact Hindex].
  apply (table_rows_labels _ _ _ Hrows).
  rewrite Hscale, H4, H3. cbn in Hcat. rewrite Hcat, Hsort. done.
Qed.


End Properties.

(** * The properties on the examples *)

Section Witnesses.
#[local] Existing Instance integer_floats.



Lemma predict_mode_keeps_longest_witness :
  NoDup (t_label <$> rows_gappy)
  ∧ window_index index_lengths rows_gappy = Ok index_gappy
  ∧ ∃ kept,
      construct_index index_lengths rows_gappy true = Ok kept
      ∧ ∀ g,
          let of_group := filter (λ x : IndexRow, group_id (base x) = g) in
          let eligible := of_group (filter (predict_eligible index_lengths) index_gappy) in
          (eligible = [] → of_group kept = [])
          ∧ (eligible ≠ [] →
             ∃ before w after,
               eligible = before ++ w :: after
               ∧ of_group kept = [w]
               ∧ (∀ x, x ∈ before → sequence_length x < sequence_length w)
               ∧ (∀ x, x ∈ after → sequence_length x ≤ sequence_length w)).
Proof.
  assert (NoDup (t_label <$> rows_gappy)) as Hnd by compute_done.
  assert (window_index index_lengths rows_gappy = Ok index_gappy) as Hix
    by (vm_compute; reflexivity).
  split_and!; [done..|].
  apply (predict_mode_keeps_longest index_lengths rows_gappy index_gappy Hnd Hix).
Defined.



Lemma weighted_target_is_the_feature_block_witness :
  weight (attrs dataset_weighted) = Some "y"
  ∧ (getitem dataset_weighted 0 (2, 2) heap_weighted).2
    = Ok ({| x_cat := [[2]; [1]; [1]; [3]];
             x_cont := [[-2; 200]; [-1; 210]; [0; 70]; [1; 230]];
             encoder_length := 2;
             encoder_target := Matrix [[-2; 200]; [-1; 210]] |},
          Matrix [[0; 70]; [1; 230]])
  ∧ Matrix [[0; 70]; [1; 230]]
    = Matrix (py_slice_from 2 [[-2; 200]; [-1; 210]; [0; 70]; [1; 230]]).
Proof.
  assert (weight (attrs dataset_weighted) = Some "y") as Hw by reflexivity.
  assert ((getitem dataset_weighted 0 (2, 2) heap_weighted).2
          = Ok ({| x_cat := [[2]; [1]; [1]; [3]];
                   x_cont := [[-2; 200]; [-1; 210]; [0; 70]; [1; 230]];
                   encoder_length := 2;
                   encoder_target := Matrix [[-2; 200]; [-1; 210]] |},
                Matrix [[0; 70]; [1; 230]])) as Hget by (vm_compute; reflexivity).
  split_and!; [done..|].
  apply (weighted_target_is_the_feature_block dataset_weighted 0 (2, 2) heap_weighted
           "y" _ _ Hw Hget).
Defined.


Lemma configuration_errors_raise_at_once_witness :
  ¬ NoDup (df_index {| df_index := [7; 7]; df_columns := df_columns table_b |})
  ∧ ∃ e, init {| df_index := [7; 7]; df_columns := df_columns table_b |}
              (update (signature_defaults "t" "y" ["g"]) given_c) heap_at_import
         = (heap_at_import, Raise e).
Proof.
  assert (¬ NoDup (df_index {| df_index := [7; 7]; df_columns := df_columns table_b |}))
    as Hdup by compute_done.
  split; [done|].
  apply (configuration_errors_raise_at_once _ _ heap_at_import (or_intror Hdup)).
Defined.

(** C8, against the claim as stated: a table with a column named
    [__target__], listed among the reals, is accepted; the constructor
    overwrites the column with the target and goes on. *)
Lemma reserved_column_name_is_accepted :
  "__target__" ∈ dom (df_columns table_reserved)
  ∧ ∃ h ds,
      new_TimeSeriesDataSet table_reserved "t" "y" ["g"] given_reserved heap_at_import
        = (h, Ok ds)
      ∧ data_cont ds = [[0; 10; 10]; [0; 20; 20]].
Proof.
  split; [compute_done|]. do 2 eexists. split; vm_compute; reflexivity.
Qed.









Lemma relative_time_idx_column_witness :
  (getitem dataset_plain 0 (0, 0) heap_plain).2 = Ok example_0
  ∧ add_relative_time_idx (attrs dataset_plain) = true
  ∧ ∃ real_names j,
      reals (attrs dataset_plain) heap_plain = (heap_plain, Ok real_names)
      ∧ list_index "relative_time_idx" real_names = Ok j
      ∧ ∀ (i : nat) row, x_cont example_0.1 !! i = Some row →
          row !! Z.to_nat j
          = Some (R_rel_time (Z.of_nat i - encoder_length example_0.1)
                             (max_encoder_length (ds_lengths dataset_plain))).
Proof.
  assert ((getitem dataset_plain 0 (0, 0) heap_plain).2 = Ok example_0) as Hget
    by (vm_compute; reflexivity).
  assert (add_relative_time_idx (attrs dataset_plain) = true) as Hrel by reflexivity.
  split_and!; [done..|].
  apply (relative_time_idx_column dataset_plain 0 (0, 0) heap_plain _ _ Hget Hrel).
Defined.

Lemma dropout_categoricals_are_zeroed_witness :
  (getitem dataset_weighted 0 (0, 1) heap_weighted).2 = Ok example_dropout
  ∧ is_Some (randomize_length (attrs dataset_weighted))
  ∧ encoder_length example_dropout.1 = 0
  ∧ ∀ c, c ∈ dropout_categoricals (attrs dataset_weighted) →
      ∃ j, list_index c (categoricals (attrs dataset_weighted)) = Ok j
           ∧ ∀ row v, row ∈ x_cat example_dropout.1 → row !! Z.to_nat j = Some v → v = 0.
Proof.
  assert ((getitem dataset_weighted 0 (0, 1) heap_weighted).2 = Ok example_dropout) as Hget
    by (vm_compute; reflexivity).
  assert (is_Some (randomize_length (attrs dataset_weighted))) as Hsome
    by (eexists; reflexivity).
  split_and!; [done..|].
  apply (dropout_categoricals_are_zeroed dataset_weighted 0 (0, 1) heap_weighted _ _
           Hget Hsome eq_refl).
Defined.

Lemma fill_missing_forward_fills_witness :
  column_at (-1) gap_cat = Ok [0; 1; 3]
  ∧ ascending [0; 1; 3]
  ∧ length gap_cont = length gap_cat
  ∧ fill_missing ["relative_time_idx"; "y"] [("y", LReal 7)] gap_cont gap_cat
    = Ok (filled_cont, filled_cat)
  ∧ Z.of_nat (length filled_cat) = 3 - 0 + 1
  ∧ length filled_cont = length filled_cat
  ∧ (∀ (k : nat) row, filled_cat !! k = Some row →
       ∃ (i : nat) t, gap_cat !! i = Some row ∧ [0; 1; 3] !! i = Some t
                      ∧ t ≤ 0 + Z.of_nat k
                      ∧ ∀ t', [0; 1; 3] !! S i = Some t' → 0 + Z.of_nat k < t')
  ∧ (∀ (i : nat) t, [0; 1; 3] !! i = Some t →
       filled_cat !! Z.to_nat (t - 0) = gap_cat !! i
       ∧ filled_cont !! Z.to_nat (t - 0) = gap_cont !! i).
Proof.
  assert (column_at (-1) gap_cat = Ok [0; 1; 3]) as Htimes by reflexivity.
  assert (ascending [0; 1; 3]) as Hasc.
  { intros [|[|[|i]]] a b Ha Hb; cbn in Ha, Hb; simplify_eq; lia. }
  assert (fill_missing ["relative_time_idx"; "y"] [("y", LReal 7)] gap_cont gap_cat
          = Ok (filled_cont, filled_cat)) as Hfill by (vm_compute; reflexivity).
  split; [exact Htimes|]. split; [exact Hasc|]. split; [reflexivity|].
  split; [exact Hfill|].
  eapply fill_missing_forward_fills;
    [exact Htimes|exact Hasc|reflexivity|reflexivity|reflexivity|exact Hfill].
Defined.


Lemma constructed_dataset_invariants_witness :
  init table_gaps (update (signature_defaults "t" "y" ["g"]) given_plain) heap_at_import
    = (heap_plain, Ok dataset_plain)
  ∧ 0 < min_prediction_length (ds_lengths dataset_plain)
  ∧ length (data_cont dataset_plain) = length (df_index table_gaps)
  ∧ length (data_cat dataset_plain) = length (df_index table_gaps).
Proof.
  assert (init table_gaps (update (signature_defaults "t" "y" ["g"]) given_plain)
               heap_at_import = (heap_plain, Ok dataset_plain)) as Hinit
    by (vm_compute; reflexivity).
  split; [exact Hinit|].
  destruct (constructed_dataset_invariants _ _ _ _ _ Hinit)
    as (_ & Hpos & _ & _ & Hcont & Hcat).
  split_and!; [exact Hpos|exact Hcont|exact Hcat].
Defined.

Lemma window_tensors_have_equal_length_witness :
  init table_gaps (update (signature_defaults "t" "y" ["g"]) given_plain) heap_at_import
    = (heap_plain, Ok dataset_plain)
  ∧ read_window dataset_plain ["relative_time_idx"; "y"] 0
    = Ok (window_cont_plain, window_cat_plain)
  ∧ length window_cont_plain = length window_cat_plain.
Proof.
  assert (init table_gaps (update (signature_defaults "t" "y" ["g"]) given_plain)
               heap_at_import = (heap_plain, Ok dataset_plain)) as Hinit
    by (vm_compute; reflexivity).
  assert (read_window dataset_plain ["relative_time_idx"; "y"] 0
          = Ok (window_cont_plain, window_cat_plain)) as Hw by (vm_compute; reflexivity).
  split_and!; [done..|].
  apply (window_tensors_have_equal_length _ _ _ _ _ _ _ _ _ Hinit Hw).
Defined.

Lemma from_dataset_attributes_witness :
  from_dataset dataset_source table_a true true given_static_g heap_source
    = (heap_derived, Ok dataset_derived)
  ∧ kw_min_prediction_length (attrs dataset_derived)
    = kw_max_prediction_length (attrs dataset_source)
  ∧ predict_mode (attrs dataset_derived) = true
  ∧ randomize_length (attrs dataset_derived) = None.
Proof.
  assert (from_dataset dataset_source table_a true true given_static_g heap_source
          = (heap_derived, Ok dataset_derived)) as Hfrom by (vm_compute; reflexivity).
  split; [exact Hfrom|].
  destruct (from_dataset_attributes _ _ _ _ _ _ _ _ Hfrom)
    as (_ & Hmin & Hpredict & Hrandom & _).
  split_and!; [by apply Hmin|by apply Hpredict|by apply Hrandom].
Defined.

Lemma prediction_dataset_is_not_randomized_witness :
  from_dataset dataset_source table_a true true given_static_g heap_source
    = (heap_derived, Ok dataset_derived)
  ∧ given_randomize_length given_static_g = None
  ∧ getitem dataset_derived 0 (0, 0) heap_derived
    = getitem dataset_derived 0 (3, 1) heap_derived.
Proof.
  assert (from_dataset dataset_source table_a true true given_static_g heap_source
          = (heap_derived, Ok dataset_derived)) as Hfrom by (vm_compute; reflexivity).
  split_and!; [done..|].
  apply (prediction_dataset_is_not_randomized _ _ _ _ _ _ Hfrom eq_refl).
Defined.

Lemma collate_pads_to_the_longest_witness :
  collate_fn [example_0; example_2] = Ok collated
  ∧ decoder_target collated.1 = collated.2
  ∧ encoder_lengths collated.1 = [2; 0]
  ∧ decoder_lengths collated.1 = [2; 1]
  ∧ length (encoder_cont collated.1) = 2%nat.
Proof.
  assert (collate_fn [example_0; example_2] = Ok collated) as Hcollate
    by (vm_compute; reflexivity).
  split; [exact Hcollate|].
  destruct (collate_pads_to_the_longest _ _ _ Hcollate)
    as (Ht & Hel & Hdl & Hec & _).
  split_and!; [exact Ht|exact Hel|exact Hdl|exact Hec].
Defined.

Lemma collate_keeps_the_examples_witness :
  collate_fn [example_0; example_2] = Ok collated
  ∧ [example_0; example_2] !! 1%nat = Some example_2
  ∧ 0 ≤ encoder_length example_2.1
  ∧ encoder_length example_2.1 + Z.of_nat (target_length example_2.2)
    = Z.of_nat (length (x_cont example_2.1))
  ∧ length (x_cat example_2.1) = length (x_cont example_2.1)
  ∧ ∃ e d ec dc ecat dcat,
      encoder_lengths collated.1 !! 1%nat = Some e
      ∧ decoder_lengths collated.1 !! 1%nat = Some d
      ∧ encoder_cont collated.1 !! 1%nat = Some ec
      ∧ decoder_cont collated.1 !! 1%nat = Some dc
      ∧ encoder_cat collated.1 !! 1%nat = Some ecat
      ∧ decoder_cat collated.1 !! 1%nat = Some dcat
      ∧ take (Z.to_nat e) ec ++ take (Z.to_nat d) dc = x_cont example_2.1
      ∧ take (Z.to_nat e) ecat ++ take (Z.to_nat d) dcat = x_cat example_2.1
      ∧ (∀ row, row ∈ drop (Z.to_nat e) ec → Forall (λ v, v = R_of_Z 0) row)
      ∧ (∀ row, row ∈ drop (Z.to_nat d) dc → Forall (λ v, v = R_of_Z 0) row)
      ∧ (∀ row, row ∈ drop (Z.to_nat e) ecat → Forall (λ v, v = 0) row)
      ∧ (∀ row, row ∈ drop (Z.to_nat d) dcat → Forall (λ v, v = 0) row).
Proof.
  assert (collate_fn [example_0; example_2] = Ok collated) as Hcollate
    by (vm_compute; reflexivity).
  assert (0 ≤ encoder_length example_2.1) as Henc by (cbn; lia).
  split_and!; [done..|].
  apply (collate_keeps_the_examples [example_0; example_2] collated.1 collated.2 1
           example_2.1 example_2.2 Hcollate eq_refl Henc eq_refl eq_refl).
Defined.


Lemma late_assertions_never_fail_witness :
  0 < min_prediction_length (ds_lengths dataset_late)
  ∧ randomize_length (attrs dataset_late) = None
  ∧ (getitem dataset_late 0 (0, 0) heap_late).2
    = Raise (AssertionError "decoder_length >= self.min_prediction_length")
  ∧ ("decoder_length >= self.min_prediction_length"
     = "sequence_length >= self.min_prediction_length"
     ∨ "decoder_length >= self.min_prediction_length"
       = "decoder_length >= self.min_prediction_length").
Proof.
  assert (0 < min_prediction_length (ds_lengths dataset_late)) as Hpos by (cbn; lia).
  assert ((getitem dataset_late 0 (0, 0) heap_late).2
          = Raise (AssertionError "decoder_length >= self.min_prediction_length"))
    as Hraise by (vm_compute; reflexivity).
  split_and!; [done..|].
  apply (late_assertions_never_fail dataset_late 0 (0, 0) heap_late _ Hpos eq_refl Hraise).
Defined.


End Witnesses.
